(** * The CCTV news crawler: deduplicating ingestion pipeline

    A shallow embedding of [crawler.py] (class [CCTVNewsCrawler]) and the
    properties of its ingestion pipeline: the identity hash, the
    date-partitioned content file layout, and [save_news_to_db].

    Representation choices.
    - A Python [str] is the list of its code points ([pystr]); file system
      paths are lists of components, and [os.path.join] of relative
      components is list concatenation.
    - A value found in a feed item (the result of [json.loads]) is a
      [pyval]: [None], a bool, an int or a str.  Floats and nested
      containers are outside the model.
    - The table [news] is a finite map from [content_hash] to rows whose
      fields carry the column types of the schema.
    - Effects are threaded through an exception-and-state monad over a
      [World] (table, file system, clock ticks, observable trace).  What the
      network, the operating system and the clocks answer is read from an
      [Env] of oracles indexed by the tick at which the call is made.
    - The feed is read through a second record of oracles, [Feed]: what
      [requests.get] answers for a page and what [json.loads] builds from a
      text.  [run_crawler] follows the feeds whose items are objects with
      scalar fields.
    - [viewer.py] is represented by [read_detailed_content], the reader of
      the content files that the crawler writes.
    - Outside the model: failures of [sqlite3.connect] and [commit], and the
      log lines that the two fetchers print for themselves. *)

From Stdlib Require Import NArith ZArith Ascii String.
From stdpp Require Import gmap strings list fin_maps pretty.

Local Open Scope N_scope.

(** ** Python strings and their UTF-8 encoding *)

Definition pystr := list N.

(** An ASCII literal as a Python string. *)
Definition pystr_of_string (s : string) : pystr :=
  map N_of_ascii (list_ascii_of_string s).

Module Utf8.

Definition is_surrogate (c : N) : bool := (0xD800 <=? c) && (c <=? 0xDFFF).

Definition cont (x : N) : N := N.lor 0x80 (N.land x 0x3F).

(** [str.encode('utf-8')] on one code point; [None] stands for the
    [UnicodeEncodeError] that lone surrogates raise. *)
Definition encode_cp (c : N) : option (list N) :=
  if c <? 0x80 then Some [c]
  else if c <? 0x800 then Some [N.lor 0xC0 (N.shiftr c 6); cont c]
  else if c <? 0x10000 then
    if is_surrogate c then None
    else Some [N.lor 0xE0 (N.shiftr c 12); cont (N.shiftr c 6); cont c]
  else if c <? 0x110000 then
    Some [N.lor 0xF0 (N.shiftr c 18); cont (N.shiftr c 12);
          cont (N.shiftr c 6); cont c]
  else None.

Fixpoint encode (s : pystr) : option (list N) :=
  match s with
  | [] => Some []
  | c :: s' =>
      match encode_cp c, encode s' with
      | Some bs, Some rest => Some (bs ++ rest)
      | _, _ => None
      end
  end.

End Utf8.

(** ** MD5 (RFC 1321), as [hashlib.md5(...).hexdigest()] computes it *)

Module MD5.

Definition add32 (a b : N) : N := (a + b) mod 2 ^ 32.
Definition not32 (a : N) : N := N.lxor a 0xFFFFFFFF.
Definition rotl32 (x c : N) : N :=
  N.lor (N.shiftl x c mod 2 ^ 32) (N.shiftr x (32 - c)).

Definition s_table : list N :=
  [7; 12; 17; 22; 7; 12; 17; 22; 7; 12; 17; 22; 7; 12; 17; 22;
   5; 9; 14; 20; 5; 9; 14; 20; 5; 9; 14; 20; 5; 9; 14; 20;
   4; 11; 16; 23; 4; 11; 16; 23; 4; 11; 16; 23; 4; 11; 16; 23;
   6; 10; 15; 21; 6; 10; 15; 21; 6; 10; 15; 21; 6; 10; 15; 21].

Definition K_table : list N :=
  [0xd76aa478; 0xe8c7b756; 0x242070db; 0xc1bdceee; 0xf57c0faf; 0x4787c62a; 0xa8304613; 0xfd469501;
   0x698098d8; 0x8b44f7af; 0xffff5bb1; 0x895cd7be; 0x6b901122; 0xfd987193; 0xa679438e; 0x49b40821;
   0xf61e2562; 0xc040b340; 0x265e5a51; 0xe9b6c7aa; 0xd62f105d; 0x02441453; 0xd8a1e681; 0xe7d3fbc8;
   0x21e1cde6; 0xc33707d6; 0xf4d50d87; 0x455a14ed; 0xa9e3e905; 0xfcefa3f8; 0x676f02d9; 0x8d2a4c8a;
   0xfffa3942; 0x8771f681; 0x6d9d6122; 0xfde5380c; 0xa4beea44; 0x4bdecfa9; 0xf6bb4b60; 0xbebfbc70;
   0x289b7ec6; 0xeaa127fa; 0xd4ef3085; 0x04881d05; 0xd9d4d039; 0xe6db99e5; 0x1fa27cf8; 0xc4ac5665;
   0xf4292244; 0x432aff97; 0xab9423a7; 0xfc93a039; 0x655b59c3; 0x8f0ccc92; 0xffeff47d; 0x85845dd1;
   0x6fa87e4f; 0xfe2ce6e0; 0xa3014314; 0x4e0811a1; 0xf7537e82; 0xbd3af235; 0x2ad7d2bb; 0xeb86d391].

Definition state : Type := N * N * N * N.

Definition init : state := (0x67452301, 0xefcdab89, 0x98badcfe, 0x10325476).

(** Little-endian bytes of a word, and back. *)
Definition le_bytes (n : nat) (w : N) : list N :=
  map (fun i => N.land (N.shiftr w (8 * N.of_nat i)) 0xFF) (seq 0 n).

Fixpoint le_word (bs : list N) : N :=
  match bs with
  | [] => 0
  | b :: bs' => b + 256 * le_word bs'
  end.

(** The message followed by 0x80, zero bytes up to 56 modulo 64, and the
    bit length on 64 bits. *)
Definition pad (msg : list N) : list N :=
  let len := length msg in
  let r := (len `mod` 64)%nat in
  let zeros := (if (r <=? 55)%nat then 55 - r else 119 - r)%nat in
  msg ++ [0x80] ++ repeat 0 zeros
      ++ le_bytes 8 ((8 * N.of_nat len) mod 2 ^ 64).

Definition blocks (bs : list N) : list (list N) :=
  map (fun i => take 64 (drop (64 * i) bs)) (seq 0 (length bs / 64)).

Definition words (block : list N) : list N :=
  map (fun i => le_word (take 4 (drop (4 * i) block))) (seq 0 16).

Definition step (M : list N) (st : state) (i : nat) : state :=
  let '(a, b, c, d) := st in
  let '(f, g) :=
    if (i <? 16)%nat then
      (N.lor (N.land b c) (N.land (not32 b) d), i)
    else if (i <? 32)%nat then
      (N.lor (N.land d b) (N.land (not32 d) c), ((5 * i + 1) `mod` 16)%nat)
    else if (i <? 48)%nat then
      (N.lxor (N.lxor b c) d, ((3 * i + 5) `mod` 16)%nat)
    else
      (N.lxor c (N.lor b (not32 d)), ((7 * i) `mod` 16)%nat) in
  let f' := add32 (add32 (add32 f a) (nth i K_table 0)) (nth g M 0) in
  (d, add32 b (rotl32 f' (nth i s_table 0)), b, c).

Definition compress (st : state) (block : list N) : state :=
  let '(a0, b0, c0, d0) := st in
  let '(a, b, c, d) := fold_left (step (words block)) (seq 0 64) st in
  (add32 a0 a, add32 b0 b, add32 c0 c, add32 d0 d).

Definition digest_state (msg : list N) : state :=
  fold_left compress (blocks (pad msg)) init.

Definition digest (msg : list N) : list N :=
  let '(a, b, c, d) := digest_state msg in
  le_bytes 4 a ++ le_bytes 4 b ++ le_bytes 4 c ++ le_bytes 4 d.

Definition hex_digit (n : N) : ascii :=
  ascii_of_N (if n <? 10 then 48 + n else 87 + n).

Definition hex_byte (b : N) : list ascii :=
  [hex_digit (b / 16); hex_digit (b mod 16)].

Definition hexdigest (msg : list N) : string :=
  string_of_list_ascii (concat (map hex_byte (digest msg))).

End MD5.

(** ** Values, exceptions and the date type *)

Inductive pyval :=
| PNone
| PBool (b : bool)
| PInt (z : Z)
| PStr (s : pystr).

(** What a replacement field [{v}] of an f-string contributes. *)
Definition py_format (v : pyval) : pystr :=
  match v with
  | PNone => pystr_of_string "None"
  | PBool true => pystr_of_string "True"
  | PBool false => pystr_of_string "False"
  | PInt z => pystr_of_string (pretty z)
  | PStr s => s
  end.

Inductive exn :=
| KeyError (key : string)
| TypeError
| ValueError
| UnicodeEncodeError
| OverflowError
| IntegrityError
| OSError.

Inductive result (A : Type) :=
| Ok (a : A)
| Raise (e : exn).
Arguments Ok {A} a.
Arguments Raise {A} e.

Record datetime := {
  dt_year : N; dt_month : N; dt_day : N;
  dt_hour : N; dt_minute : N; dt_second : N
}.

Definition zero_pad (width : nat) (s : string) : string :=
  string_of_list_ascii (replicate (width - String.length s) "0"%char) +:+ s.

(** [dt.strftime('%Y')], ['%m'] and ['%d'], as the C library formats them:
    month and day on two digits, the year in decimal without padding (a
    year below 1000 has fewer than four digits). *)
Definition strftime_Y (dt : datetime) : string := pretty (dt_year dt).
Definition strftime_m (dt : datetime) : string := zero_pad 2 (pretty (dt_month dt)).
Definition strftime_d (dt : datetime) : string := zero_pad 2 (pretty (dt_day dt)).

(** ** Paths *)

Abbreviation path := (list string).

(** The text of a relative path, as [os.path.join] builds it. *)
Definition path_str (p : path) : string := String.concat "/" p.

Definition parent (p : path) : path := removelast p.

(** ** The table [news] *)

Record NewsRow := {
  title : pystr;                        (* TEXT NOT NULL *)
  summary : pystr;                      (* TEXT NOT NULL *)
  publish_time : option pystr;          (* TEXT *)
  keywords : option pystr;              (* TEXT *)
  crawl_time : datetime;                (* TIMESTAMP *)
  content_file_path : option path       (* TEXT *)
}.

(** ** The world and its observable trace *)

Inductive message :=
| MsgFetchingDetail (title30 : pystr)
| MsgSaveContentFailed (e : exn)
| MsgSaveNewsFailed (item_title : pyval) (e : exn).

Inductive event :=
| EvPrint (m : message)
| EvFetch (url : pyval) (answer : option pystr)
| EvSleep.

Record World := {
  db : gmap string NewsRow;
  dirs : gset path;
  files : gmap path pystr;
  ticks : nat;
  trace : list event
}.

(** What lies outside the program.  [strptime s] is
    [datetime.strptime(s, '%Y-%m-%d %H:%M:%S')], [None] when it raises
    [ValueError]; [http_detail t url] is what [fetch_detailed_content]
    obtains for [url] when asked at tick [t]; [io_error t] tells whether the
    operating system refuses the file system call made at tick [t]. *)
Record Env := {
  strptime : pystr -> option datetime;
  http_detail : nat -> pyval -> option pystr;
  datetime_now : nat -> datetime;
  current_timestamp : nat -> datetime;
  io_error : nat -> bool
}.

Record CCTVNewsCrawler := {
  db_path : string;
  content_base_dir : path
}.

(** ** The exception-and-state monad *)

Definition M (A : Type) : Type := World -> result A * World.

Definition ret {A} (a : A) : M A := fun w => (Ok a, w).

Definition raise {A} (e : exn) : M A := fun w => (Raise e, w).

Definition bind {A B} (m : M A) (k : A -> M B) : M B :=
  fun w =>
    match m w with
    | (Ok a, w') => k a w'
    | (Raise e, w') => (Raise e, w')
    end.

(** [try: m  except Exception as e: h e] (also the bare [except:]). *)
Definition try_except {A} (m : M A) (h : exn -> M A) : M A :=
  fun w =>
    match m w with
    | (Ok a, w') => (Ok a, w')
    | (Raise e, w') => h e w'
    end.

Definition lift {A} (r : result A) : M A := fun w => (r, w).

Notation "x <- c1 ;; c2" := (bind c1 (fun x => c2))
  (at level 100, c1 at next level, right associativity).

Definition get_world : M World := fun w => (Ok w, w).

Definition set_db (d : gmap string NewsRow) : M unit :=
  fun w => (Ok tt, {| db := d; dirs := dirs w; files := files w;
                      ticks := ticks w; trace := trace w |}).

Definition set_dirs (d : gset path) : M unit :=
  fun w => (Ok tt, {| db := db w; dirs := d; files := files w;
                      ticks := ticks w; trace := trace w |}).

Definition set_files (f : gmap path pystr) : M unit :=
  fun w => (Ok tt, {| db := db w; dirs := dirs w; files := f;
                      ticks := ticks w; trace := trace w |}).

(** An external call happens: its instant is returned and the clock moves. *)
Definition tick : M nat :=
  fun w => (Ok (ticks w), {| db := db w; dirs := dirs w; files := files w;
                             ticks := S (ticks w); trace := trace w |}).

(** The newest event is at the head of the trace. *)
Definition emit (ev : event) : M unit :=
  fun w => (Ok tt, {| db := db w; dirs := dirs w; files := files w;
                      ticks := ticks w; trace := ev :: trace w |}).

Definition print (m : message) : M unit := emit (EvPrint m).

(** [time.sleep(1)] *)
Definition sleep : M unit := emit EvSleep.

(** ** Python built-ins used by the crawler *)

(** [d[key]] *)
Definition getitem (d : gmap string pyval) (key : string) : M pyval :=
  match d !! key with
  | Some v => ret v
  | None => raise (KeyError key)
  end.

(** [v[:30]] *)
Definition slice_to_30 (v : pyval) : M pystr :=
  match v with
  | PStr s => ret (take 30 s)
  | _ => raise TypeError
  end.

(** Truth value of a [str] or [None] result. *)
Definition py_truthy (o : option pystr) : bool :=
  match o with
  | Some (_ :: _) => true
  | _ => false
  end.

(** Truth value of a [content_file_path] cell: [None] and [''] are false. *)
Definition path_truthy (o : option path) : bool :=
  match o with
  | Some p => negb (String.eqb (path_str p) EmptyString)
  | None => false
  end.

(** ** The file system *)

Definition is_dir (w : World) (p : path) : bool :=
  bool_decide (p = [] ∨ p ∈ dirs w).

Definition is_file (w : World) (p : path) : bool :=
  bool_decide (is_Some (files w !! p)).

(** [os.mkdir(p)] *)
Definition os_mkdir (E : Env) (p : path) : M unit :=
  t <- tick ;;
  w <- get_world ;;
  if io_error E t then raise OSError
  else if is_dir w p || is_file w p then raise OSError
  else if negb (is_dir w (parent p)) then raise OSError
  else set_dirs ({[p]} ∪ dirs w).

(** [os.makedirs(done/todo, exist_ok=True)]: from the outermost level
    inwards, every level that is not yet a directory is created. *)
Fixpoint makedirs_from (E : Env) (done todo : path) : M unit :=
  match todo with
  | [] => ret tt
  | c :: todo' =>
      w <- get_world ;;
      _ <- (if is_dir w (done ++ [c]) then ret tt else os_mkdir E (done ++ [c])) ;;
      makedirs_from E (done ++ [c]) todo'
  end.

Definition os_makedirs (E : Env) (p : path) : M unit := makedirs_from E [] p.

(** [with open(p, 'w', encoding='utf-8') as f: f.write(text)]: opening
    creates or truncates the file, writing fills it. *)
Definition write_text_file (E : Env) (p : path) (text : pystr) : M unit :=
  t <- tick ;;
  w <- get_world ;;
  if io_error E t then raise OSError
  else if is_dir w p then raise OSError
  else if negb (is_dir w (parent p)) then raise OSError
  else
    _ <- set_files (<[p := []]> (files w)) ;;
    match Utf8.encode text with
    | None => raise UnicodeEncodeError
    | Some _ =>
        t' <- tick ;;
        if io_error E t' then raise OSError
        else set_files (<[p := text]> (files w))
    end.

(** ** SQLite statements on the table [news] *)

(** Binding a Python value to a statement parameter: the exception it
    raises, if any. *)
Definition bind_error (v : pyval) : option exn :=
  match v with
  | PNone | PBool _ => None
  | PInt z => if ((- 2 ^ 63 <=? z) && (z <? 2 ^ 63))%Z then None
              else Some OverflowError
  | PStr s => match Utf8.encode s with
              | Some _ => None
              | None => Some UnicodeEncodeError
              end
  end.

Definition sqlite_bind (v : pyval) : M unit :=
  match bind_error v with
  | None => ret tt
  | Some e => raise e
  end.

(** What a column of TEXT affinity stores; [None] is NULL. *)
Definition sqlite_text (v : pyval) : option pystr :=
  match v with
  | PNone => None
  | PBool b => Some (pystr_of_string (if b then "1" else "0"))
  | PInt z => Some (pystr_of_string (pretty z))
  | PStr s => Some s
  end.

(** [SELECT content_file_path FROM news WHERE content_hash = ?] followed by
    [fetchone()]: [None] when there is no row. *)
Definition select_content_file_path (content_hash : string)
  : M (option (option path)) :=
  w <- get_world ;;
  ret (content_file_path <$> db w !! content_hash).

(** [INSERT INTO news (content_hash, title, summary, publish_time, keywords,
    content_file_path) VALUES (?, ?, ?, ?, ?, ?)] *)
Definition insert_news (E : Env) (content_hash : string)
    (v_title v_summary v_publish_time v_keywords : pyval)
    (file_path : option path) : M unit :=
  _ <- sqlite_bind v_title ;;
  _ <- sqlite_bind v_summary ;;
  _ <- sqlite_bind v_publish_time ;;
  _ <- sqlite_bind v_keywords ;;
  w <- get_world ;;
  match sqlite_text v_title, sqlite_text v_summary, db w !! content_hash with
  | Some t, Some s, None =>
      set_db (<[content_hash :=
                 {| title := t; summary := s;
                    publish_time := sqlite_text v_publish_time;
                    keywords := sqlite_text v_keywords;
                    crawl_time := current_timestamp E (ticks w);
                    content_file_path := file_path |}]> (db w))
  | _, _, _ => raise IntegrityError
  end.

(** The row that [UPDATE news SET content_file_path = ?, crawl_time =
    CURRENT_TIMESTAMP] leaves. *)
Definition with_content_file_path (row : NewsRow) (file_path : option path)
    (now : datetime) : NewsRow :=
  {| title := title row; summary := summary row;
     publish_time := publish_time row; keywords := keywords row;
     crawl_time := now; content_file_path := file_path |}.

(** [UPDATE news SET content_file_path = ?, crawl_time = CURRENT_TIMESTAMP
    WHERE content_hash = ?] *)
Definition update_content_file_path (E : Env) (file_path : option path)
    (content_hash : string) : M unit :=
  w <- get_world ;;
  match db w !! content_hash with
  | Some row =>
      set_db (<[content_hash :=
                 with_content_file_path row file_path (current_timestamp E (ticks w))]>
              (db w))
  | None => ret tt
  end.

(** ** The crawler *)

Abbreviation news_item_t := (gmap string pyval).

(** [get_content_hash]: MD5 of the UTF-8 encoding of
    [f"{news_item['title']}{news_item['brief']}"]. *)
Definition get_content_hash (news_item : news_item_t) : result string :=
  match news_item !! "title" with
  | None => Raise (KeyError "title")
  | Some v_title =>
      match news_item !! "brief" with
      | None => Raise (KeyError "brief")
      | Some v_brief =>
          match Utf8.encode (py_format v_title ++ py_format v_brief) with
          | None => Raise UnicodeEncodeError
          | Some content => Ok (MD5.hexdigest content)
          end
      end
  end.

(** [fetch_detailed_content]: every failure inside it is caught there and
    turned into [None]; the answer is the environment's. *)
Definition fetch_detailed_content (E : Env) (url : pyval) : M (option pystr) :=
  t <- tick ;;
  _ <- emit (EvFetch url (http_detail E t url)) ;;
  ret (http_detail E t url).

(** [datetime.strptime(publish_time, '%Y-%m-%d %H:%M:%S')] *)
Definition parse_publish_time (E : Env) (publish_time : pyval) : M datetime :=
  match publish_time with
  | PStr s => match strptime E s with
              | Some dt => ret dt
              | None => raise ValueError
              end
  | _ => raise TypeError
  end.

(** The partition of a date and the relative path of a content file in it. *)
Definition partition (dt : datetime) : path :=
  [strftime_Y dt; strftime_m dt; strftime_d dt].

Definition content_file (dt : datetime) (content_hash : string) : path :=
  partition dt ++ [content_hash +:+ ".txt"].

Definition get_content_file_path (E : Env) (self : CCTVNewsCrawler)
    (content_hash : string) (publish_time : pyval) : M path :=
  try_except
    (dt <- parse_publish_time E publish_time ;;
     _ <- os_makedirs E (content_base_dir self ++ partition dt) ;;
     ret (content_file dt content_hash))
    (fun _ =>
       t <- tick ;;
       _ <- os_makedirs E (content_base_dir self ++ partition (datetime_now E t)) ;;
       ret (content_file (datetime_now E t) content_hash)).

Definition save_detailed_content (E : Env) (self : CCTVNewsCrawler)
    (file_path : path) (detailed_content : option pystr) : M bool :=
  match detailed_content with
  | Some (c :: s) =>
      try_except
        (_ <- write_text_file E (content_base_dir self ++ file_path) (c :: s) ;;
         ret true)
        (fun e => _ <- print (MsgSaveContentFailed e) ;; ret false)
  | _ => ret false
  end.

(** Lines 176-188 of [save_news_to_db]: the value of [content_file_path]
    before the row is written. *)
Definition detail_phase (E : Env) (self : CCTVNewsCrawler) (fetch_detailed : bool)
    (news_item : news_item_t) (content_hash : string)
    (existing : option (option path)) : M (option path) :=
  if fetch_detailed
     && (negb (bool_decide (is_Some existing))
         || negb (path_truthy (existing ≫= id)))
  then
    v_title <- getitem news_item "title" ;;
    title30 <- slice_to_30 v_title ;;
    _ <- print (MsgFetchingDetail title30) ;;
    url <- getitem news_item "url" ;;
    detailed_content <- fetch_detailed_content E url ;;
    file_path <-
      (if py_truthy detailed_content then
         focus_date <- getitem news_item "focus_date" ;;
         file_path <- get_content_file_path E self content_hash focus_date ;;
         saved <- save_detailed_content E self file_path detailed_content ;;
         ret (if saved then Some file_path else None)
       else ret None) ;;
    _ <- sleep ;;
    ret file_path
  else
    match existing with
    | Some cell => ret cell
    | None => ret None
    end.

(** The body of the [try] of lines 190-216. *)
Definition write_row (E : Env) (news_item : news_item_t) (content_hash : string)
    (existing : option (option path)) (file_path : option path)
    (counts : nat * nat) : M (nat * nat) :=
  match existing with
  | Some cell =>
      if path_truthy file_path && negb (path_truthy cell) then
        _ <- update_content_file_path E file_path content_hash ;;
        ret (S (fst counts), snd counts)
      else ret (fst counts, S (snd counts))
  | None =>
      v_title <- getitem news_item "title" ;;
      v_brief <- getitem news_item "brief" ;;
      v_focus_date <- getitem news_item "focus_date" ;;
      _ <- insert_news E content_hash v_title v_brief v_focus_date
             (default (PStr []) (news_item !! "keywords")) file_path ;;
      ret (S (fst counts), snd counts)
  end.

(** Lines 190-219: the [try] and its [except Exception as e]. *)
Definition persist (E : Env) (news_item : news_item_t) (content_hash : string)
    (existing : option (option path)) (file_path : option path)
    (counts : nat * nat) : M (nat * nat) :=
  try_except
    (write_row E news_item content_hash existing file_path counts)
    (fun e =>
       v_title <- getitem news_item "title" ;;
       _ <- print (MsgSaveNewsFailed v_title e) ;;
       ret counts).

(** One iteration of the loop of [save_news_to_db]; [counts] is
    [(new_count, duplicate_count)]. *)
Definition process_item (E : Env) (self : CCTVNewsCrawler) (fetch_detailed : bool)
    (counts : nat * nat) (news_item : news_item_t) : M (nat * nat) :=
  content_hash <- lift (get_content_hash news_item) ;;
  existing <- select_content_file_path content_hash ;;
  file_path <- detail_phase E self fetch_detailed news_item content_hash existing ;;
  persist E news_item content_hash existing file_path counts.

Fixpoint process_batch (E : Env) (self : CCTVNewsCrawler) (fetch_detailed : bool)
    (news_list : list news_item_t) (counts : nat * nat) : M (nat * nat) :=
  match news_list with
  | [] => ret counts
  | news_item :: rest =>
      counts' <- process_item E self fetch_detailed counts news_item ;;
      process_batch E self fetch_detailed rest counts'
  end.

(** [save_news_to_db]: the loop runs inside one connection; [conn.commit()]
    is reached only when the loop ends, so an exception that leaves the
    function discards the rows written so far. *)
Definition save_news_to_db (E : Env) (self : CCTVNewsCrawler)
    (news_list : list news_item_t) (fetch_detailed : bool) : M (nat * nat) :=
  fun w =>
    match process_batch E self fetch_detailed news_list (0%nat, 0%nat) w with
    | (Ok counts, w') => (Ok counts, w')
    | (Raise e, w') =>
        (Raise e, {| db := db w; dirs := dirs w'; files := files w';
                     ticks := ticks w'; trace := trace w' |})
    end.

(** ** The viewer *)

(** Reading a file opened in text mode translates the line ends ['\r\n']
    and ['\r'] to ['\n']. *)
Fixpoint universal_newlines (s : pystr) : pystr :=
  match s with
  | [] => []
  | c :: s' =>
      if c =? 13 then
        10 :: match s' with
              | d :: s'' =>
                  if d =? 10 then universal_newlines s'' else universal_newlines s'
              | [] => []
              end
      else c :: universal_newlines s'
  end.

(** [with open(p, 'r', encoding='utf-8') as f: f.read()] *)
Definition read_text_file (E : Env) (p : path) : M pystr :=
  t <- tick ;;
  w <- get_world ;;
  if io_error E t then raise OSError
  else if is_dir w p then raise OSError
  else
    match files w !! p with
    | None => raise OSError
    | Some text =>
        t' <- tick ;;
        if io_error E t' then raise OSError
        else ret (universal_newlines text)
    end.

Module Viewer.

Record NewsViewer := {
  db_path : string;
  content_base_dir : path
}.

(** [read_detailed_content] of a viewer whose [db_path] names the database
    of the world; what it prints is not recorded.  The result is the
    content, or [None]. *)
Definition read_detailed_content (E : Env) (self : NewsViewer)
    (content_hash : string) : M (option pystr) :=
  result <- select_content_file_path content_hash ;;
  match result with
  | Some (Some p) =>
      if path_truthy (Some p) then
        try_except
          (content <- read_text_file E (content_base_dir self ++ p) ;;
           ret (Some content))
          (fun _ => ret None)
      else ret None
  | _ => ret None
  end.

End Viewer.

(** ** Statistics *)

(** The dictionary that [get_statistics] returns. *)
Record Statistics := {
  total_count : nat;
  detailed_count : nat;
  time_range : option pystr * option pystr
}.

(** The order of TEXT values under the BINARY collation: byte by byte on
    the UTF-8 encoding, which orders texts as their code points do. *)
Fixpoint text_leb (s t : pystr) : bool :=
  match s, t with
  | [], _ => true
  | _ :: _, [] => false
  | a :: s', b :: t' => (a <? b) || ((a =? b) && text_leb s' t')
  end.

Definition text_min (s t : pystr) : pystr := if text_leb s t then s else t.
Definition text_max (s t : pystr) : pystr := if text_leb s t then t else s.

(** The aggregates [MIN] and [MAX] over the values that are not NULL;
    NULL when there is none. *)
Definition sql_aggregate (f : pystr -> pystr -> pystr) (l : list pystr)
  : option pystr :=
  foldr (fun s acc => match acc with
                      | None => Some s
                      | Some m => Some (f s m)
                      end) None l.

Definition sql_min : list pystr -> option pystr := sql_aggregate text_min.
Definition sql_max : list pystr -> option pystr := sql_aggregate text_max.

(** The publish_time cells that are not NULL. *)
Definition publish_times (d : gmap string NewsRow) : list pystr :=
  omap (fun kv => publish_time kv.2) (map_to_list d).

(** [SELECT COUNT( * ) FROM news], [SELECT COUNT( * ) FROM news WHERE
    content_file_path IS NOT NULL] and [SELECT MIN(publish_time),
    MAX(publish_time) FROM news]. *)
Definition statistics_of (d : gmap string NewsRow) : Statistics :=
  {| total_count := size d;
     detailed_count :=
       size (filter (fun kv => is_Some (content_file_path kv.2)) d);
     time_range := (sql_min (publish_times d), sql_max (publish_times d)) |}.

Definition get_statistics (self : CCTVNewsCrawler) : M Statistics :=
  w <- get_world ;;
  ret (statistics_of (db w)).

(** ** The text of an article *)

(** The characters that [str.strip()] removes, those of [str.isspace]. *)
Definition py_isspace (c : N) : bool :=
  ((9 <=? c) && (c <=? 13)) || ((28 <=? c) && (c <=? 32))
  || (c =? 133) || (c =? 160) || (c =? 5760)
  || ((8192 <=? c) && (c <=? 8202))
  || (c =? 8232) || (c =? 8233) || (c =? 8239) || (c =? 8287) || (c =? 12288).

Fixpoint py_lstrip (s : pystr) : pystr :=
  match s with
  | [] => []
  | c :: s' => if py_isspace c then py_lstrip s' else s
  end.

Definition py_rstrip (s : pystr) : pystr := reverse (py_lstrip (reverse s)).

(** [s.strip()] *)
Definition py_strip (s : pystr) : pystr := py_rstrip (py_lstrip s).

(** Lines 100 to 106 of [fetch_detailed_content]: [texts] lists
    [element.get_text(strip=True)] for the elements that
    [content_area.find_all(['p', 'div'])] yields, in order; every text that
    is not empty is appended with a line feed, and the whole is stripped. *)
Definition content_text (texts : list pystr) : pystr :=
  py_strip
    (foldl (fun content_text text =>
              match text with
              | [] => content_text
              | _ :: _ => content_text ++ text ++ [10]
              end) [] texts).

(** A text without white space at its ends, as [get_text(strip=True)]
    returns it. *)
Definition stripped (t : pystr) : bool :=
  match head t, last t with
  | Some c, Some d => negb (py_isspace c) && negb (py_isspace d)
  | _, _ => true
  end.

(** A text that starts and ends with a character that is not white space. *)
Definition solid (s : pystr) : Prop :=
  (∃ c s', s = c :: s' ∧ py_isspace c = false)
  ∧ (∃ d s', s = s' ++ [d] ∧ py_isspace d = false).

(** Texts joined by single line feeds. *)
Fixpoint lines_joined (ls : list pystr) : pystr :=
  match ls with
  | [] => []
  | t :: ls' =>
      match ls' with
      | [] => t
      | _ :: _ => t ++ 10 :: lines_joined ls'
      end
  end.

Definition nonempty (t : pystr) : bool :=
  match t with [] => false | _ :: _ => true end.

(** ** The feed *)

(** JSON values as [json.loads] builds them; an object lists its members
    in the order of the text, and a key that occurs twice has the value of
    its last occurrence.  A float carries its text. *)
#[warnings="-register-all"] Inductive jval :=
| JNull
| JBool (b : bool)
| JInt (z : Z)
| JFloat (lexeme : pystr)
| JStr (s : pystr)
| JArr (elements : list jval)
| JObj (members : list (pystr * jval)).

(** What [requests.get] does: it raises, or it returns a response with its
    status code and its text. *)
Inductive http_result :=
| RequestRaises
| Response (status_code : Z) (text : pystr).

(** The feed side of the environment: [requests_get t url] is the outcome of
    the request made at tick [t]; [json_loads s] is [json.loads(s)], [None]
    when it raises. *)
Record Feed := {
  requests_get : nat -> string -> http_result;
  json_loads : pystr -> option jval
}.

(** [re.search(r'\{.*\}', s)]: the dot matches every character but the
    line feed, and the star is greedy.  [upto_last_close s] is the match of
    [.*\}] at the start of [s]: up to the last closing brace of the first
    line. *)
Fixpoint upto_last_close (s : pystr) : option pystr :=
  match s with
  | [] => None
  | c :: s' =>
      if c =? 10 then None
      else match upto_last_close s' with
           | Some m => Some (c :: m)
           | None => if c =? 125 then Some [c] else None
           end
  end.

(** The leftmost match: the first opening brace that has a closing brace
    after it on its line. *)
Fixpoint re_search_braces (s : pystr) : option pystr :=
  match s with
  | [] => None
  | c :: s' =>
      if c =? 123 then
        match upto_last_close s' with
        | Some m => Some (c :: m)
        | None => re_search_braces s'
        end
      else re_search_braces s'
  end.

Fixpoint assoc_last (key : pystr) (members : list (pystr * jval)) : option jval :=
  match members with
  | [] => None
  | (k, v) :: rest =>
      match assoc_last key rest with
      | Some v' => Some v'
      | None => if decide (k = key) then Some v else None
      end
  end.

(** [v[key]] for a string key; [None] when it raises ([KeyError] on an
    object, [TypeError] on anything else). *)
Definition subscript (v : jval) (key : string) : option jval :=
  match v with
  | JObj members => assoc_last (pystr_of_string key) members
  | _ => None
  end.

(** [parse_jsonp]: every exception is caught and turned into [[]]. *)
Definition parse_jsonp (F : Feed) (jsonp_data : pystr) : jval :=
  match re_search_braces jsonp_data with
  | None => JArr []
  | Some json_str =>
      match json_loads F json_str with
      | None => JArr []
      | Some data =>
          match subscript data "data" with
          | None => JArr []
          | Some d =>
              match subscript d "list" with
              | None => JArr []
              | Some news_list => news_list
              end
          end
      end
  end.

(** What a page is once [fetch_news_page] returns it: [[:10]] succeeds on
    a list and on a string only. *)
Inductive page :=
| PageList (l : list jval)
| PageText (s : pystr).

(** [v[:10]]; [None] when it raises. *)
Definition slice_to_10 (v : jval) : option page :=
  match v with
  | JArr l => Some (PageList (take 10 l))
  | JStr s => Some (PageText (take 10 s))
  | _ => None
  end.

Definition api_url (page_num : nat) : string :=
  "https://news.cctv.com/2019/07/gaiban/cmsdatainterface/page/world_"
  +:+ pretty page_num +:+ ".jsonp".

(** [fetch_news_page]: one request; what it prints is not recorded. *)
Definition fetch_news_page (F : Feed) (page_num : nat) : M page :=
  t <- tick ;;
  match requests_get F t (api_url page_num) with
  | RequestRaises => ret (PageList [])
  | Response status_code text =>
      if (status_code =? 200)%Z then
        match slice_to_10 (parse_jsonp F text) with
        | Some news_list => ret news_list
        | None => ret (PageList [])
        end
      else ret (PageList [])
  end.

(** Truth value of a page, and what [all_news.extend(page_news)] appends:
    the elements of a list, the characters of a string. *)
Definition page_truthy (p : page) : bool :=
  match p with
  | PageList (_ :: _) | PageText (_ :: _) => true
  | _ => false
  end.

Definition page_elements (p : page) : list jval :=
  match p with
  | PageList l => l
  | PageText s => (fun c => JStr [c]) <$> s
  end.

(** The loop of [run_crawler]; [time.sleep(0.5)] is recorded as a sleep,
    the trace does not tell durations. *)
Fixpoint collect_pages (F : Feed) (pages : list nat) (all_news : list jval)
  : M (list jval) :=
  match pages with
  | [] => ret all_news
  | page_num :: rest =>
      page_news <- fetch_news_page F page_num ;;
      _ <- sleep ;;
      collect_pages F rest
        (if page_truthy page_news then all_news ++ page_elements page_news
         else all_news)
  end.

(** The items that [save_news_to_db] can take in this model: objects whose
    fields title, brief, url, focus_date and keywords, the only ones the
    pipeline reads, are null, booleans, integers or strings when present. *)
Definition scalar (v : jval) : option pyval :=
  match v with
  | JNull => Some PNone
  | JBool b => Some (PBool b)
  | JInt z => Some (PInt z)
  | JStr s => Some (PStr s)
  | _ => None
  end.

Definition item_field (members : list (pystr * jval)) (key : string)
    (acc : option news_item_t) : option news_item_t :=
  match acc with
  | None => None
  | Some d =>
      match assoc_last (pystr_of_string key) members with
      | None => Some d
      | Some v =>
          match scalar v with
          | Some pv => Some (<[key := pv]> d)
          | None => None
          end
      end
  end.

Definition as_item (v : jval) : option news_item_t :=
  match v with
  | JObj members =>
      foldr (item_field members) (Some ∅)
        ["title"; "brief"; "url"; "focus_date"; "keywords"]%string
  | _ => None
  end.

Definition as_items (all_news : list jval) : option (list news_item_t) :=
  mapM as_item all_news.

(** What [run_crawler] has done when it returns: nothing was collected, or
    the batch was saved and the statistics were read.  [OutsideItems] marks
    the feeds this model does not follow: some collected element is not an
    object with scalar fields. *)
Inductive run_result :=
| NoNews
| Finished (new_count duplicate_count : nat) (stats : Statistics)
| OutsideItems.

(** [run_crawler]; [range(1, max_pages + 1)] is [seq 1 max_pages], and the
    first line calls [datetime.now()]. *)
Definition run_crawler (E : Env) (F : Feed) (self : CCTVNewsCrawler)
    (fetch_detailed : bool) (max_pages : nat) : M run_result :=
  _ <- tick ;;
  all_news <- collect_pages F (seq 1 max_pages) [] ;;
  match all_news with
  | [] => ret NoNews
  | _ :: _ =>
      match as_items all_news with
      | None => ret OutsideItems
      | Some news_list =>
          counts <- save_news_to_db E self news_list fetch_detailed ;;
          stats <- get_statistics self ;;
          ret (Finished counts.1 counts.2 stats)
      end
  end.

(** ** Concrete instances used to run the model *)

(** The crawler that [main] builds: [CCTVNewsCrawler()]. *)
Definition default_crawler : CCTVNewsCrawler :=
  {| db_path := "cctv_news.db"; content_base_dir := ["news"] |}.

(** [main]: [CCTVNewsCrawler()] and then
    [run_crawler(fetch_detailed=True, max_pages=7)]. *)
Definition main (E : Env) (F : Feed) : M run_result :=
  run_crawler E F default_crawler true 7.

(** A freshly initialised database and an empty working directory. *)
Definition empty_world : World :=
  {| db := ∅; dirs := ∅; files := ∅; ticks := 0; trace := [] |}.

(** The code point of the digit zero of every run of ten decimal digits
    (the characters of [str.isdecimal], which are those that [\d] matches
    and that [int] reads); the runs are those of Unicode 14. *)
Definition decimal_zeros : list N :=
  [48; 1632; 1776; 1984; 2406; 2534; 2662; 2790; 2918; 3046; 3174; 3302; 3430;
   3558; 3664; 3792; 3872; 4160; 4240; 6112; 6160; 6470; 6608; 6784; 6800;
   6992; 7088; 7232; 7248; 42528; 43216; 43264; 43472; 43504; 43600; 44016;
   65296; 66720; 68912; 69734; 69872; 69942; 70096; 70384; 70736; 70864;
   71248; 71360; 71472; 71904; 72016; 72784; 73040; 73120; 92768; 92864;
   93008; 120782; 120792; 120802; 120812; 120822; 123200; 123632; 125264;
   130032].

(** The value of a decimal digit. *)
Definition decimal_value (c : N) : option N :=
  match List.find (fun z => (z <=? c) && (c <=? z + 9)) decimal_zeros with
  | Some z => Some (c - z)
  | None => None
  end.

(** The character classes of the regular expression that [strptime] builds
    for a format: a range of ASCII digits such as [[0-2]], any decimal
    digit [\d], and the space of the day written as a space and a digit. *)
Inductive char_class :=
| Range (lo hi : N)
| Digit
| Blank.

(** What a character that a class matches contributes to the number that
    [int] reads from the matched text ([int] skips the space). *)
Definition class_value (k : char_class) (c : N) : option N :=
  match k with
  | Range lo hi => if (lo <=? c) && (c <=? hi) then Some (c - 48) else None
  | Digit => decimal_value c
  | Blank => if c =? 32 then Some 0 else None
  end.

(** A sequence of classes against the head of a text: the number read and
    the rest of the text. *)
Fixpoint match_classes (ks : list char_class) (acc : N) (s : pystr)
  : option (N * pystr) :=
  match ks with
  | [] => Some (acc, s)
  | k :: ks' =>
      match s with
      | [] => None
      | c :: s' =>
          match class_value k c with
          | Some d => match_classes ks' (10 * acc + d) s'
          | None => None
          end
      end
  end.

(** A group [(a1|a2|...)] followed by the rest of the expression [k]: the
    first alternative after which the rest matches. *)
Fixpoint group {A} (alternatives : list (list char_class))
    (k : N -> pystr -> option A) (s : pystr) : option A :=
  match alternatives with
  | [] => None
  | a :: alternatives' =>
      match match_classes a 0 s ≫= (fun '(n, rest) => k n rest) with
      | Some r => Some r
      | None => group alternatives' k s
      end
  end.

(** A literal character followed by the rest of the expression. *)
Definition literal {A} (c : N) (k : pystr -> option A) (s : pystr) : option A :=
  match s with
  | c' :: s' => if c' =? c then k s' else None
  | [] => None
  end.

(** [\s*] and [\s+] followed by the rest of the expression: the longest
    run of white space after which the rest matches. *)
Fixpoint spaces {A} (k : pystr -> option A) (s : pystr) : option A :=
  match s with
  | c :: s' =>
      if py_isspace c then
        match spaces k s' with
        | Some r => Some r
        | None => k s
        end
      else k s
  | [] => k s
  end.

Definition spaces1 {A} (k : pystr -> option A) (s : pystr) : option A :=
  match s with
  | c :: s' => if py_isspace c then spaces k s' else None
  | [] => None
  end.

(** The groups of [%Y], [%m], [%d], [%H], [%M] and [%S]:
    [\d\d\d\d], [1[0-2]|0[1-9]|[1-9]], [3[0-1]|[1-2]\d|0[1-9]|[1-9]| [1-9]],
    [2[0-3]|[0-1]\d|\d], [[0-5]\d|\d] and [6[0-1]|[0-5]\d|\d]. *)
Definition group_Y : list (list char_class) := [[Digit; Digit; Digit; Digit]].
Definition group_m : list (list char_class) :=
  [[Range 49 49; Range 48 50]; [Range 48 48; Range 49 57]; [Range 49 57]].
Definition group_d : list (list char_class) :=
  [[Range 51 51; Range 48 49]; [Range 49 50; Digit]; [Range 48 48; Range 49 57];
   [Range 49 57]; [Blank; Range 49 57]].
Definition group_H : list (list char_class) :=
  [[Range 50 50; Range 48 51]; [Range 48 49; Digit]; [Digit]].
Definition group_M : list (list char_class) := [[Range 48 53; Digit]; [Digit]].
Definition group_S : list (list char_class) :=
  [[Range 54 54; Range 48 49]; [Range 48 53; Digit]; [Digit]].

(** The match of the expression of ['%Y-%m-%d %H:%M:%S'] at the start of a
    text: the six numbers and what remains of the text. *)
Definition match_Ymd_HMS (s : pystr) : option (N * N * N * N * N * N * pystr) :=
  group group_Y (fun y => literal 45 (
  group group_m (fun m => literal 45 (
  group group_d (fun d => spaces1 (
  group group_H (fun h => literal 58 (
  group group_M (fun i => literal 58 (
  group group_S (fun sec rest => Some (y, m, d, h, i, sec, rest)))))))))))) s.

Definition days_in_month (y m : N) : N :=
  if (m =? 2) then
    if ((y mod 4 =? 0) && negb (y mod 100 =? 0)) || (y mod 400 =? 0) then 29 else 28
  else if (m =? 4) || (m =? 6) || (m =? 9) || (m =? 11) then 30
  else 31.

(** [datetime.strptime(s, '%Y-%m-%d %H:%M:%S')]: the text matches the
    expression of the format, nothing remains after the match, and the
    numbers make a date and a time that exist; [None] is [ValueError]. *)
Definition datetime_strptime (s : pystr) : option datetime :=
  match match_Ymd_HMS s with
  | Some (y, m, d, h, i, sec, []) =>
      if (1 <=? y) && (y <=? 9999) && (1 <=? m) && (m <=? 12) && (1 <=? d)
         && (d <=? days_in_month y m) && (h <=? 23) && (i <=? 59)
         && (sec <=? 59)
      then Some {| dt_year := y; dt_month := m; dt_day := d;
                   dt_hour := h; dt_minute := i; dt_second := sec |}
      else None
  | _ => None
  end.

Definition a_day : datetime :=
  {| dt_year := 2026; dt_month := 11; dt_day := 3;
     dt_hour := 9; dt_minute := 30; dt_second := 0 |}.

(** An environment where the network answers nothing and the file system
    never refuses a call. *)
Definition env_offline : Env :=
  {| strptime := datetime_strptime;
     http_detail := fun _ _ => None;
     datetime_now := fun _ => a_day;
     current_timestamp := fun _ => a_day;
     io_error := fun _ => false |}.

(** An environment where every article has the same two paragraphs. *)
Definition env_online : Env :=
  {| strptime := datetime_strptime;
     http_detail := fun _ _ =>
       Some (pystr_of_string "Paragraph one." ++ [10] ++ pystr_of_string "Paragraph two.");
     datetime_now := fun _ => a_day;
     current_timestamp := fun _ => a_day;
     io_error := fun _ => false |}.

(** As [env_online], on a disk that refuses every call. *)
Definition env_disk_error : Env :=
  {| strptime := datetime_strptime;
     http_detail := http_detail env_online;
     datetime_now := fun _ => a_day;
     current_timestamp := fun _ => a_day;
     io_error := fun _ => true |}.

(** As [env_online], on a disk that creates directories and then refuses
    to open the content file (the sixth external call of a run on one
    item). *)
Definition env_write_error : Env :=
  {| strptime := datetime_strptime;
     http_detail := http_detail env_online;
     datetime_now := fun _ => a_day;
     current_timestamp := fun _ => a_day;
     io_error := fun t => (5 <=? t)%nat |}.

Definition str (s : string) : pyval := PStr (pystr_of_string s).

(** A working directory where [news] is a regular file, and one where
    [news] is a directory in which [2024] is a regular file. *)
Definition world_news_is_file : World :=
  {| db := ∅; dirs := ∅; files := {[ ["news"%string] := [] ]};
     ticks := 0; trace := [] |}.

Definition world_2024_is_file : World :=
  {| db := ∅; dirs := {[ ["news"%string] ]};
     files := {[ ["news"%string; "2024"%string] := [] ]};
     ticks := 0; trace := [] |}.

(** The feed item of the scenarios. *)
Definition item_AB : news_item_t :=
  <["title" := str "A"]> (<["brief" := str "B"]>
  (<["focus_date" := str "2024-01-01 10:00:00"]> (<["url" := str "http://x/1"]> ∅))).

(** The date of [item_AB]. *)
Definition a_day_of_item_AB : datetime :=
  {| dt_year := 2024; dt_month := 1; dt_day := 1;
     dt_hour := 10; dt_minute := 0; dt_second := 0 |}.

(** The same title and brief cut at another place, with other fields. *)
Definition item_AB_joined : news_item_t :=
  <["title" := str "AB"]> (<["brief" := PStr []]>
  (<["focus_date" := str "2025-06-30 08:00:00"]> (<["url" := str "http://y/2"]> ∅))).

(** An item whose brief is JSON null, and one without a title. *)
Definition item_null_brief : news_item_t := <["brief" := PNone]> item_AB.

Definition item_no_title : news_item_t := delete "title" item_AB.

Definition hash_AB : string := "b86fc6b051f63d73de262d4c34e3a0a9".

(** The row of [item_AB] once its content file is attached. *)
Definition row_AB_detailed : NewsRow :=
  {| title := pystr_of_string "A";
     summary := pystr_of_string "B";
     publish_time := Some (pystr_of_string "2024-01-01 10:00:00");
     keywords := Some [];
     crawl_time := a_day;
     content_file_path := Some ["2024"; "01"; "01"; hash_AB +:+ ".txt"]%string |}.

(** The world after [item_AB] has been processed once with detail. *)
Definition world_with_detail : World :=
  (save_news_to_db env_online default_crawler [item_AB] true empty_world).2.


(** A feed that is down: every request raises. *)
Definition feed_down : Feed :=
  {| requests_get := fun _ _ => RequestRaises; json_loads := fun _ => None |}.

(** The text of a JSON string without escapes. *)
Definition json_string (s : string) : pystr := [34] ++ pystr_of_string s ++ [34].

(** The object of a page with one item, [item_AB], on one line, and the
    value that [json.loads] builds from it. *)
Definition page_object_text : pystr :=
  pystr_of_string "{" ++ json_string "data" ++ pystr_of_string ":{"
  ++ json_string "list" ++ pystr_of_string ":[{"
  ++ json_string "title" ++ pystr_of_string ":" ++ json_string "A"
  ++ pystr_of_string "," ++ json_string "brief" ++ pystr_of_string ":"
  ++ json_string "B" ++ pystr_of_string ","
  ++ json_string "focus_date" ++ pystr_of_string ":"
  ++ json_string "2024-01-01 10:00:00" ++ pystr_of_string ","
  ++ json_string "url" ++ pystr_of_string ":" ++ json_string "http://x/1"
  ++ pystr_of_string "}]}}".

Definition page_object : jval :=
  JObj [(pystr_of_string "data",
         JObj [(pystr_of_string "list",
                JArr [JObj [(pystr_of_string "title", JStr (pystr_of_string "A"));
                            (pystr_of_string "brief", JStr (pystr_of_string "B"));
                            (pystr_of_string "focus_date",
                             JStr (pystr_of_string "2024-01-01 10:00:00"));
                            (pystr_of_string "url",
                             JStr (pystr_of_string "http://x/1"))]])])].

(** A feed whose first page answers with that object wrapped in a callback
    and whose other pages do not exist. *)
Definition feed_one_page : Feed :=
  {| requests_get := fun _ url =>
       if String.eqb url (api_url 1)
       then Response 200 (pystr_of_string "cb(" ++ page_object_text
                          ++ pystr_of_string ");")
       else Response 404 [];
     json_loads := fun s =>
       if bool_decide (s = page_object_text) then Some page_object else None |}.

(** A viewer opened on the database and the base directory of
    [default_crawler]. *)
Definition viewer_of_default_crawler : Viewer.NewsViewer :=
  {| Viewer.db_path := "cctv_news.db"; Viewer.content_base_dir := ["news"] |}.

(** ** Predicates on the table *)

(** Every path the table holds is a non-empty text: a cell is NULL or true. *)
Definition stored_paths_ok (d : gmap string NewsRow) : Prop :=
  map_Forall (fun _ row => content_file_path row = None
                           ∨ path_truthy (content_file_path row) = true) d.

(** An item whose row is in the table and, when detail is asked for, has its
    content file attached. *)
Definition fully_processed (fetch_detailed : bool) (d : gmap string NewsRow)
    (news_item : news_item_t) : bool :=
  match get_content_hash news_item with
  | Ok h =>
      match d !! h with
      | Some row => if fetch_detailed then path_truthy (content_file_path row) else true
      | None => false
      end
  | Raise _ => false
  end.

(** An item whose row the INSERT accepts: the four columns are there, every
    value can be bound, and title and summary are not NULL. *)
Definition bindable (v : pyval) : bool :=
  match bind_error v with None => true | Some _ => false end.

Definition not_null (v : pyval) : bool :=
  match v with PNone => false | _ => true end.

Definition insertable (news_item : news_item_t) : bool :=
  match news_item !! "title", news_item !! "brief", news_item !! "focus_date" with
  | Some v_title, Some v_brief, Some v_focus_date =>
      bindable v_title && bindable v_brief && bindable v_focus_date
      && bindable (default (PStr []) (news_item !! "keywords"))
      && not_null v_title && not_null v_brief
  | _, _, _ => false
  end.

(** How a row may change: not at all, or by a backfill that attaches a
    content file to a row that had none. *)
Definition row_step (row row' : NewsRow) : Prop :=
  row' = row
  ∨ (path_truthy (content_file_path row) = false
     ∧ ∃ file_path now, path_truthy file_path = true
         ∧ row' = with_content_file_path row file_path now).

(** Rows are never deleted and change only by [row_step]. *)
Definition evolves (d d' : gmap string NewsRow) : Prop :=
  ∀ h row, d !! h = Some row -> ∃ row', d' !! h = Some row' ∧ row_step row row'.

(** ** Predicates on the file system *)

(** From the instant of [w] on, the operating system refuses no call. *)
Definition disk_ok (E : Env) (w : World) : Prop :=
  ∀ t, (ticks w <= t)%nat -> io_error E t = false.

(** No regular file sits at a level of the directory path [p]. *)
Definition unobstructed (w : World) (p : path) : Prop :=
  ∀ k, files w !! take k p = None.

(** Every level of the directory path [p] is a directory. *)
Definition all_levels_exist (w : World) (p : path) : Prop :=
  ∀ k, is_dir w (take k p) = true.

(** No path is both a directory and a regular file, and the working
    directory is not a file. *)
Definition fs_wellformed (w : World) : Prop :=
  files w !! [] = None ∧ ∀ p, p ∈ dirs w -> files w !! p = None.

(** ** Predicates on the trace *)

(** The events tell that a detail fetch came back empty-handed or that
    writing the content file failed. *)
Definition detail_failure (ev : event) : bool :=
  match ev with
  | EvFetch _ answer => negb (py_truthy answer)
  | EvPrint (MsgSaveContentFailed _) => true
  | _ => false
  end.

Definition detail_failed (evs : list event) : bool := existsb detail_failure evs.

(** The three kinds of events that are counted: calls of
    [fetch_detailed_content], pacing sleeps, and the log line of a row that
    could not be written. *)
Definition is_fetch (ev : event) : bool :=
  match ev with EvFetch _ _ => true | _ => false end.

Definition is_sleep (ev : event) : bool :=
  match ev with EvSleep => true | _ => false end.

Definition is_save_failure (ev : event) : bool :=
  match ev with EvPrint (MsgSaveNewsFailed _ _) => true | _ => false end.

Fixpoint count (f : event -> bool) (evs : list event) : nat :=
  match evs with
  | [] => 0%nat
  | ev :: evs' => ((if f ev then 1 else 0) + count f evs')%nat
  end.

(** ** Predicates on the content store *)

(** The cell of the row of identity [h] is attached: when it holds a path,
    this is a path that [get_content_file_path] builds for [h], and the
    file at that path under the base directory holds a non-empty text. *)
Definition attached (self : CCTVNewsCrawler) (w : World) (h : string)
    (row : NewsRow) : Prop :=
  ∀ p, content_file_path row = Some p ->
    (∃ dt, p = content_file dt h)
    ∧ ∃ text, files w !! (content_base_dir self ++ p) = Some text ∧ text ≠ [].

(** Table and content files agree. *)
Definition store_consistent (self : CCTVNewsCrawler) (w : World) : Prop :=
  map_Forall (attached self w) (db w).

(** What a run may do to the store: directories, files and rows are only
    added, and a row that holds a path keeps its cells and its file. *)
Definition store_grows (self : CCTVNewsCrawler) (w w' : World) : Prop :=
  dirs w ⊆ dirs w' ∧ (ticks w <= ticks w')%nat
  ∧ (∀ q, is_Some (files w !! q) -> is_Some (files w' !! q))
  ∧ (∀ h, is_Some (db w !! h) -> is_Some (db w' !! h))
  ∧ ∀ h row p, db w !! h = Some row -> content_file_path row = Some p ->
      db w' !! h = Some row
      ∧ files w' !! (content_base_dir self ++ p)
        = files w !! (content_base_dir self ++ p).


(** ** Frames *)

(** A run relates its final world to its initial one as [P] says. *)
Definition keeps {A} (P : World -> World -> Prop) (m : M A) : Prop :=
  ∀ w r w', m w = (r, w') -> P w w'.

(** Three frames: file system calls leave the table and the trace alone
    ([quiet]); writing a file leaves the directories alone ([same_dirs]);
    everything before the row is written leaves the table alone
    ([same_db]). *)
Definition quiet (w w' : World) : Prop := db w' = db w ∧ trace w' = trace w.
Definition same_dirs (w w' : World) : Prop := dirs w' = dirs w.
Definition same_db (w w' : World) : Prop := db w' = db w.

(** File system calls only add directories and let time pass. *)
Definition fs_grows (w w' : World) : Prop :=
  dirs w ⊆ dirs w' ∧ files w' = files w ∧ (ticks w <= ticks w')%nat.

(** A run keeps the file system well formed. *)
Definition preserves_fs (w w' : World) : Prop := fs_wellformed w -> fs_wellformed w'.

(** * Properties *)

(** ** Test vectors *)

Example md5_empty : MD5.hexdigest [] = "d41d8cd98f00b204e9800998ecf8427e"%string.
Proof. vm_compute. reflexivity. Qed.

Example md5_abc :
  MD5.hexdigest (pystr_of_string "abc") = "900150983cd24fb0d6963f7d28e17f72"%string.
Proof. vm_compute. reflexivity. Qed.

Example md5_two_blocks :
  MD5.hexdigest (repeat 97 119) = "8a7bd0732ed6a28ce75f6dabc90e1613"%string.
Proof. vm_compute. reflexivity. Qed.

Example utf8_md5_cjk :
  MD5.hexdigest <$> Utf8.encode [0x4e2d; 0x6587; 0x6807; 0x9898]
  = Some "3b070e5add0bec40af2327543c048a21"%string.
Proof. vm_compute. reflexivity. Qed.

Example surrogate_not_encodable : Utf8.encode [0x41; 0xD800] = None.
Proof. reflexivity. Qed.

(** ** The identity hash *)

Lemma le_bytes_length n w : length (MD5.le_bytes n w) = n.
Proof. unfold MD5.le_bytes. by rewrite length_map, length_seq. Qed.

Lemma digest_length msg : length (MD5.digest msg) = 16%nat.
Proof.
  unfold MD5.digest. destruct (MD5.digest_state msg) as [[[a b] c] d].
  rewrite !length_app, !le_bytes_length. reflexivity.
Qed.

Lemma hexdigest_length msg : String.length (MD5.hexdigest msg) = 32%nat.
Proof.
  unfold MD5.hexdigest, MD5.digest.
  destruct (MD5.digest_state msg) as [[[a b] c] d]. reflexivity.
Qed.

Lemma utf8_encode_app s1 s2 :
  Utf8.encode (s1 ++ s2)
  = match Utf8.encode s1, Utf8.encode s2 with
    | Some b1, Some b2 => Some (b1 ++ b2)
    | _, _ => None
    end.
Proof.
  induction s1 as [|c s1 IH]; simpl.
  - by destruct (Utf8.encode s2).
  - rewrite IH. destruct (Utf8.encode_cp c), (Utf8.encode s1), (Utf8.encode s2);
      try reflexivity. by rewrite app_assoc.
Qed.

(** C6: the identity is the MD5 hex digest (16 bytes, 32 hex digits) of the
    UTF-8 encoding of title followed by brief with nothing in between; it
    depends on nothing else in the item, so two items whose title+brief
    concatenations are equal get the same identity. *)
Theorem get_content_hash_identity (item1 item2 : news_item_t) (t1 b1 t2 b2 : pyval) :
  item1 !! "title" = Some t1 -> item1 !! "brief" = Some b1 ->
  item2 !! "title" = Some t2 -> item2 !! "brief" = Some b2 ->
  py_format t1 ++ py_format b1 = py_format t2 ++ py_format b2 ->
  get_content_hash item1
  = match Utf8.encode (py_format t1), Utf8.encode (py_format b1) with
    | Some bt, Some bb => Ok (MD5.hexdigest (bt ++ bb))
    | _, _ => Raise UnicodeEncodeError
    end
  ∧ get_content_hash item2 = get_content_hash item1
  ∧ ∀ h, get_content_hash item1 = Ok h ->
      String.length h = 32%nat
      ∧ ∃ content, Utf8.encode (py_format t1 ++ py_format b1) = Some content
                   ∧ h = MD5.hexdigest content
                   ∧ length (MD5.digest content) = 16%nat.
Proof.
  intros Ht1 Hb1 Ht2 Hb2 Heq. unfold get_content_hash.
  rewrite Ht1, Hb1, Ht2, Hb2, <- Heq. split; [|split].
  - rewrite utf8_encode_app.
    by destruct (Utf8.encode (py_format t1)), (Utf8.encode (py_format b1)).
  - reflexivity.
  - intros h Hh. destruct (Utf8.encode (py_format t1 ++ py_format b1)) as [content|];
      [|discriminate].
    injection Hh as <-. split; [apply hexdigest_length|].
    exists content. split; [reflexivity|]. split; [reflexivity|apply digest_length].
Qed.

(** ** Reasoning about monadic code *)

Lemma bind_inv {A B} (m : M A) (k : A -> M B) w r w' :
  bind m k w = (r, w') ->
  (∃ a w1, m w = (Ok a, w1) ∧ k a w1 = (r, w'))
  ∨ (∃ e, m w = (Raise e, w') ∧ r = Raise e).
Proof.
  unfold bind. destruct (m w) as [[a|e] w1]; intros H.
  - left. eauto.
  - right. injection H as <- <-. eauto.
Qed.

Lemma try_except_inv {A} (m : M A) (h : exn -> M A) w r w' :
  try_except m h w = (r, w') ->
  (∃ a, m w = (Ok a, w') ∧ r = Ok a)
  ∨ (∃ e w1, m w = (Raise e, w1) ∧ h e w1 = (r, w')).
Proof.
  unfold try_except. destruct (m w) as [[a|e] w1]; intros H.
  - left. injection H as <- <-. eauto.
  - right. eauto.
Qed.

Lemma bind_ok {A B} (m : M A) (k : A -> M B) w a w1 :
  m w = (Ok a, w1) -> bind m k w = k a w1.
Proof. unfold bind. by intros ->. Qed.

Lemma bind_raise {A B} (m : M A) (k : A -> M B) w e w1 :
  m w = (Raise e, w1) -> bind m k w = (Raise e, w1).
Proof. unfold bind. by intros ->. Qed.

Lemma world_eta w :
  {| db := db w; dirs := dirs w; files := files w;
     ticks := ticks w; trace := trace w |} = w.
Proof. by destruct w. Qed.

(** Splits a hypothesis about a run into the runs of its parts. *)
Ltac minv :=
  repeat match goal with
  | H : ret _ _ = _ |- _ => unfold ret in H
  | H : raise _ _ = _ |- _ => unfold raise in H
  | H : lift _ _ = _ |- _ => unfold lift in H
  | H : get_world _ = _ |- _ => unfold get_world in H
  | H : tick _ = _ |- _ => unfold tick in H
  | H : print _ _ = _ |- _ => unfold print in H
  | H : sleep _ = _ |- _ => unfold sleep in H
  | H : emit _ _ = _ |- _ => unfold emit in H
  | H : set_db _ _ = _ |- _ => unfold set_db in H
  | H : set_dirs _ _ = _ |- _ => unfold set_dirs in H
  | H : set_files _ _ = _ |- _ => unfold set_files in H
  | H : getitem _ _ _ = _ |- _ => unfold getitem in H
  | H : (_, _) = (_, _) |- _ => injection H as ? ?
  | H : (_, _) = (_, _) |- _ => injection H as ?
  | H : Ok _ = Ok _ |- _ => injection H as ?
  | H : Ok _ = Raise _ |- _ => discriminate H
  | H : Raise _ = Ok _ |- _ => discriminate H
  | H : Raise _ = Raise _ |- _ => injection H as ?
  | H : ?x = ?y |- _ => is_var x; subst x
  | H : ?y = ?x |- _ => is_var x; subst x
  | u : unit |- _ => destruct u
  | _ => progress (cbv beta in *)
  | H : (if ?b then _ else _) _ = (_, _) |- _ => destruct b eqn:?
  | H : (match ?x with _ => _ end) _ = (_, _) |- _ => destruct x eqn:?
  | H : bind _ _ _ = _ |- _ =>
      apply bind_inv in H; destruct H as [(? & ? & ? & ?)|(? & ? & ?)]
  | H : try_except _ _ _ = _ |- _ =>
      apply try_except_inv in H; destruct H as [(? & ? & ?)|(? & ? & ? & ?)]
  end.


Section Keeps.
Context (P : World -> World -> Prop) `{!Reflexive P, !Transitive P}.

Lemma keeps_ret {A} (a : A) : keeps P (ret a).
Proof. intros w r w' H. minv. reflexivity. Qed.

Lemma keeps_raise {A} e : keeps P (@raise A e).
Proof. intros w r w' H. minv. reflexivity. Qed.

Lemma keeps_lift {A} (x : result A) : keeps P (lift x).
Proof. intros w r w' H. minv. reflexivity. Qed.

Lemma keeps_get_world : keeps P get_world.
Proof. intros w r w' H. minv. reflexivity. Qed.

Lemma keeps_getitem d key : keeps P (getitem d key).
Proof. intros w r w' H. minv; reflexivity. Qed.

Lemma keeps_bind {A B} (m : M A) (k : A -> M B) :
  keeps P m -> (∀ a, keeps P (k a)) -> keeps P (bind m k).
Proof.
  intros Hm Hk w r w' H. minv.
  - etransitivity; [by eapply Hm|by eapply Hk].
  - by eapply Hm.
Qed.

Lemma keeps_try_except {A} (m : M A) h :
  keeps P m -> (∀ e, keeps P (h e)) -> keeps P (try_except m h).
Proof.
  intros Hm Hh w r w' H. minv.
  - by eapply Hm.
  - etransitivity; [by eapply Hm|by eapply Hh].
Qed.

Lemma keeps_if {A} (b : bool) (m1 m2 : M A) :
  keeps P m1 -> keeps P m2 -> keeps P (if b then m1 else m2).
Proof. by destruct b. Qed.

End Keeps.

Create HintDb keeps.
#[export] Hint Resolve keeps_ret keeps_raise keeps_lift keeps_get_world
  keeps_getitem keeps_bind keeps_try_except keeps_if : keeps.


#[export] Instance quiet_refl : Reflexive quiet.
Proof. by split. Qed.
#[export] Instance quiet_trans : Transitive quiet.
Proof. intros x y z [? ?] [? ?]. split; congruence. Qed.
#[export] Instance same_dirs_refl : Reflexive same_dirs.
Proof. by intros x. Qed.
#[export] Instance same_dirs_trans : Transitive same_dirs.
Proof. unfold same_dirs. intros x y z ? ?. congruence. Qed.
#[export] Instance same_db_refl : Reflexive same_db.
Proof. by intros x. Qed.
#[export] Instance same_db_trans : Transitive same_db.
Proof. unfold same_db. intros x y z ? ?. congruence. Qed.

Ltac keeps_prim := intros w r w' H; minv; done.

Ltac keeps_tac :=
  repeat first
    [ match goal with
      | |- Reflexive _ => apply _
      | |- Transitive _ => apply _
      | |- ∀ _, _ => intros ?
      end
    | progress eauto with keeps typeclass_instances
    | apply keeps_bind
    | apply keeps_try_except
    | match goal with
      | |- keeps _ (if ?b then _ else _) => destruct b
      | |- keeps _ (match ?x with _ => _ end) => destruct x
      end ].

Lemma quiet_tick : keeps quiet tick.
Proof. keeps_prim. Qed.
Lemma quiet_set_dirs d : keeps quiet (set_dirs d).
Proof. keeps_prim. Qed.
Lemma quiet_set_files f : keeps quiet (set_files f).
Proof. keeps_prim. Qed.
Lemma same_dirs_tick : keeps same_dirs tick.
Proof. keeps_prim. Qed.
Lemma same_dirs_set_files f : keeps same_dirs (set_files f).
Proof. keeps_prim. Qed.
Lemma same_dirs_emit ev : keeps same_dirs (emit ev).
Proof. keeps_prim. Qed.
Lemma same_db_tick : keeps same_db tick.
Proof. keeps_prim. Qed.
Lemma same_db_emit ev : keeps same_db (emit ev).
Proof. keeps_prim. Qed.
Lemma same_db_quiet {A} (m : M A) : keeps quiet m -> keeps same_db m.
Proof. intros Hm w r w' H. by destruct (Hm _ _ _ H). Qed.

#[export] Hint Resolve quiet_tick quiet_set_dirs quiet_set_files same_dirs_tick
  same_dirs_set_files same_dirs_emit same_db_tick same_db_emit : keeps.

Section Crawler.
Context (E : Env) (self : CCTVNewsCrawler).

Lemma quiet_os_mkdir p : keeps quiet (os_mkdir E p).
Proof. unfold os_mkdir. keeps_tac. Qed.

Lemma quiet_makedirs_from done todo : keeps quiet (makedirs_from E done todo).
Proof.
  revert done. induction todo as [|c todo IH]; intros done; simpl.
  - keeps_tac.
  - pose proof (quiet_os_mkdir (done ++ [c])). keeps_tac.
Qed.

Lemma quiet_os_makedirs p : keeps quiet (os_makedirs E p).
Proof. apply quiet_makedirs_from. Qed.

Lemma quiet_write_text_file p text : keeps quiet (write_text_file E p text).
Proof. unfold write_text_file. keeps_tac. Qed.

Lemma same_dirs_write_text_file p text : keeps same_dirs (write_text_file E p text).
Proof. unfold write_text_file. keeps_tac. Qed.

Lemma quiet_get_content_file_path h pt : keeps quiet (get_content_file_path E self h pt).
Proof.
  unfold get_content_file_path, parse_publish_time.
  pose proof quiet_os_makedirs. keeps_tac.
Qed.

Lemma same_dirs_save_detailed_content p d :
  keeps same_dirs (save_detailed_content E self p d).
Proof.
  unfold save_detailed_content, print.
  pose proof same_dirs_write_text_file. keeps_tac.
Qed.

Lemma same_db_save_detailed_content p d :
  keeps same_db (save_detailed_content E self p d).
Proof.
  unfold save_detailed_content, print.
  pose proof (fun p t => same_db_quiet _ (quiet_write_text_file p t)). keeps_tac.
Qed.

Lemma same_db_detail_phase fd item h existing :
  keeps same_db (detail_phase E self fd item h existing).
Proof.
  unfold detail_phase, fetch_detailed_content, slice_to_30, print, sleep.
  pose proof same_db_save_detailed_content.
  pose proof (fun h p => same_db_quiet _ (quiet_get_content_file_path h p)).
  keeps_tac.
Qed.

(** ** Items that are already in the table *)

Lemma andb_negb_same b : b && negb b = false.
Proof. by destruct b. Qed.

(** An item whose row exists and needs no detail is a duplicate: the world
    is left exactly as it was. *)
Lemma process_item_duplicate fd counts item w h row :
  get_content_hash item = Ok h ->
  db w !! h = Some row ->
  fd = false ∨ path_truthy (content_file_path row) = true ->
  process_item E self fd counts item w = (Ok (counts.1, S counts.2), w).
Proof.
  intros Hh Hrow Hno.
  unfold process_item, select_content_file_path.
  unfold bind at 1. unfold lift. rewrite Hh.
  unfold bind at 1. unfold bind at 1. unfold get_world, ret at 1. rewrite Hrow. simpl.
  assert (detail_phase E self fd item h (Some (content_file_path row)) w
          = (Ok (content_file_path row), w)) as Hd.
  { unfold detail_phase. simpl.
    destruct Hno as [-> | ->]; [reflexivity|]. by rewrite andb_false_r. }
  unfold bind. rewrite Hd.
  unfold persist, try_except, write_row. by rewrite andb_negb_same.
Qed.

Lemma process_batch_duplicates fd batch counts w :
  forallb (fully_processed fd (db w)) batch = true ->
  process_batch E self fd batch counts w
  = (Ok (counts.1, (counts.2 + length batch)%nat), w).
Proof.
  revert counts. induction batch as [|item batch IH]; intros [n d] Hall; simpl.
  - unfold ret. by rewrite Nat.add_0_r.
  - simpl in Hall. apply andb_prop in Hall as [Hitem Hall].
    unfold fully_processed in Hitem.
    destruct (get_content_hash item) as [h|] eqn:Hh; [|discriminate].
    destruct (db w !! h) as [row|] eqn:Hrow; [|discriminate].
    erewrite bind_ok; last first.
    { eapply process_item_duplicate; [done..|]. destruct fd; auto. }
    rewrite IH by done. simpl. do 3 f_equal. lia.
Qed.

(** C1: a second run over a batch that the first run has fully processed
    (every item has its row and, when detail is asked for, its content
    file) inserts nothing, changes no row, and counts every item as a
    duplicate; the table, and indeed the whole world, is as the first run
    left it. *)
Theorem save_news_to_db_idempotent batch fd w0 counts1 w1 :
  save_news_to_db E self batch fd w0 = (Ok counts1, w1) ->
  forallb (fully_processed fd (db w1)) batch = true ->
  save_news_to_db E self batch fd w1 = (Ok (0%nat, length batch), w1).
Proof.
  intros _ Hall. unfold save_news_to_db.
  by rewrite process_batch_duplicates.
Qed.

(** C2: an item whose identity already has a content file in the table is
    handled without calling [fetch_detailed_content], whatever the flag:
    it is counted as a duplicate and the world, hence the trace of
    fetches, is unchanged. *)
Theorem no_refetch_once_attached fd counts item w h row p :
  stored_paths_ok (db w) ->
  get_content_hash item = Ok h ->
  db w !! h = Some row ->
  content_file_path row = Some p ->
  process_item E self fd counts item w = (Ok (counts.1, S counts.2), w)
  ∧ ∀ r w', process_item E self fd counts item w = (r, w') ->
      trace w' = trace w ∧ ticks w' = ticks w.
Proof.
  intros Hok Hh Hrow Hp.
  assert (process_item E self fd counts item w = (Ok (counts.1, S counts.2), w)) as Hrun.
  { eapply process_item_duplicate; [done..|]. right.
    destruct (Hok _ _ Hrow) as [Hnone|Htrue]; [congruence|done]. }
  split; [done|]. intros r w' H. rewrite Hrun in H. by simplify_eq.
Qed.

(** ** What one iteration does *)

Lemma content_file_truthy dt h : path_truthy (Some (content_file dt h)) = true.
Proof.
  unfold path_truthy, content_file, partition, path_str. simpl.
  by destruct (strftime_Y dt).
Qed.

Lemma get_content_file_path_outcome h pt w r w1 :
  get_content_file_path E self h pt w = (r, w1) ->
  quiet w w1 ∧ ∀ p, r = Ok p -> ∃ dt, p = content_file dt h.
Proof.
  intros H. split; [by eapply quiet_get_content_file_path|].
  intros p ->. unfold get_content_file_path in H. minv; eauto.
Qed.

Lemma save_detailed_content_outcome p d w r w1 :
  save_detailed_content E self p d w = (r, w1) ->
  db w1 = db w
  ∧ ((r = Ok true ∧ trace w1 = trace w)
     ∨ (r = Ok false
        ∧ ∃ e, trace w1 = EvPrint (MsgSaveContentFailed e) :: trace w)
     ∨ (r = Ok false ∧ py_truthy d = false ∧ w1 = w)).
Proof.
  intros H. split; [by eapply same_db_save_detailed_content|].
  unfold save_detailed_content in H.
  destruct d as [[|c s]|]; [by minv; auto| |by minv; auto].
  apply try_except_inv in H as [(a & H & ->)|(e & w2 & H & Hh)].
  - apply bind_inv in H as [(? & w2 & H & Hr)|(e & H & ?)]; [|done].
    destruct (quiet_write_text_file _ _ _ _ _ H) as [_ Htr].
    minv. auto.
  - apply bind_inv in H as [(? & w3 & H & Hr)|(e' & H & ?)]; [by minv|].
    destruct (quiet_write_text_file _ _ _ _ _ H) as [_ Htr].
    minv. right. left. split; [done|]. exists e'. by rewrite Htr.
Qed.

Lemma detail_phase_outcome fd item h existing w r w1 :
  detail_phase E self fd item h existing w = (r, w1) ->
  db w1 = db w
  ∧ ∃ evs, trace w1 = evs ++ trace w
    ∧ match r with
      | Raise _ => detail_failed evs = false
      | Ok cell =>
          if detail_failed evs then cell = None
          else (w1 = w ∧ cell = existing ≫= id)
               ∨ (fd = true ∧ path_truthy (existing ≫= id) = false
                  ∧ ∃ dt, cell = Some (content_file dt h))
      end.
Proof.
  intros H. split; [by eapply same_db_detail_phase|].
  unfold detail_phase in H.
  destruct (fd && _) eqn:Hcond.
  - apply andb_prop in Hcond as [-> Hcond].
    assert (path_truthy (existing ≫= id) = false) as Hex.
    { destruct existing as [cell|]; [|done]. simpl in *.
      by destruct (path_truthy cell). }
    unfold fetch_detailed_content, slice_to_30 in H.
    minv.
    all: try (match goal with
         | H : get_content_file_path _ _ _ _ _ = _ |- _ =>
             apply get_content_file_path_outcome in H as [[_ ?] ?]
         end).
    all: try (match goal with
         | H : save_detailed_content _ _ _ _ _ = _ |- _ =>
             apply save_detailed_content_outcome in H as (_ & ?)
         end).
    all: simpl in *; destruct_or?; destruct_and?; simplify_eq;
      repeat match goal with
      | H : ∃ _, _ |- _ => destruct H
      | H : trace _ = _ |- _ => rewrite H
      end; simpl.
    all: try (first [ exists nil; split; [reflexivity|]
               | eexists [_]; split; [reflexivity|]
               | eexists [_; _]; split; [reflexivity|]
               | eexists [_; _; _]; split; [reflexivity|]
               | eexists [_; _; _; _]; split; [reflexivity|] ]).
    all: unfold detail_failed; simpl;
      repeat match goal with
      | H : py_truthy _ = _ |- _ => rewrite H
      end; simpl; try done.
    right. split; [done|]. split; [done|].
    match goal with H : ∀ p, Ok _ = Ok p -> _ |- _ =>
      destruct (H _ eq_refl) as [dt ->] end.
    by exists dt.
  - destruct existing; minv; exists nil; (split; [done|]); simpl; by left.
Qed.

Lemma sqlite_bind_inv v w r w' :
  sqlite_bind v w = (r, w') ->
  w' = w ∧ ((r = Ok tt ∧ bindable v = true) ∨ (∃ e, r = Raise e ∧ bindable v = false)).
Proof.
  unfold sqlite_bind, bindable. intros H.
  destruct (bind_error v); minv; eauto.
Qed.

Lemma sqlite_text_not_null v : sqlite_text v = None -> not_null v = false.
Proof. by destruct v. Qed.

Lemma sqlite_text_is_Some v t : sqlite_text v = Some t -> not_null v = true.
Proof. by destruct v. Qed.

Lemma insert_news_outcome h vt vs vp vk cfp w r w' :
  insert_news E h vt vs vp vk cfp w = (r, w') ->
  (∃ e, r = Raise e ∧ w' = w
        ∧ (is_Some (db w !! h)
           ∨ bindable vt && bindable vs && bindable vp && bindable vk
             && not_null vt && not_null vs = false))
  ∨ (r = Ok tt ∧ db w !! h = None
     ∧ ∃ row, content_file_path row = cfp ∧ keywords row = sqlite_text vk
       ∧ dirs w' = dirs w ∧ files w' = files w ∧ ticks w' = ticks w
       ∧ trace w' = trace w ∧ db w' = <[h := row]> (db w)).
Proof.
  unfold insert_news. intros H. minv.
  all: repeat match goal with
       | H : sqlite_bind _ _ = _ |- _ =>
           apply sqlite_bind_inv in H as [? [[? ?]|(? & ? & ?)]]
       end; simplify_eq; simpl in *.
  all: try match goal with
       | H : db ?w !! ?h = None |- _ = Ok () ∧ _ ∨ _ => idtac
       | |- _ => left; eexists; do 2 (split; [done|])
       end.
  all: try (left; by eauto).
  all: try (right;
       repeat match goal with
       | H : bindable _ = _ |- _ => rewrite H
       | H : sqlite_text _ = None |- _ => rewrite (sqlite_text_not_null _ H)
       end;
       repeat match goal with
       | |- context [bindable ?v] => destruct (bindable v)
       | |- context [not_null ?v] => destruct (not_null v)
       end; done).
  right. do 2 (split; [done|]).
  eexists (Build_NewsRow _ _ _ _ _ _). by repeat split.
Qed.

(** What writing the row does, case by case: backfill, duplicate, insert,
    or an insert that raised and was logged. *)
Lemma persist_outcome item h cfp counts w r w' :
  is_Some (item !! "title") ->
  persist E item h (content_file_path <$> db w !! h) cfp counts w = (r, w') ->
  dirs w' = dirs w ∧ files w' = files w ∧ ticks w' = ticks w
  ∧ ((∃ row, db w !! h = Some row
        ∧ path_truthy cfp = true ∧ path_truthy (content_file_path row) = false
        ∧ r = Ok (S counts.1, counts.2) ∧ trace w' = trace w
        ∧ db w' = <[h := with_content_file_path row cfp
                            (current_timestamp E (ticks w))]> (db w))
     ∨ (∃ row, db w !! h = Some row
        ∧ r = Ok (counts.1, S counts.2) ∧ w' = w)
     ∨ (db w !! h = None
        ∧ ∃ row, content_file_path row = cfp
        ∧ keywords row = sqlite_text (default (PStr []) (item !! "keywords"))
        ∧ r = Ok (S counts.1, counts.2) ∧ trace w' = trace w
        ∧ db w' = <[h := row]> (db w))
     ∨ (db w !! h = None ∧ insertable item = false
        ∧ ∃ vt e, item !! "title" = Some vt
        ∧ r = Ok counts ∧ db w' = db w
        ∧ trace w' = EvPrint (MsgSaveNewsFailed vt e) :: trace w)).
Proof.
  intros [vt Hvt] H.
  unfold persist, write_row, update_content_file_path in H.
  destruct (db w !! h) as [row|] eqn:Hrow; simpl in H.
  - minv; simpl in *; simplify_eq; (split; [done|]); (split; [done|]); (split; [done|]).
    + apply andb_prop in Heqb as [? ?%negb_true_iff]. left. eauto 10.
    + right. left. eauto.
  - minv.
    all: try match goal with
         | H : insert_news _ _ _ _ _ _ _ _ = _ |- _ =>
             apply insert_news_outcome in H
               as [(? & ? & ? & [[? ?]|?])|(? & ? & ? & ? & ? & ? & ? & ? & ? & ?)]
         end.
    all: simpl in *; simplify_eq; (split; [done|]); (split; [done|]); (split; [done|]).
    all: try (right; right; left; split; [done|]; eauto 10; fail).
    all: right; right; right; split; [done|].
    all: (split; [unfold insertable; by simplify_option_eq|]); eauto 10.
Qed.

Lemma get_content_hash_title item h :
  get_content_hash item = Ok h -> is_Some (item !! "title").
Proof. unfold get_content_hash. destruct (item !! "title"); [eauto|done]. Qed.

(** One iteration is: hash, look up, detail phase, then the guarded write. *)
Lemma process_item_inv fd counts item w r w' :
  process_item E self fd counts item w = (r, w') ->
  (∃ e, get_content_hash item = Raise e ∧ r = Raise e ∧ w' = w)
  ∨ ∃ h rd w1,
      get_content_hash item = Ok h
      ∧ detail_phase E self fd item h (content_file_path <$> db w !! h) w = (rd, w1)
      ∧ db w1 = db w
      ∧ ((∃ e, rd = Raise e ∧ r = Raise e ∧ w' = w1)
         ∨ (∃ cfp, rd = Ok cfp
            ∧ persist E item h (content_file_path <$> db w1 !! h) cfp counts w1
              = (r, w'))).
Proof.
  unfold process_item, select_content_file_path. intros H.
  destruct (get_content_hash item) as [h|e] eqn:Hh.
  2: { left. exists e. unfold bind, lift in H. by simplify_eq. }
  right. exists h.
  apply bind_inv in H as [(h' & w0 & Hl & H)|(e & Hl & ->)]; [|by minv].
  unfold lift in Hl. injection Hl as <- <-.
  apply bind_inv in H as [(ex & w2 & Hs & H)|(e & Hs & ->)]; [|by minv].
  assert (w2 = w ∧ ex = content_file_path <$> db w !! h) as [-> ->].
  { unfold bind, get_world, ret in Hs. by simplify_eq. }
  apply bind_inv in H as [(cfp & w1 & Hd & H)|(e & Hd & ->)].
  - pose proof (same_db_detail_phase _ _ _ _ _ _ _ Hd) as Hdb. red in Hdb.
    exists (Ok cfp), w1. rewrite Hdb. eauto 10.
  - pose proof (same_db_detail_phase _ _ _ _ _ _ _ Hd) as Hdb.
    exists (Raise e), w'. eauto 10.
Qed.

Lemma app_eq_self {A} (l1 l2 : list A) : l2 = l1 ++ l2 -> l1 = [].
Proof.
  intros H. apply (f_equal length) in H. rewrite length_app in H.
  destruct l1; [done|simpl in H; lia].
Qed.

Lemma os_mkdir_raises p w e w' : os_mkdir E p w = (Raise e, w') -> e = OSError.
Proof. unfold os_mkdir. intros H. by minv. Qed.

Lemma makedirs_from_raises done todo w e w' :
  makedirs_from E done todo w = (Raise e, w') -> e = OSError.
Proof.
  revert done w. induction todo as [|c todo IH]; intros done w H; simpl in H.
  { by minv. }
  apply bind_inv in H as [(w0 & w0' & Hg & H)|(? & ? & ?)]; [|done].
  unfold get_world in Hg. injection Hg as <- <-.
  apply bind_inv in H as [([] & w1 & Hm & H)|(e' & Hm & He)].
  - by eapply IH.
  - injection He as ->. destruct (is_dir w (done ++ [c])); [by minv|].
    by eapply os_mkdir_raises.
Qed.

Lemma get_content_file_path_raises h pt w e w' :
  get_content_file_path E self h pt w = (Raise e, w') -> e = OSError.
Proof.
  unfold get_content_file_path, os_makedirs. intros H.
  apply try_except_inv in H as [(? & _ & ?)|(e0 & w1 & _ & H)]; [done|].
  apply bind_inv in H as [(t & w2 & _ & H)|(? & Ht & _)]; [|by minv].
  apply bind_inv in H as [(? & w3 & _ & H)|(e1 & Hm & He)]; [by minv|].
  injection He as ->. by eapply makedirs_from_raises.
Qed.


(** A row is inserted only for an item that the INSERT accepts. *)
Lemma insert_news_ok_accepted h vt vs vp vk cfp w w' :
  insert_news E h vt vs vp vk cfp w = (Ok tt, w') ->
  bindable vt && bindable vs && bindable vp && bindable vk
  && not_null vt && not_null vs = true.
Proof.
  unfold insert_news. intros H. minv.
  all: repeat match goal with
       | H : sqlite_bind _ _ = _ |- _ =>
           apply sqlite_bind_inv in H as [? [[? ?]|(? & ? & ?)]]
       end; simplify_eq.
  repeat match goal with
         | H : bindable _ = true |- _ => rewrite H; clear H
         | H : sqlite_text _ = Some _ |- _ =>
             rewrite (sqlite_text_is_Some _ _ H); clear H
         end.
  done.
Qed.

Lemma persist_inserted_insertable item h cfp counts w w' :
  persist E item h None cfp counts w = (Ok (S counts.1, counts.2), w') ->
  insertable item = true.
Proof.
  unfold persist, write_row. intros H.
  apply try_except_inv in H as [(c & H & Hc)|(e0 & w1 & _ & H)].
  - unfold insertable. minv.
    match goal with
    | H : insert_news _ _ _ _ _ _ _ _ = _ |- _ =>
        apply insert_news_ok_accepted in H
    end.
    done.
  - minv. destruct counts as [n d]. simpl in *.
    match goal with H : (_, _) = (_, _) |- _ => injection H as H end. lia.
Qed.

(** The fetch brought a text and the partition directory cannot be
    created: the exception of [get_content_file_path] leaves the detail
    phase. *)
Lemma detail_phase_storage_failure item h existing w s v_url text v_focus_date e w2 :
  path_truthy (existing ≫= id) = false ->
  item !! "title" = Some (PStr s) ->
  item !! "url" = Some v_url ->
  http_detail E (ticks w) v_url = Some text -> text ≠ [] ->
  item !! "focus_date" = Some v_focus_date ->
  get_content_file_path E self h v_focus_date
    {| db := db w; dirs := dirs w; files := files w; ticks := S (ticks w);
       trace := EvFetch v_url (Some text)
                :: EvPrint (MsgFetchingDetail (take 30 s)) :: trace w |}
  = (Raise e, w2) ->
  detail_phase E self true item h existing w = (Raise e, w2).
Proof.
  intros Hex Ht Hu Hhttp Htext Hfd Hg.
  unfold detail_phase. rewrite Hex, orb_true_r. simpl.
  unfold fetch_detailed_content, getitem, slice_to_30, print, emit, tick, bind, ret.
  rewrite Ht, Hu. simpl. rewrite Hhttp.
  destruct text as [|c text]; [done|]. simpl.
  rewrite Hfd, Hg. done.
Qed.

(** C3, amended: when the detail fetch of an item comes back absent (or
    empty), or writing its content file fails, no content_file_path is
    recorded for its identity: an existing row is left as it is and the
    item counts as a duplicate; a new item gets its row with a NULL path
    exactly when the row is one the INSERT accepts (title and brief not
    null, every value one that can be bound), and otherwise the table is
    unchanged and the item is not counted.  A failure to create the
    partition directory is not of this kind: when the fetch brought a text
    and [get_content_file_path] raises, the [OSError] leaves the iteration
    before the row is written; and whenever an iteration raises, the table
    is as it was, so neither a row nor a path is recorded for the item. *)
Theorem failed_detail_records_no_path fd counts item w r w' evs :
  process_item E self fd counts item w = (r, w') ->
  trace w' = evs ++ trace w ->
  (detail_failed evs = true ->
   ∃ h, get_content_hash item = Ok h
     ∧ match db w !! h with
       | Some row => r = Ok (counts.1, S counts.2) ∧ db w' = db w
       | None =>
           if insertable item
           then ∃ row, content_file_path row = None
                       ∧ r = Ok (S counts.1, counts.2)
                       ∧ db w' = <[h := row]> (db w)
           else r = Ok counts ∧ db w' = db w
       end)
  ∧ (∀ e, r = Raise e -> db w' = db w ∧ detail_failed evs = false)
  ∧ (∀ h s v_url text v_focus_date e w2,
       fd = true ->
       get_content_hash item = Ok h ->
       path_truthy (db w !! h ≫= content_file_path) = false ->
       item !! "title" = Some (PStr s) ->
       item !! "url" = Some v_url ->
       http_detail E (ticks w) v_url = Some text -> text ≠ [] ->
       item !! "focus_date" = Some v_focus_date ->
       get_content_file_path E self h v_focus_date
         {| db := db w; dirs := dirs w; files := files w; ticks := S (ticks w);
            trace := EvFetch v_url (Some text)
                     :: EvPrint (MsgFetchingDetail (take 30 s)) :: trace w |}
       = (Raise e, w2) ->
       r = Raise OSError ∧ e = OSError ∧ w' = w2 ∧ db w' = db w).
Proof.
  intros H Htr. split; [|split].
  2: { intros e ->.
       apply process_item_inv in H
         as [(e' & _ & _ & ->)|(h & rd & w1 & Hh & Hd & Hdb & H)].
       { apply app_eq_self in Htr as ->. done. }
       destruct H as [(e' & -> & _ & ->)|(cfp & -> & H)].
       - split; [done|].
         apply detail_phase_outcome in Hd as (_ & evs1 & Htr1 & Hrd).
         rewrite Htr1 in Htr. by apply app_inv_tail in Htr as <-.
       - apply persist_outcome in H as (_ & _ & _ & H);
           [|by eapply get_content_hash_title].
         destruct H as [(? & _ & _ & _ & ? & _)|[(? & _ & ? & _)
           |[(_ & ? & _ & _ & ? & _)|(_ & _ & ? & ? & _ & ? & _)]]]; done. }
  2: { intros h s v_url text v_focus_date e w2 -> Hh Hex Ht Hu Hhttp Htext Hfd Hg.
       pose proof (get_content_file_path_raises _ _ _ _ _ Hg) as ->.
       apply process_item_inv in H
         as [(e' & Hh' & _ & _)|(h' & rd & w1 & Hh' & Hd & Hdb & H)]; [congruence|].
       assert (h' = h) as -> by congruence.
       erewrite detail_phase_storage_failure in Hd; [| |done..].
       2: { by destruct (db w !! h). }
       injection Hd as <- <-.
       destruct H as [(e' & [= <-] & -> & ->)|(cfp & ? & _)]; done. }
  intros Hfail.
  apply process_item_inv in H
    as [(e & _ & _ & ->)|(h & rd & w1 & Hh & Hd & Hdb & H)].
  { apply app_eq_self in Htr as ->. discriminate. }
  exists h. split; [done|].
  apply detail_phase_outcome in Hd as (_ & evs1 & Htr1 & Hrd).
  destruct H as [(e & -> & -> & ->)|(cfp & -> & H)].
  { rewrite Htr1 in Htr. apply app_inv_tail in Htr as <-. congruence. }
  pose proof H as Hp. rewrite Hdb in Hp.
  apply persist_outcome in H as (_ & _ & _ & H);
    [|by eapply get_content_hash_title].
  rewrite Hdb in H.
  assert (detail_failed evs1 = true) as Hfail1.
  { destruct H as [(? & _ & _ & _ & _ & Ht & _)|[(? & _ & _ & ->)
      |[(_ & ? & _ & _ & _ & Ht & _)|(_ & _ & ? & ? & _ & _ & _ & Ht)]]].
    all: try rewrite Ht in Htr; rewrite Htr1 in Htr.
    1-3: by apply app_inv_tail in Htr as <-.
    rewrite app_comm_cons in Htr. by apply app_inv_tail in Htr as <-. }
  rewrite Hfail1 in Hrd. subst cfp.
  destruct H as [(row & _ & ? & _)|[(row & -> & -> & ->)
    |[(Hnew & row & ? & _ & -> & _ & Hw)
     |(Hnew & Hins & ? & ? & _ & -> & Hw & _)]]].
  - done.
  - done.
  - rewrite Hnew.
    rewrite Hnew in Hp. apply persist_inserted_insertable in Hp as ->.
    by exists row.
  - by rewrite Hnew, Hins.
Qed.

(** ** How the table changes *)

Lemma row_step_trans r1 r2 r3 : row_step r1 r2 -> row_step r2 r3 -> row_step r1 r3.
Proof.
  intros [->|(Hf & cfp & now & Ht & ->)] H23; [done|].
  destruct H23 as [->|(Hf' & _)].
  - right. eauto.
  - simpl in Hf'. congruence.
Qed.

Lemma evolves_refl d : evolves d d.
Proof. intros h row Hrow. exists row. split; [done|by left]. Qed.

Lemma evolves_trans d1 d2 d3 : evolves d1 d2 -> evolves d2 d3 -> evolves d1 d3.
Proof.
  intros H12 H23 h row Hrow.
  destruct (H12 _ _ Hrow) as (row2 & Hrow2 & Hs12).
  destruct (H23 _ _ Hrow2) as (row3 & Hrow3 & Hs23).
  exists row3. split; [done|by eapply row_step_trans].
Qed.

(** The three ways one iteration can leave the table. *)
Lemma process_item_db fd counts item w r w' :
  process_item E self fd counts item w = (r, w') ->
  db w' = db w
  ∨ ∃ h, get_content_hash item = Ok h
      ∧ ((db w !! h = None
          ∧ ∃ row, (content_file_path row = None
                    ∨ path_truthy (content_file_path row) = true)
                   ∧ db w' = <[h := row]> (db w))
         ∨ (∃ row cfp now, db w !! h = Some row
              ∧ path_truthy (content_file_path row) = false
              ∧ path_truthy cfp = true
              ∧ db w' = <[h := with_content_file_path row cfp now]> (db w))).
Proof.
  intros H.
  apply process_item_inv in H
    as [(e & _ & _ & ->)|(h & rd & w1 & Hh & Hd & Hdb & H)]; [by left|].
  destruct H as [(e & -> & -> & ->)|(cfp & -> & H)]; [by left|].
  apply detail_phase_outcome in Hd as (_ & evs1 & _ & Hrd).
  apply persist_outcome in H as (_ & _ & _ & H);
    [|by eapply get_content_hash_title].
  rewrite Hdb in H.
  destruct H as [(row & Hrow & ? & ? & _ & _ & Hw)|[(row & _ & _ & ->)
    |[(Hrow & row & Hcfp & _ & _ & _ & Hw)|(_ & _ & ? & ? & _ & _ & Hw & _)]]].
  - right. exists h. split; [done|]. right. eauto 10.
  - by left.
  - right. exists h. split; [done|]. left. split; [done|].
    exists row. split; [|done]. rewrite Hcfp. rewrite Hrow in Hrd. simpl in Hrd.
    destruct (detail_failed evs1); [by left|].
    destruct Hrd as [[_ ->]|(_ & _ & dt & ->)]; [by left|].
    right. apply content_file_truthy.
  - left. congruence.
Qed.

Lemma process_item_evolves fd counts item w r w' :
  process_item E self fd counts item w = (r, w') -> evolves (db w) (db w').
Proof.
  intros H. apply process_item_db in H
    as [->|(h & _ & [(Hnone & row & _ & ->)|(row & cfp & now & Hrow & Hf & Ht & ->)])].
  - apply evolves_refl.
  - intros h0 row0 Hrow0. exists row0. split; [|by left].
    rewrite lookup_insert_ne; [done|congruence].
  - intros h0 row0 Hrow0. destruct (decide (h = h0)) as [<-|Hne].
    + rewrite lookup_insert_eq. simplify_eq. eexists. split; [done|].
      right. eauto.
    + rewrite lookup_insert_ne by done. exists row0. split; [done|by left].
Qed.

Lemma process_item_stored_paths_ok fd counts item w r w' :
  process_item E self fd counts item w = (r, w') ->
  stored_paths_ok (db w) -> stored_paths_ok (db w').
Proof.
  intros H Hok. apply process_item_db in H
    as [->|(h & _ & [(Hnone & row & Hrow & ->)|(row & cfp & now & Hrow & Hf & Ht & ->)])].
  - done.
  - by apply map_Forall_insert_2.
  - apply map_Forall_insert_2; [|done]. by right.
Qed.

Lemma process_batch_evolves fd batch counts w r w' :
  process_batch E self fd batch counts w = (r, w') ->
  evolves (db w) (db w')
  ∧ (stored_paths_ok (db w) -> stored_paths_ok (db w')).
Proof.
  revert counts w. induction batch as [|item batch IH]; intros counts w H; simpl in H.
  - minv. split; [apply evolves_refl|done].
  - apply bind_inv in H as [(c1 & w1 & H1 & H)|(e & H1 & ->)].
    + destruct (IH _ _ H) as [Hev Hok]. split.
      * eapply evolves_trans; [by eapply process_item_evolves|done].
      * intros ?. by eapply Hok, process_item_stored_paths_ok.
    + split; [by eapply process_item_evolves|by eapply process_item_stored_paths_ok].
Qed.

Lemma stored_paths_ok_empty : stored_paths_ok ∅.
Proof. apply map_Forall_empty. Qed.

Lemma save_news_to_db_evolves fd batch w r w' :
  save_news_to_db E self batch fd w = (r, w') ->
  evolves (db w) (db w')
  ∧ (stored_paths_ok (db w) -> stored_paths_ok (db w')).
Proof.
  unfold save_news_to_db. intros H.
  destruct (process_batch E self fd batch (0%nat, 0%nat) w) as [[c|e] w1] eqn:Hb;
    simplify_eq.
  - by eapply process_batch_evolves.
  - simpl. split; [apply evolves_refl|done].
Qed.

(** C4: a run never clears or changes a content_file_path that is set: the
    row of an identity that has one is found unchanged after the run.  Rows
    are never deleted, and a row without a content file either stays as it
    is or receives one by a backfill update; so the path of an identity is
    set at most once, at insert or by one later update. *)
Theorem content_file_path_set_once batch fd w r w' h row :
  stored_paths_ok (db w) ->
  save_news_to_db E self batch fd w = (r, w') ->
  db w !! h = Some row ->
  stored_paths_ok (db w')
  ∧ (∀ p, content_file_path row = Some p -> db w' !! h = Some row)
  ∧ (content_file_path row = None ->
     ∃ row', db w' !! h = Some row'
       ∧ (row' = row
          ∨ ∃ p now, path_truthy (Some p) = true
              ∧ row' = with_content_file_path row (Some p) now)).
Proof.
  intros Hok H Hrow. apply save_news_to_db_evolves in H as [Hev Hok'].
  split; [by apply Hok'|].
  destruct (Hev _ _ Hrow) as (row' & Hrow' & Hstep). split.
  - intros p Hp. destruct Hstep as [->|(Hf & _)]; [done|].
    destruct (Hok _ _ Hrow) as [?|?]; congruence.
  - intros Hnone. exists row'. split; [done|].
    destruct Hstep as [->|(_ & [p|] & now & Ht & ->)]; [by left| |done].
    right. eauto.
Qed.

(** ** Exceptions inside and outside the guarded write *)

Lemma process_batch_app fd pre post counts w :
  process_batch E self fd (pre ++ post) counts w
  = match process_batch E self fd pre counts w with
    | (Ok counts', w') => process_batch E self fd post counts' w'
    | (Raise e, w') => (Raise e, w')
    end.
Proof.
  revert counts w. induction pre as [|item pre IH]; intros counts w; simpl; [done|].
  unfold bind. destruct (process_item E self fd counts item w) as [[c|e] w1]; [|done].
  apply IH.
Qed.

(** An exception in the guarded write leaves the world as it was. *)
Lemma write_row_raise item h existing cfp counts w e w' :
  write_row E item h existing cfp counts w = (Raise e, w') -> w' = w.
Proof.
  unfold write_row, update_content_file_path. intros H.
  destruct existing as [cell|]; minv; try done.
  match goal with
  | H : insert_news _ _ _ _ _ _ _ _ = _ |- _ =>
      apply insert_news_outcome in H as [(? & ? & ? & _)|(? & _)]
  end; by simplify_eq.
Qed.

Lemma process_item_run fd counts item w h rd w1 :
  get_content_hash item = Ok h ->
  detail_phase E self fd item h (content_file_path <$> db w !! h) w = (rd, w1) ->
  process_item E self fd counts item w
  = match rd with
    | Ok cfp => persist E item h (content_file_path <$> db w !! h) cfp counts w1
    | Raise e => (Raise e, w1)
    end.
Proof.
  intros Hh Hd. unfold process_item, select_content_file_path.
  unfold bind at 1. unfold lift. rewrite Hh.
  unfold bind at 1. unfold bind at 1. unfold get_world, ret at 1.
  unfold bind. rewrite Hd. by destruct rd.
Qed.

(** C9: when writing the row of one item raises, the exception is caught
    and logged with the item's title; counters and table are as before the
    write, the items after it are processed from that state, and the
    result of the run is the result of processing them. *)
Theorem persist_failure_isolated fd pre item post w0 counts w h cfp w1 e w2 :
  process_batch E self fd pre (0%nat, 0%nat) w0 = (Ok counts, w) ->
  get_content_hash item = Ok h ->
  detail_phase E self fd item h (content_file_path <$> db w !! h) w = (Ok cfp, w1) ->
  write_row E item h (content_file_path <$> db w !! h) cfp counts w1 = (Raise e, w2) ->
  ∃ v_title,
    item !! "title" = Some v_title
    ∧ w2 = w1
    ∧ let w3 := {| db := db w1; dirs := dirs w1; files := files w1;
                   ticks := ticks w1;
                   trace := EvPrint (MsgSaveNewsFailed v_title e) :: trace w1 |} in
      process_item E self fd counts item w = (Ok counts, w3)
      ∧ process_batch E self fd (pre ++ item :: post) (0%nat, 0%nat) w0
        = process_batch E self fd post counts w3
      ∧ ∀ counts' w',
          process_batch E self fd post counts w3 = (Ok counts', w') ->
          save_news_to_db E self (pre ++ item :: post) fd w0 = (Ok counts', w').
Proof.
  intros Hpre Hh Hd Hw.
  destruct (get_content_hash_title _ _ Hh) as [v_title Ht].
  exists v_title. split; [done|].
  pose proof (write_row_raise _ _ _ _ _ _ _ _ Hw) as ->. split; [done|].
  intros w3.
  assert (process_item E self fd counts item w = (Ok counts, w3)) as Hitem.
  { erewrite process_item_run by done.
    unfold persist, try_except. rewrite Hw.
    unfold bind, getitem. rewrite Ht. reflexivity. }
  assert (process_batch E self fd (pre ++ item :: post) (0%nat, 0%nat) w0
          = process_batch E self fd post counts w3) as Hbatch.
  { rewrite process_batch_app, Hpre. simpl. by erewrite bind_ok. }
  split; [done|]. split; [done|].
  intros counts' w' Hpost. unfold save_news_to_db. by rewrite Hbatch, Hpost.
Qed.



(** ** The content file store *)


#[local] Instance fs_grows_refl : Reflexive fs_grows.
Proof. by intros w. Qed.
#[local] Instance fs_grows_trans : Transitive fs_grows.
Proof.
  intros x y z (? & ? & ?) (? & ? & ?). split; [set_solver|]. split; [congruence|lia].
Qed.

Lemma fs_grows_tick : keeps fs_grows tick.
Proof. intros w r w' H. minv. split; [done|]. split; [done|]. simpl. lia. Qed.

Lemma fs_grows_os_mkdir p : keeps fs_grows (os_mkdir E p).
Proof.
  intros w r w' H. unfold os_mkdir in H. minv; simpl.
  all: split; [set_solver|]; split; [done|]; simpl; lia.
Qed.

Lemma fs_grows_makedirs_from done todo : keeps fs_grows (makedirs_from E done todo).
Proof.
  revert done. induction todo as [|c todo IH]; intros done; simpl.
  - keeps_tac.
  - pose proof (fs_grows_os_mkdir (done ++ [c])). keeps_tac.
Qed.

Lemma is_dir_mono w w' p : dirs w ⊆ dirs w' -> is_dir w p = true -> is_dir w' p = true.
Proof.
  unfold is_dir. intros Hsub H%bool_decide_eq_true. apply bool_decide_eq_true.
  destruct H; [by left|right; set_solver].
Qed.

Lemma os_mkdir_ok p w w' :
  os_mkdir E p w = (Ok tt, w') -> is_dir w' p = true.
Proof.
  unfold os_mkdir. intros H. minv. simpl.
  apply bool_decide_eq_true. right. set_solver.
Qed.

(** When [os.makedirs] returns, every level below [done] is a directory. *)
Lemma makedirs_from_levels done todo w w' :
  makedirs_from E done todo w = (Ok tt, w') ->
  ∀ k, (0 < k <= length todo)%nat -> is_dir w' (done ++ take k todo) = true.
Proof.
  revert done w. induction todo as [|c todo IH]; intros done w H k Hk.
  { simpl in Hk. lia. }
  simpl in H. apply bind_inv in H as [(w0 & w0' & Hg & H)|(? & ? & ?)]; [|done].
  unfold get_world in Hg. injection Hg as <- <-.
  apply bind_inv in H as [([] & w1 & Hm & H)|(? & ? & ?)]; [|done].
  assert (is_dir w1 (done ++ [c]) = true) as Hlevel.
  { destruct (is_dir w (done ++ [c])) eqn:Hd.
    - unfold ret in Hm. by simplify_eq.
    - by eapply os_mkdir_ok. }
  destruct k as [|k]; [lia|]. simpl.
  destruct k as [|k].
  - rewrite take_0.
    eapply is_dir_mono; [|done]. by eapply fs_grows_makedirs_from.
  - replace (done ++ c :: take (S k) todo) with ((done ++ [c]) ++ take (S k) todo)
      by by rewrite <- app_assoc.
    eapply IH; [done|]. simpl in Hk. lia.
Qed.

Lemma os_makedirs_levels p w w' :
  os_makedirs E p w = (Ok tt, w') -> all_levels_exist w' p.
Proof.
  intros H k. destruct (decide (k = 0%nat)) as [->|Hk0].
  { rewrite take_0. by apply bool_decide_eq_true; left. }
  destruct (decide (k <= length p)%nat) as [Hk|Hk].
  - eapply (makedirs_from_levels [] p); [done|lia].
  - rewrite take_ge by lia. destruct p as [|c p].
    + by apply bool_decide_eq_true; left.
    + rewrite <- (firstn_all (c :: p)).
      eapply (makedirs_from_levels [] (c :: p)); [done|simpl; lia].
Qed.

Lemma parent_snoc (p : path) c : parent (p ++ [c]) = p.
Proof. unfold parent. apply removelast_last. Qed.

(** On a disk that refuses nothing, [os.makedirs] succeeds unless a regular
    file is in the way. *)
Lemma makedirs_from_succeeds done todo w :
  disk_ok E w ->
  is_dir w done = true ->
  (∀ k, (0 < k)%nat -> files w !! (done ++ take k todo) = None) ->
  ∃ w', makedirs_from E done todo w = (Ok tt, w').
Proof.
  revert done w. induction todo as [|c todo IH]; intros done w Hdisk Hdone Hfree.
  { by exists w. }
  simpl. unfold bind at 1. unfold get_world.
  assert (∃ w1, (if is_dir w (done ++ [c]) then ret tt else os_mkdir E (done ++ [c])) w
                = (Ok tt, w1)) as [w1 Hm].
  { destruct (is_dir w (done ++ [c])) eqn:Hd; [by exists w|].
    unfold os_mkdir, bind, tick, get_world. simpl.
    rewrite (Hdisk (ticks w)) by lia.
    unfold is_dir, is_file in Hd, Hdone |- *. simpl. rewrite Hd. simpl.
    specialize (Hfree 1%nat ltac:(lia)). simpl in Hfree. rewrite take_0 in Hfree.
    rewrite bool_decide_eq_false_2 by (rewrite Hfree; by intros [? ?]).
    rewrite parent_snoc, Hdone. simpl. by eexists. }
  erewrite bind_ok by done.
  assert (fs_grows w w1) as (Hsub & Hfiles & Hticks).
  { destruct (is_dir w (done ++ [c])).
    - unfold ret in Hm. by simplify_eq.
    - by eapply fs_grows_os_mkdir. }
  apply IH.
  - intros t Ht. apply Hdisk. lia.
  - destruct (is_dir w (done ++ [c])) eqn:Hd.
    + unfold ret in Hm. by simplify_eq.
    + by eapply os_mkdir_ok.
  - intros k Hk. rewrite Hfiles, <- app_assoc. apply (Hfree (S k)). lia.
Qed.

Lemma os_makedirs_succeeds p w :
  disk_ok E w -> unobstructed w p -> ∃ w', os_makedirs E p w = (Ok tt, w').
Proof.
  intros Hdisk Hfree. apply makedirs_from_succeeds; [done| |].
  - by apply bool_decide_eq_true; left.
  - intros k _. apply Hfree.
Qed.

Lemma take_all_levels w (p : path) : all_levels_exist w p -> is_dir w p = true.
Proof. intros H. specialize (H (length p)). by rewrite firstn_all in H. Qed.

Lemma write_text_file_written p text w w' :
  write_text_file E p text w = (Ok tt, w') -> files w' !! p = Some text.
Proof.
  unfold write_text_file. intros H. minv. simpl. apply lookup_insert_eq.
Qed.

Lemma write_text_file_succeeds p text w :
  disk_ok E w ->
  is_dir w p = false -> is_dir w (parent p) = true ->
  is_Some (Utf8.encode text) ->
  ∃ w', write_text_file E p text w = (Ok tt, w').
Proof.
  intros Hdisk Hp Hparent [bs Henc].
  unfold write_text_file, bind, tick, get_world, set_files. simpl.
  rewrite (Hdisk (ticks w)) by lia.
  unfold is_dir in Hp, Hparent |- *. simpl. rewrite Hp, Hparent. simpl.
  rewrite Henc. simpl. rewrite (Hdisk (S (ticks w))) by lia. by eexists.
Qed.

Lemma path_str_content_file dt h :
  path_str (content_file dt h)
  = strftime_Y dt +:+ "/" +:+ strftime_m dt +:+ "/" +:+ strftime_d dt
      +:+ "/" +:+ h +:+ ".txt".
Proof.
  unfold path_str, content_file, partition. reflexivity.
Qed.

(** C7, amended: [get_content_file_path] returns
    [{year}/{month}/{day}/{identity}.txt] for the date of publishTime when
    publishTime parses, and the same leaf under the current date's partition
    when publishTime is missing or does not parse; it returns without
    raising provided the operating system can create the partition
    directory (it refuses no call and no regular file is in the way).  The
    year is written in decimal without padding, so a year below 1000 takes
    fewer than four characters; month and day take two digits each. *)
Theorem get_content_file_path_partition h pt w :
  disk_ok E w ->
  (∀ s dt, pt = PStr s -> strptime E s = Some dt ->
     unobstructed w (content_base_dir self ++ partition dt) ->
     ∃ w', get_content_file_path E self h pt w = (Ok (content_file dt h), w')
           ∧ all_levels_exist w' (content_base_dir self ++ partition dt))
  ∧ ((∀ s, pt = PStr s -> strptime E s = None) ->
     unobstructed w (content_base_dir self ++ partition (datetime_now E (ticks w))) ->
     ∃ w', get_content_file_path E self h pt w
           = (Ok (content_file (datetime_now E (ticks w)) h), w')
           ∧ all_levels_exist w'
               (content_base_dir self ++ partition (datetime_now E (ticks w))))
  ∧ ∀ dt, content_file dt h
          = [pretty (dt_year dt); zero_pad 2 (pretty (dt_month dt));
             zero_pad 2 (pretty (dt_day dt)); h +:+ ".txt"]
          ∧ path_str (content_file dt h)
            = pretty (dt_year dt) +:+ "/" +:+ zero_pad 2 (pretty (dt_month dt))
                +:+ "/" +:+ zero_pad 2 (pretty (dt_day dt))
                +:+ "/" +:+ h +:+ ".txt".
Proof.
  intros Hdisk. split; [|split].
  - intros s dt -> Hparse Hfree.
    destruct (os_makedirs_succeeds _ _ Hdisk Hfree) as [w' Hm].
    exists w'. split; [|by eapply os_makedirs_levels].
    unfold get_content_file_path, try_except, parse_publish_time.
    rewrite Hparse. unfold bind at 1. unfold ret at 1.
    by erewrite bind_ok.
  - intros Hparse Hfree.
    set (w1 := {| db := db w; dirs := dirs w; files := files w;
                  ticks := S (ticks w); trace := trace w |}).
    destruct (os_makedirs_succeeds
                (content_base_dir self ++ partition (datetime_now E (ticks w))) w1)
      as [w' Hm].
    { intros t Ht. apply Hdisk. simpl in Ht. lia. }
    { done. }
    exists w'. split; [|by eapply os_makedirs_levels].
    assert (∃ e, parse_publish_time E pt w = (Raise e, w)) as [e Hraise].
    { unfold parse_publish_time. destruct pt as [| | |s]; try by eexists.
      rewrite (Hparse s eq_refl). by eexists. }
    unfold get_content_file_path, try_except.
    erewrite bind_raise by done.
    unfold bind at 1. unfold tick. fold w1.
    by erewrite bind_ok.
  - intros dt. split; [reflexivity|]. apply path_str_content_file.
Qed.

(** C8, amended: [save_detailed_content] creates no directory; the levels
    of a content path are created by [get_content_file_path] before it
    returns the path, so they exist when the file is written.  For a
    non-empty text [save_detailed_content] never raises: it returns [True]
    with the file written, or [False] whenever opening or writing raised. *)
Theorem content_file_written_after_path h pt w0 p w text :
  get_content_file_path E self h pt w0 = (Ok p, w) ->
  text ≠ [] ->
  all_levels_exist w (content_base_dir self ++ parent p)
  ∧ ∃ saved w',
      save_detailed_content E self p (Some text) w = (Ok saved, w')
      ∧ dirs w' = dirs w
      ∧ (saved = true -> files w' !! (content_base_dir self ++ p) = Some text)
      ∧ (saved = false <->
         ∃ e w'', write_text_file E (content_base_dir self ++ p) text w
                  = (Raise e, w''))
      ∧ (disk_ok E w -> is_dir w (content_base_dir self ++ p) = false ->
         is_Some (Utf8.encode text) -> saved = true).
Proof.
  intros Hpath Htext.
  assert (all_levels_exist w (content_base_dir self ++ parent p)) as Hlevels.
  { unfold get_content_file_path in Hpath. minv.
    all: unfold content_file; rewrite parent_snoc; by eapply os_makedirs_levels. }
  split; [done|].
  destruct text as [|c text]; [done|].
  unfold save_detailed_content, try_except.
  destruct (write_text_file E (content_base_dir self ++ p) (c :: text) w)
    as [[[]|e] w1] eqn:Hw.
  - exists true, w1. erewrite bind_ok by done. unfold ret.
    split; [done|]. split; [by eapply same_dirs_write_text_file|].
    split; [intros _; by eapply write_text_file_written|].
    split; [|done]. split; [done|]. by intros (? & ? & ?).
  - erewrite bind_raise by done.
    eexists false, _. split; [reflexivity|].
    split; [simpl; by eapply same_dirs_write_text_file|].
    split; [intros ?; discriminate|].
    split; [split; [intros _; by eauto|done]|].
    intros Hdisk Hnodir Henc.
    destruct (write_text_file_succeeds (content_base_dir self ++ p) (c :: text) w)
      as [w2 Hok]; try done; [|congruence].
    assert (parent (content_base_dir self ++ p) = content_base_dir self ++ parent p)
      as ->; [|by apply take_all_levels].
    unfold get_content_file_path in Hpath. minv.
    all: unfold content_file; by rewrite app_assoc, !parent_snoc.
Qed.

(** ** Batches of well-formed items, without detail *)

Lemma encode_pystr_of_string s : is_Some (Utf8.encode (pystr_of_string s)).
Proof.
  unfold pystr_of_string. induction s as [|a s IH]; simpl; [by eexists|].
  destruct IH as [rest ->].
  pose proof (N_ascii_bounded a) as Ha.
  unfold Utf8.encode_cp.
  destruct (N.ltb_spec (N_of_ascii a) 128); [by eexists|].
  destruct (N.ltb_spec (N_of_ascii a) 2048); [by eexists|lia].
Qed.

Lemma bindable_format v : bindable v = true -> is_Some (Utf8.encode (py_format v)).
Proof.
  unfold bindable, bind_error.
  destruct v as [|[]|z|s]; intros H; cbn [py_format];
    try apply encode_pystr_of_string.
  destruct (Utf8.encode s); [by eexists|discriminate].
Qed.

Lemma insertable_hash item :
  insertable item = true -> ∃ h, get_content_hash item = Ok h.
Proof.
  unfold insertable, get_content_hash.
  destruct (item !! "title") as [t|]; [|done].
  destruct (item !! "brief") as [b|]; [|done].
  destruct (item !! "focus_date"); [|done].
  intros H. repeat (apply andb_prop in H as [H ?]).
  rewrite utf8_encode_app.
  destruct (bindable_format t) as [? ->]; [done|].
  destruct (bindable_format b) as [? ->]; [done|].
  by eexists.
Qed.

Lemma process_item_without_detail counts item w :
  insertable item = true ->
  ∃ h counts' w',
    get_content_hash item = Ok h
    ∧ process_item E self false counts item w = (Ok counts', w')
    ∧ (counts'.1 + counts'.2 = S (counts.1 + counts.2))%nat
    ∧ is_Some (db w' !! h).
Proof.
  intros Hins. destruct (insertable_hash _ Hins) as [h Hh]. exists h.
  destruct (process_item E self false counts item w) as [r w'] eqn:Hrun.
  assert (detail_phase E self false item h (content_file_path <$> db w !! h) w
          = (Ok ((content_file_path <$> db w !! h) ≫= id), w)) as Hd.
  { unfold detail_phase. simpl. by destruct (content_file_path <$> db w !! h). }
  rewrite (process_item_run _ _ _ _ _ _ _ Hh Hd) in Hrun.
  set (cfp := (content_file_path <$> db w !! h) ≫= id) in Hrun.
  pose proof Hrun as Hp.
  apply persist_outcome in Hp as (_ & _ & _ & Hp);
    [|by eapply get_content_hash_title].
  destruct Hp as [(row & Hrow & _ & _ & -> & _ & Hdb)|[(row & Hrow & -> & ->)
    |[(_ & row & _ & _ & -> & _ & Hdb)|(_ & ? & _)]]]; [..|congruence].
  - eexists _, w'. split; [done|]. split; [done|].
    split; [simpl; lia|]. rewrite Hdb, lookup_insert_eq. by eexists.
  - eexists _, w. split; [done|]. split; [done|].
    split; [simpl; lia|]. by eexists.
  - eexists _, w'. split; [done|]. split; [done|].
    split; [simpl; lia|]. rewrite Hdb, lookup_insert_eq. by eexists.
Qed.

Lemma fully_processed_evolves d d' item :
  evolves d d' ->
  fully_processed false d item = true -> fully_processed false d' item = true.
Proof.
  unfold fully_processed. intros Hev.
  destruct (get_content_hash item) as [h|]; [|done].
  destruct (d !! h) as [row|] eqn:Hrow; [|done].
  by destruct (Hev _ _ Hrow) as (row' & -> & _).
Qed.

Lemma process_batch_without_detail batch counts w :
  Forall (fun item => insertable item = true) batch ->
  ∃ counts' w',
    process_batch E self false batch counts w = (Ok counts', w')
    ∧ (counts'.1 + counts'.2 = counts.1 + counts.2 + length batch)%nat
    ∧ forallb (fully_processed false (db w')) batch = true.
Proof.
  intros Hall. revert counts w.
  induction Hall as [|item batch Hitem Hall IH]; intros counts w; simpl.
  { exists counts, w. split; [done|]. split; [lia|done]. }
  destruct (process_item_without_detail counts item w Hitem)
    as (h & c1 & w1 & Hh & Hrun & Hc1 & Hrow).
  destruct (IH c1 w1) as (c2 & w2 & Hrest & Hc2 & Hfull).
  exists c2, w2. erewrite bind_ok by done.
  split; [done|]. split; [lia|].
  rewrite Hfull, andb_true_r.
  apply (fully_processed_evolves (db w1)).
  - by eapply process_batch_evolves.
  - unfold fully_processed. rewrite Hh. by destruct Hrow as [? ->].
Qed.

(** Idempotence without detail, from the batch alone: when every item is one
    the INSERT accepts, the first run counts each of them and the second run
    counts each of them as a duplicate, leaving the world unchanged. *)
Corollary save_news_to_db_twice_without_detail batch w0 :
  Forall (fun item => insertable item = true) batch ->
  ∃ n d w1,
    save_news_to_db E self batch false w0 = (Ok (n, d), w1)
    ∧ (n + d = length batch)%nat
    ∧ save_news_to_db E self batch false w1 = (Ok (0%nat, length batch), w1).
Proof.
  intros Hall.
  destruct (process_batch_without_detail batch (0%nat, 0%nat) w0 Hall)
    as ([n d] & w1 & Hrun & Hsum & Hfull).
  exists n, d, w1. unfold save_news_to_db. rewrite Hrun.
  split; [done|]. split; [simpl in Hsum; lia|].
  by rewrite process_batch_duplicates.
Qed.

End Crawler.

(** C5: the scenario item, without detail, against an empty table: the first
    run returns (1, 0) and leaves exactly one row, whose content_file_path is
    NULL; the second run returns (0, 1) and leaves the world unchanged. *)
Theorem scenario_twice_without_detail E self d f t tr :
  let w0 := {| db := ∅; dirs := d; files := f; ticks := t; trace := tr |} in
  let row := {| title := pystr_of_string "A";
                summary := pystr_of_string "B";
                publish_time := Some (pystr_of_string "2024-01-01 10:00:00");
                keywords := Some [];
                crawl_time := current_timestamp E t;
                content_file_path := None |} in
  let w1 := {| db := {[ "b86fc6b051f63d73de262d4c34e3a0a9"%string := row ]};
               dirs := d; files := f; ticks := t; trace := tr |} in
  save_news_to_db E self [item_AB] false w0 = (Ok (1%nat, 0%nat), w1)
  ∧ content_file_path row = None
  ∧ save_news_to_db E self [item_AB] false w1 = (Ok (0%nat, 1%nat), w1).
Proof.
  intros w0 row w1. split; [|split]; vm_compute; reflexivity.
Qed.

(** C3, as stated, fails: a failed detail step does not always leave a
    new item inserted with a null path.  With the network down, a new item
    whose brief is null gets no row at all.  And when the fetch brings a
    text but the partition directory cannot be created, the [OSError]
    leaves [save_news_to_db]: no row is recorded and the run does not
    return. *)
Lemma failed_detail_leaves_no_row :
  (let run := save_news_to_db env_offline default_crawler [item_null_brief] true
                empty_world in
   get_content_hash item_null_brief = Ok "fd0893b1aa283e03b3b348ee3329cd09"%string
   ∧ take 1 (trace run.2) = [EvPrint (MsgSaveNewsFailed (str "A") IntegrityError)]
   ∧ detail_failed (trace run.2) = true
   ∧ run.1 = Ok (0%nat, 0%nat)
   ∧ db run.2 = ∅)
  ∧ (let run := save_news_to_db env_disk_error default_crawler [item_AB] true
                  empty_world in
     get_content_hash item_AB = Ok hash_AB
     ∧ run.1 = Raise OSError
     ∧ db run.2 = ∅ ∧ dirs run.2 = ∅ ∧ files run.2 = ∅).
Proof. repeat split; vm_compute; reflexivity. Qed.

(** C7, as stated, fails: with a regular file where the base directory
    should be, a publishTime that does not parse makes the call raise; and
    with a regular file where the year directory should be, a publishTime
    that parses yields the path of the current date. *)
Lemma get_content_file_path_raises_or_misplaces :
  (get_content_file_path env_offline default_crawler "b86fc6b051f63d73de262d4c34e3a0a9"
     (str "not-a-date") world_news_is_file).1 = Raise OSError
  ∧ strptime env_offline (pystr_of_string "2024-01-01 10:00:00")
    = Some {| dt_year := 2024; dt_month := 1; dt_day := 1;
              dt_hour := 10; dt_minute := 0; dt_second := 0 |}
  ∧ (get_content_file_path env_offline default_crawler "b86fc6b051f63d73de262d4c34e3a0a9"
       (str "2024-01-01 10:00:00") world_2024_is_file).1
    = Ok ["2026"; "11"; "03"; "b86fc6b051f63d73de262d4c34e3a0a9.txt"]%string.
Proof. repeat split; vm_compute; reflexivity. Qed.

(** C8, as stated, fails: given a path whose directories do not exist,
    [save_detailed_content] creates none of them and writes nothing; it
    returns [False]. *)
Lemma save_detailed_content_creates_no_directory :
  let run := save_detailed_content env_offline default_crawler
               ["2024"; "01"; "01"; "b86fc6b051f63d73de262d4c34e3a0a9.txt"]%string
               (Some (pystr_of_string "Paragraph one.")) empty_world in
  run.1 = Ok false ∧ dirs run.2 = ∅ ∧ files run.2 = ∅.
Proof. repeat split; vm_compute; reflexivity. Qed.

(** * Further properties of the pipeline *)

(** ** Counting the items of a run *)

Section Tally.
Context (E : Env) (self : CCTVNewsCrawler).

Lemma count_app f evs1 evs2 :
  count f (evs1 ++ evs2) = (count f evs1 + count f evs2)%nat.
Proof. induction evs1 as [|ev evs1 IH]; simpl; [done|]. rewrite IH. lia. Qed.

(** The events of the detail phase: at most one fetch, followed by its
    sleep when the phase returns, and never the log line of a failed row;
    without [fetch_detailed] nothing happens at all. *)
Lemma detail_phase_trace fd item h existing w r w1 :
  detail_phase E self fd item h existing w = (r, w1) ->
  (fd = false -> w1 = w)
  ∧ ∃ evs, trace w1 = evs ++ trace w
    ∧ count is_save_failure evs = 0%nat
    ∧ (count is_fetch evs <= 1)%nat
    ∧ (∀ cfp, r = Ok cfp -> count is_sleep evs = count is_fetch evs).
Proof.
  intros H. unfold detail_phase in H.
  destruct (fd && _) eqn:Hcond.
  - apply andb_prop in Hcond as [-> Hcond]. split; [done|].
    unfold fetch_detailed_content, slice_to_30 in H.
    minv.
    all: try (match goal with
         | H : get_content_file_path _ _ _ _ _ = _ |- _ =>
             apply get_content_file_path_outcome in H as [[_ ?] ?]
         end).
    all: try (match goal with
         | H : save_detailed_content _ _ _ _ _ = _ |- _ =>
             apply save_detailed_content_outcome in H as (_ & ?)
         end).
    all: simpl in *; destruct_or?; destruct_and?; simplify_eq;
      repeat match goal with
      | H : ∃ _, _ |- _ => destruct H
      | H : trace _ = _ |- _ => rewrite H
      end; simpl.
    all: first [ exists nil; split; [reflexivity|]
               | eexists [_]; split; [reflexivity|]
               | eexists [_; _]; split; [reflexivity|]
               | eexists [_; _; _]; split; [reflexivity|]
               | eexists [_; _; _; _]; split; [reflexivity|] ].
    all: simpl; repeat split; try done; try lia.
  - assert (w1 = w) as -> by (by destruct existing; minv).
    split; [done|]. exists nil. simpl. repeat split; try done; lia.
Qed.

(** One iteration that returns has counted the item once: as new, as
    duplicate, or in the log of failed rows. *)
Lemma process_item_tally fd counts item w counts' w' :
  process_item E self fd counts item w = (Ok counts', w') ->
  ∃ evs, trace w' = evs ++ trace w
    ∧ (counts'.1 + counts'.2 + count is_save_failure evs
       = S (counts.1 + counts.2))%nat
    ∧ count is_sleep evs = count is_fetch evs
    ∧ (count is_fetch evs <= 1)%nat.
Proof.
  intros H.
  apply process_item_inv in H
    as [(e & _ & ? & _)|(h & rd & w1 & Hh & Hd & Hdb & H)]; [done|].
  destruct H as [(e & _ & ? & _)|(cfp & -> & H)]; [done|].
  apply detail_phase_trace in Hd as (_ & evs1 & Htr1 & Hf1 & Hle & Hsl).
  specialize (Hsl _ eq_refl).
  apply persist_outcome in H as (_ & _ & _ & H);
    [|by eapply get_content_hash_title].
  destruct H as [(? & _ & _ & _ & ? & Ht & _)|[(? & _ & ? & ->)
    |[(_ & ? & _ & _ & ? & Ht & _)|(_ & _ & ? & ? & _ & ? & _ & Ht)]]];
    simplify_eq.
  - exists evs1. rewrite Ht. simpl. repeat split; try done; lia.
  - exists evs1. simpl. repeat split; try done; lia.
  - exists evs1. rewrite Ht. simpl. repeat split; try done; lia.
  - eexists (_ :: evs1). rewrite Ht, Htr1. split; [reflexivity|].
    simpl. repeat split; try done; lia.
Qed.

Lemma process_batch_tally fd batch counts w counts' w' :
  process_batch E self fd batch counts w = (Ok counts', w') ->
  ∃ evs, trace w' = evs ++ trace w
    ∧ (counts'.1 + counts'.2 + count is_save_failure evs
       = counts.1 + counts.2 + length batch)%nat
    ∧ count is_sleep evs = count is_fetch evs
    ∧ (count is_fetch evs <= length batch)%nat.
Proof.
  revert counts w. induction batch as [|item batch IH]; intros counts w H; simpl in H.
  - unfold ret in H. simplify_eq. exists nil. simpl. repeat split; try done; lia.
  - apply bind_inv in H as [(c1 & w1 & H1 & H)|(e & _ & ?)]; [|done].
    apply process_item_tally in H1 as (evs1 & Ht1 & Hc1 & Hs1 & Hf1).
    apply IH in H as (evs2 & Ht2 & Hc2 & Hs2 & Hf2).
    exists (evs2 ++ evs1). rewrite Ht2, Ht1, app_assoc. split; [done|].
    rewrite !count_app. simpl. repeat split; lia.
Qed.

(** A run returns what its loop returns. *)
Lemma save_news_to_db_returns batch fd w counts w' :
  save_news_to_db E self batch fd w = (Ok counts, w') ->
  process_batch E self fd batch (0%nat, 0%nat) w = (Ok counts, w').
Proof.
  unfold save_news_to_db. intros H.
  by destruct (process_batch E self fd batch (0%nat, 0%nat) w) as [[c|e] w1];
    simplify_eq.
Qed.

(** X1: Every item of a run that returns is accounted for exactly once:
    new_count + duplicate_count + the number of rows logged as failed is
    the length of the batch. *)
Theorem every_item_counted_once batch fd w new_count duplicate_count w' :
  save_news_to_db E self batch fd w = (Ok (new_count, duplicate_count), w') ->
  ∃ evs, trace w' = evs ++ trace w
    ∧ (new_count + duplicate_count + count is_save_failure evs
       = length batch)%nat.
Proof.
  intros H%save_news_to_db_returns.
  apply process_batch_tally in H as (evs & Ht & Hc & _).
  exists evs. split; [done|]. simpl in Hc. lia.
Qed.

(** X2: Pacing: in a run that returns there is one sleep for every detail
    fetch, and at most one fetch per item of the batch. *)
Theorem one_sleep_per_fetch batch fd w counts w' :
  save_news_to_db E self batch fd w = (Ok counts, w') ->
  ∃ evs, trace w' = evs ++ trace w
    ∧ count is_sleep evs = count is_fetch evs
    ∧ (count is_fetch evs <= length batch)%nat.
Proof.
  intros H%save_news_to_db_returns.
  apply process_batch_tally in H as (evs & Ht & _ & Hs & Hf).
  by exists evs.
Qed.

End Tally.

(** ** Table and content files *)

Section Store.
Context (E : Env) (self : CCTVNewsCrawler).

#[local] Existing Instance fs_grows_refl.
#[local] Existing Instance fs_grows_trans.

Lemma fs_grows_get_content_file_path h pt :
  keeps fs_grows (get_content_file_path E self h pt).
Proof.
  unfold get_content_file_path, parse_publish_time, os_makedirs.
  pose proof (fs_grows_makedirs_from E). pose proof fs_grows_tick. keeps_tac.
Qed.

(** Opening and writing a file changes the file system at that path only:
    the file holds the text, or, when opening succeeded and writing raised,
    it is left empty. *)
Lemma write_text_file_files p text w r w1 :
  write_text_file E p text w = (r, w1) ->
  dirs w1 = dirs w ∧ (ticks w <= ticks w1)%nat
  ∧ ((r = Ok tt ∧ files w1 = <[p := text]> (files w))
     ∨ ((∃ e, r = Raise e)
        ∧ (files w1 = files w ∨ files w1 = <[p := []]> (files w)))).
Proof.
  unfold write_text_file. intros H. minv; simpl.
  all: (split; [done|]); (split; [lia|]); eauto 10.
Qed.

Lemma save_detailed_content_files p d w r w1 :
  save_detailed_content E self p d w = (r, w1) ->
  dirs w1 = dirs w ∧ (ticks w <= ticks w1)%nat
  ∧ ((r = Ok true ∧ ∃ text, d = Some text ∧ text ≠ []
        ∧ files w1 = <[content_base_dir self ++ p := text]> (files w))
     ∨ (r = Ok false
        ∧ (files w1 = files w
           ∨ files w1 = <[content_base_dir self ++ p := []]> (files w)))).
Proof.
  unfold save_detailed_content. intros H.
  destruct d as [[|c s]|].
  1, 3: minv; (split; [done|]); (split; [lia|]); right; split; [done|by left].
  apply try_except_inv in H as [(a & H & ->)|(e & w2 & H & Hh)].
  - apply bind_inv in H as [([] & w2 & H & Hr)|(e & H & ?)]; [|done].
    apply write_text_file_files in H as (? & ? & [[_ ?]|[[? ?] _]]); [|done].
    minv. split; [done|]. split; [done|]. left. split; [done|]. by exists (c :: s).
  - apply bind_inv in H as [(? & w3 & H & Hr)|(e' & H & ?)]; [by minv|].
    apply write_text_file_files in H as (? & ? & [[? _]|[_ ?]]); [done|].
    minv. simpl. split; [done|]. split; [done|]. right. by split.
Qed.

(** The detail phase either does nothing, or it is an attempt for a cell
    that holds no path: directories may be added, and at most the file of
    the identity is written; a path comes back only with the fetched text
    in that file. *)
Lemma detail_phase_store fd item h existing w r w1 :
  detail_phase E self fd item h existing w = (r, w1) ->
  (w1 = w ∧ r = Ok (existing ≫= id))
  ∨ (fd = true ∧ path_truthy (existing ≫= id) = false
     ∧ dirs w ⊆ dirs w1 ∧ (ticks w <= ticks w1)%nat
     ∧ ((files w1 = files w ∧ ∀ p, r ≠ Ok (Some p))
        ∨ ∃ dt text,
            files w1 = <[content_base_dir self ++ content_file dt h := text]> (files w)
            ∧ ∀ p, r = Ok (Some p) ->
                p = content_file dt h ∧ text ≠ []
                ∧ ∃ url, item !! "url" = Some url
                         ∧ http_detail E (ticks w) url = Some text)).
Proof.
  intros H. unfold detail_phase in H.
  destruct (fd && _) eqn:Hcond.
  - right. apply andb_prop in Hcond as [-> Hcond]. split; [done|].
    split.
    { destruct existing as [cell|]; [|done]. simpl in *. by destruct (path_truthy cell). }
    unfold fetch_detailed_content, slice_to_30 in H.
    minv.
    all: try (match goal with
         | H : get_content_file_path _ _ _ _ _ = _ |- _ =>
             pose proof (fs_grows_get_content_file_path _ _ _ _ _ H) as (? & ? & ?);
             apply get_content_file_path_outcome in H as [_ ?]
         end).
    all: try (match goal with
         | H : save_detailed_content _ _ _ _ _ = _ |- _ =>
             apply save_detailed_content_files in H
               as (? & ? & [[? (? & ? & ? & ?)]|[? [?|?]]])
         end).
    all: simpl in *; simplify_eq.
    all: split;
      [first [done|match goal with
                   | H : dirs ?a = dirs _ |- _ ⊆ dirs ?a => by rewrite H
                   end]|].
    all: split; [lia|].
    all: try (left; split; [congruence|by intros ? ?]; fail).
    all: match goal with
         | H : ∀ p, Ok _ = Ok p -> _ |- _ => destruct (H _ eq_refl) as [dt ->]
         end.
    all: right; exists dt; eexists.
    all: match goal with
         | Hf : files _ = <[_ := _]> _, Hg : files _ = files _ |- _ =>
             rewrite Hf, Hg
         end.
    all: split; [reflexivity|]; intros p Hp; simplify_eq; eauto.
  - left. by destruct existing; minv.
Qed.

Lemma length_append s t :
  String.length (s +:+ t) = (String.length s + String.length t)%nat.
Proof. induction s as [|a s IH]; simpl; [done|]. by rewrite IH. Qed.

Lemma append_inj_l s1 s2 t : s1 +:+ t = s2 +:+ t -> s1 = s2.
Proof.
  revert s2. induction s1 as [|a s1 IH]; intros [|b s2] H; simpl in H.
  - done.
  - apply (f_equal String.length) in H. simpl in H.
    rewrite !length_append in H. simpl in H. lia.
  - apply (f_equal String.length) in H. simpl in H.
    rewrite !length_append in H. simpl in H. lia.
  - injection H as -> H. f_equal. by apply IH.
Qed.

(** The content files of two identities are different files. *)
Lemma content_file_inj dt h dt' h' :
  content_base_dir self ++ content_file dt h
  = content_base_dir self ++ content_file dt' h' -> h = h'.
Proof.
  intros H%app_inv_head. unfold content_file, partition in H. simpl in H.
  injection H as _ _ _ H. by eapply append_inj_l.
Qed.

(** One iteration, as the store sees it: at most the file of the item's
    identity is written, and only when no path is recorded for it; at most
    the row of that identity is written, and a path it receives names a
    file that holds the text just fetched for the item's url. *)
Lemma process_item_summary fd counts item w r w' :
  process_item E self fd counts item w = (r, w') ->
  dirs w ⊆ dirs w' ∧ (ticks w <= ticks w')%nat
  ∧ (files w' = files w
     ∨ ∃ h dt text, get_content_hash item = Ok h
         ∧ path_truthy ((content_file_path <$> db w !! h) ≫= id) = false
         ∧ files w'
           = <[content_base_dir self ++ content_file dt h := text]> (files w))
  ∧ (db w' = db w
     ∨ ∃ h row', get_content_hash item = Ok h
         ∧ path_truthy ((content_file_path <$> db w !! h) ≫= id) = false
         ∧ db w' = <[h := row']> (db w)
         ∧ ∀ p, content_file_path row' = Some p ->
             ∃ dt text url, p = content_file dt h ∧ text ≠ []
               ∧ files w' !! (content_base_dir self ++ p) = Some text
               ∧ item !! "url" = Some url
               ∧ http_detail E (ticks w) url = Some text).
Proof.
  intros H.
  apply process_item_inv in H
    as [(e & _ & _ & ->)|(h & rd & w1 & Hh & Hd & Hdb & H)].
  { repeat split; auto. }
  apply detail_phase_store in Hd
    as [[-> ->]|(-> & Hfalsy & Hdirs & Hticks & Hfiles)].
  - destruct H as [(e & ? & _)|(cfp & Hc & H)]; [done|]. injection Hc as <-.
    apply persist_outcome in H as (Hd' & Hf' & Ht' & H);
      [|by eapply get_content_hash_title].
    rewrite Hd', Hf', Ht'. split; [done|]. split; [done|]. split; [by left|].
    destruct H as [(row & Hrow & Htr & Hfl & _)|[(row & Hrow & _ & ->)
      |[(Hnone & row & Hcfp & _ & _ & _ & Hw)|(_ & _ & ? & ? & _ & _ & Hw & _)]]].
    + rewrite Hrow in Htr. simpl in Htr. congruence.
    + by left.
    + right. exists h, row. split; [done|]. rewrite Hnone. split; [done|].
      split; [done|]. intros p Hp. rewrite Hnone in Hcfp. simpl in Hcfp. congruence.
    + by left.
  - assert (files w1 = files w
      ∨ ∃ h dt text, get_content_hash item = Ok h
          ∧ path_truthy ((content_file_path <$> db w !! h) ≫= id) = false
          ∧ files w1
            = <[content_base_dir self ++ content_file dt h := text]> (files w))
      as Hfiles'.
    { destruct Hfiles as [[? _]|(dt & text & ? & _)]; [by left|right; eauto 10]. }
    destruct H as [(e & -> & -> & ->)|(cfp & -> & H)].
    { split; [done|]. split; [done|]. split; [done|by left]. }
    apply persist_outcome in H as (Hd' & Hf' & Ht' & H);
      [|by eapply get_content_hash_title].
    rewrite Hd', Hf', Ht'. split; [done|]. split; [done|]. split; [done|].
    assert (∀ p, cfp = Some p ->
             ∃ dt text url, p = content_file dt h ∧ text ≠ []
               ∧ files w1 !! (content_base_dir self ++ p) = Some text
               ∧ item !! "url" = Some url
               ∧ http_detail E (ticks w) url = Some text) as Hcfp.
    { intros p ->.
      destruct Hfiles as [[_ Hno]|(dt & text & Hfl & Hp)]; [by destruct (Hno p)|].
      destruct (Hp _ eq_refl) as (-> & ? & url & ? & ?).
      exists dt, text, url. by rewrite Hfl, lookup_insert_eq. }
    rewrite Hdb in H.
    destruct H as [(row & Hrow & _ & _ & _ & _ & Hw)|[(row & Hrow & _ & ->)
      |[(Hnone & row & Hrowp & _ & _ & _ & Hw)|(_ & _ & ? & ? & _ & _ & Hw & _)]]].
    + right. eexists h, _. split; [done|]. split; [done|].
      split; [done|]. simpl. intros p ->. by apply Hcfp.
    + by left.
    + right. exists h, row. split; [done|]. split; [done|].
      split; [done|]. rewrite Hrowp. intros p ->. by apply Hcfp.
    + left. congruence.
Qed.

#[local] Instance store_grows_refl : Reflexive (store_grows self).
Proof. intros w. by repeat split. Qed.

#[local] Instance store_grows_trans : Transitive (store_grows self).
Proof.
  intros w1 w2 w3 (? & ? & Hf12 & Hd12 & Hr12) (? & ? & Hf23 & Hd23 & Hr23).
  split; [by etransitivity|]. split; [lia|]. split; [by auto|]. split; [by auto|].
  intros h row p Hrow Hp.
  destruct (Hr12 _ _ _ Hrow Hp) as [Hrow2 <-]. by apply Hr23.
Qed.

Lemma attached_truthy w h row :
  attached self w h row ->
  path_truthy (content_file_path row) = false -> content_file_path row = None.
Proof.
  intros Hatt Hf. destruct (content_file_path row) as [p|] eqn:Hp; [|done].
  destruct (Hatt p Hp) as [[dt ->] _]. by rewrite content_file_truthy in Hf.
Qed.

(** One iteration keeps table and files in agreement and only adds to the
    store. *)
Lemma process_item_store fd counts item w r w' :
  store_consistent self w ->
  process_item E self fd counts item w = (r, w') ->
  store_consistent self w' ∧ store_grows self w w'.
Proof.
  intros Hcons H.
  apply process_item_summary in H as (Hdirs & Hticks & Hfiles & Hdb).
  assert (∀ h row p, db w !! h = Some row -> content_file_path row = Some p ->
            files w' !! (content_base_dir self ++ p)
            = files w !! (content_base_dir self ++ p)) as Hkept.
  { intros h0 row0 p0 Hrow0 Hp0.
    destruct Hfiles as [->|(h & dt & text & Hh & Hfalsy & ->)]; [done|].
    destruct (Hcons _ _ Hrow0 _ Hp0) as [[dt0 ->] _].
    apply lookup_insert_ne. intros Heq%content_file_inj. subst h0.
    rewrite Hrow0 in Hfalsy. simpl in Hfalsy.
    by rewrite Hp0, content_file_truthy in Hfalsy. }
  assert (∀ h row p, db w !! h = Some row -> content_file_path row = Some p ->
            db w' !! h = Some row) as Hrows.
  { intros h0 row0 p0 Hrow0 Hp0.
    destruct Hdb as [->|(h & row' & Hh & Hfalsy & -> & _)]; [done|].
    rewrite lookup_insert_ne; [done|]. intros ->.
    rewrite Hrow0 in Hfalsy. simpl in Hfalsy.
    pose proof (attached_truthy _ _ _ (Hcons _ _ Hrow0) Hfalsy). congruence. }
  split.
  - assert (map_Forall (attached self w') (db w)) as Hold.
    { intros h0 row0 Hrow0 p0 Hp0.
      destruct (Hcons _ _ Hrow0 _ Hp0) as [Hdt (text & Hfile & Hne)].
      split; [done|]. exists text. split; [|done].
      etransitivity; [by eapply Hkept|done]. }
    destruct Hdb as [Heq|(h & row' & Hh & Hfalsy & Heq & Hnew)];
      unfold store_consistent; rewrite Heq; [done|].
    apply map_Forall_insert_2; [|done].
    intros p Hp. destruct (Hnew _ Hp) as (dt & text & url & -> & ? & ? & _).
    split; [by exists dt|by exists text].
  - split; [done|]. split; [done|]. split; [|split].
    + intros q Hq.
      destruct Hfiles as [->|(h & dt & text & _ & _ & ->)]; [done|].
      apply lookup_insert_is_Some'. by right.
    + intros h0 Hh0.
      destruct Hdb as [->|(h & row' & _ & _ & -> & _)]; [done|].
      apply lookup_insert_is_Some'. by right.
    + intros h0 row0 p0 Hrow0 Hp0. split; [by eapply Hrows|by eapply Hkept].
Qed.

Lemma process_batch_store fd batch counts w r w' :
  store_consistent self w ->
  process_batch E self fd batch counts w = (r, w') ->
  store_consistent self w' ∧ store_grows self w w'.
Proof.
  revert counts w. induction batch as [|item batch IH]; intros counts w Hcons H;
    simpl in H.
  - minv. split; [done|reflexivity].
  - apply bind_inv in H as [(c1 & w1 & H1 & H)|(e & H1 & ->)].
    + apply process_item_store in H1 as [Hcons1 Hg1]; [|done].
      apply IH in H as [Hcons2 Hg2]; [|done].
      split; [done|]. by etransitivity.
    + by eapply process_item_store.
Qed.

(** X3: Table and content files stay in agreement: when every recorded path
    names a content file of its identity that holds a non-empty text, this
    is so again after a run, whether it returns or raises. *)
Theorem store_consistent_preserved fd batch w r w' :
  store_consistent self w ->
  save_news_to_db E self batch fd w = (r, w') ->
  store_consistent self w'.
Proof.
  unfold save_news_to_db. intros Hcons H.
  destruct (process_batch E self fd batch (0%nat, 0%nat) w) as [[c|e] w1] eqn:Hb;
    simplify_eq.
  - by eapply process_batch_store.
  - apply process_batch_store in Hb as [_ (_ & _ & _ & _ & Hrows)]; [|done].
    intros h row Hrow p Hp. simpl in *.
    destruct (Hcons _ _ Hrow _ Hp) as [Hdt (text & Hfile & Hne)].
    split; [done|]. exists text. split; [|done].
    etransitivity; [by eapply Hrows|done].
Qed.

(** X4: A content file that a row points to is never written again: after any
    run it holds what it held before. *)
Theorem attached_file_never_rewritten fd batch w r w' h row p :
  store_consistent self w ->
  save_news_to_db E self batch fd w = (r, w') ->
  db w !! h = Some row -> content_file_path row = Some p ->
  files w' !! (content_base_dir self ++ p) = files w !! (content_base_dir self ++ p).
Proof.
  unfold save_news_to_db. intros Hcons H Hrow Hp.
  destruct (process_batch E self fd batch (0%nat, 0%nat) w) as [[c|e] w1] eqn:Hb;
    simplify_eq.
  all: apply process_batch_store in Hb as [_ (_ & _ & _ & _ & Hrows)]; [|done].
  all: by eapply Hrows.
Qed.

(** X5: The path that an iteration records for an identity that had none names
    the content file of that identity, and this file holds exactly the
    non-empty text that [fetch_detailed_content] returned for the item's url
    in this iteration. *)
Theorem recorded_file_holds_fetched_text fd counts item w r w' h row' p :
  get_content_hash item = Ok h ->
  (content_file_path <$> db w !! h) ≫= id = None ->
  process_item E self fd counts item w = (r, w') ->
  db w' !! h = Some row' -> content_file_path row' = Some p ->
  ∃ dt text url,
    p = content_file dt h ∧ text ≠ []
    ∧ files w' !! (content_base_dir self ++ p) = Some text
    ∧ item !! "url" = Some url
    ∧ http_detail E (ticks w) url = Some text.
Proof.
  intros Hh Hnone H Hrow' Hp.
  apply process_item_summary in H as (_ & _ & _ & Hdb).
  destruct Hdb as [Heq|(h' & row & Hh' & _ & Heq & Hnew)].
  - rewrite Heq in Hrow'. rewrite Hrow' in Hnone. simpl in Hnone. congruence.
  - assert (h' = h) as -> by congruence.
    rewrite Heq, lookup_insert_eq in Hrow'. simplify_eq. by apply Hnew.
Qed.

(** ** Runs without detail *)

Lemma process_item_without_detail_frame counts item w r w' :
  process_item E self false counts item w = (r, w') ->
  dirs w' = dirs w ∧ files w' = files w ∧ ticks w' = ticks w
  ∧ ∃ evs, trace w' = evs ++ trace w ∧ forallb is_save_failure evs = true.
Proof.
  intros H.
  apply process_item_inv in H
    as [(e & _ & _ & ->)|(h & rd & w1 & Hh & Hd & Hdb & H)].
  { repeat split; try done. by exists nil. }
  apply detail_phase_trace in Hd as [Hsame _]. specialize (Hsame eq_refl) as ->.
  destruct H as [(e & _ & _ & ->)|(cfp & _ & H)].
  { repeat split; try done. by exists nil. }
  apply persist_outcome in H as (Hd' & Hf' & Ht' & H);
    [|by eapply get_content_hash_title].
  do 3 (split; [done|]).
  destruct H as [(? & _ & _ & _ & _ & Ht & _)|[(? & _ & _ & ->)
    |[(_ & ? & _ & _ & _ & Ht & _)|(_ & _ & ? & ? & _ & _ & _ & Ht)]]].
  - by exists nil.
  - by exists nil.
  - by exists nil.
  - eexists [_]. by split.
Qed.

Lemma process_batch_without_detail_frame batch counts w r w' :
  process_batch E self false batch counts w = (r, w') ->
  dirs w' = dirs w ∧ files w' = files w ∧ ticks w' = ticks w
  ∧ ∃ evs, trace w' = evs ++ trace w ∧ forallb is_save_failure evs = true.
Proof.
  revert counts w. induction batch as [|item batch IH]; intros counts w H; simpl in H.
  - minv. repeat split; try done. by exists nil.
  - apply bind_inv in H as [(c1 & w1 & H1 & H)|(e & H1 & ->)].
    + apply process_item_without_detail_frame in H1
        as (Hd1 & Hf1 & Ht1 & evs1 & Htr1 & Hall1).
      apply IH in H as (Hd2 & Hf2 & Ht2 & evs2 & Htr2 & Hall2).
      split; [congruence|]. split; [congruence|]. split; [congruence|].
      exists (evs2 ++ evs1). rewrite Htr2, Htr1, app_assoc. split; [done|].
      rewrite forallb_app. by rewrite Hall1, Hall2.
    + by eapply process_item_without_detail_frame.
Qed.

(** X6: Without [fetch_detailed] a run stays inside the table: it makes no
    request and no file system call, whether it returns or raises, and the
    only lines it prints are those of rows that could not be written. *)
Theorem without_detail_only_the_table batch w r w' :
  save_news_to_db E self batch false w = (r, w') ->
  dirs w' = dirs w ∧ files w' = files w ∧ ticks w' = ticks w
  ∧ ∃ evs, trace w' = evs ++ trace w ∧ forallb is_save_failure evs = true.
Proof.
  unfold save_news_to_db. intros H.
  destruct (process_batch E self false batch (0%nat, 0%nat) w) as [[c|e] w1] eqn:Hb;
    simplify_eq; apply process_batch_without_detail_frame in Hb; simpl; done.
Qed.

(** ** What a run never removes *)

Lemma process_batch_monotone fd batch counts w r w' :
  process_batch E self fd batch counts w = (r, w') ->
  dirs w ⊆ dirs w' ∧ (ticks w <= ticks w')%nat
  ∧ (∀ q, is_Some (files w !! q) -> is_Some (files w' !! q))
  ∧ (∀ h, is_Some (db w !! h) -> is_Some (db w' !! h)).
Proof.
  revert counts w. induction batch as [|item batch IH]; intros counts w H; simpl in H.
  { minv. by repeat split. }
  assert (∀ c1 r1 w1, process_item E self fd c1 item w = (r1, w1) ->
            dirs w ⊆ dirs w1 ∧ (ticks w <= ticks w1)%nat
            ∧ (∀ q, is_Some (files w !! q) -> is_Some (files w1 !! q))
            ∧ (∀ h, is_Some (db w !! h) -> is_Some (db w1 !! h))) as Hstep.
  { intros c1 r1 w1 H1.
    apply process_item_summary in H1 as (? & ? & Hfiles & Hdb).
    split; [done|]. split; [done|]. split.
    - intros q Hq.
      destruct Hfiles as [->|(h & dt & text & _ & _ & ->)]; [done|].
      apply lookup_insert_is_Some'. by right.
    - intros h0 Hh0.
      destruct Hdb as [->|(h & row' & _ & _ & -> & _)]; [done|].
      apply lookup_insert_is_Some'. by right. }
  apply bind_inv in H as [(c1 & w1 & H1 & H)|(e & H1 & ->)]; [|by eapply Hstep].
  apply Hstep in H1 as (? & ? & ? & ?). apply IH in H as (? & ? & ? & ?).
  split; [by etransitivity|]. split; [lia|]. split; by auto.
Qed.

(** X7: A run removes nothing: every directory, every file and every row that
    was there before is there after it, whether the run returns or raises;
    when it raises, the files written before the exception stay although
    the rows of the run are discarded. *)
Theorem save_news_to_db_removes_nothing fd batch w r w' :
  save_news_to_db E self batch fd w = (r, w') ->
  dirs w ⊆ dirs w' ∧ (ticks w <= ticks w')%nat
  ∧ (∀ q, is_Some (files w !! q) -> is_Some (files w' !! q))
  ∧ (∀ h, is_Some (db w !! h) -> is_Some (db w' !! h))
  ∧ (∀ e, r = Raise e ->
       db w' = db w
       ∧ ∃ w1, process_batch E self fd batch (0%nat, 0%nat) w = (Raise e, w1)
               ∧ files w' = files w1 ∧ dirs w' = dirs w1).
Proof.
  unfold save_news_to_db. intros H.
  destruct (process_batch E self fd batch (0%nat, 0%nat) w) as [[c|e] w1] eqn:Hb;
    simplify_eq; apply process_batch_monotone in Hb as (? & ? & ? & ?).
  - do 4 (split; [done|]). by intros.
  - simpl. do 4 (split; [done|]). intros ? [= <-]. split; [done|]. by exists w1.
Qed.

(** ** Items of one identity in the same run *)

(** X8: Without detail, an item whose identity occurred earlier in the same
    batch is counted as a duplicate and changes nothing: appending such
    items to a batch of well-formed items adds their number to
    duplicate_count and leaves the final world as it was. *)
Theorem same_identity_later_in_run batch rep w0 :
  Forall (fun item => insertable item = true) batch ->
  Forall (fun item => ∃ item', item' ∈ batch
            ∧ get_content_hash item = get_content_hash item') rep ->
  ∃ n d w1,
    save_news_to_db E self batch false w0 = (Ok (n, d), w1)
    ∧ save_news_to_db E self (batch ++ rep) false w0
      = (Ok (n, (d + length rep)%nat), w1).
Proof.
  intros Hall Hrep.
  destruct (process_batch_without_detail E self batch (0%nat, 0%nat) w0 Hall)
    as ([n d] & w1 & Hrun & _ & Hfull).
  exists n, d, w1. unfold save_news_to_db.
  rewrite process_batch_app, Hrun. split; [done|].
  rewrite process_batch_duplicates; [done|].
  apply forallb_forall. intros item Hin.
  rewrite Forall_forall in Hrep.
  destruct (Hrep item) as (item' & Hin' & Heq).
  { by apply list_elem_of_In. }
  rewrite forallb_forall in Hfull.
  specialize (Hfull item' ltac:(by apply list_elem_of_In)).
  unfold fully_processed in *. by rewrite Heq.
Qed.

(** ** When everything goes well *)

Lemma os_mkdir_dirs p w r w' :
  os_mkdir E p w = (r, w') -> ∀ q, q ∈ dirs w' -> q ∈ dirs w ∨ q = p.
Proof.
  unfold os_mkdir. intros H q Hq. minv; simpl in *; try (by left).
  apply elem_of_union in Hq as [Hq%elem_of_singleton|Hq]; auto.
Qed.

(** [os.makedirs] creates levels of its path and nothing else. *)
Lemma makedirs_from_dirs done todo w r w' :
  makedirs_from E done todo w = (r, w') ->
  ∀ q, q ∈ dirs w' -> q ∈ dirs w ∨ ∃ k, q = done ++ take k todo.
Proof.
  revert done w. induction todo as [|c todo IH]; intros done w H q Hq; simpl in H.
  { minv. by left. }
  apply bind_inv in H as [(w0 & w0' & Hg & H)|(? & ? & ?)]; [|done].
  unfold get_world in Hg. injection Hg as <- <-.
  assert (∀ r1 w1,
            (if is_dir w (done ++ [c]) then ret tt else os_mkdir E (done ++ [c])) w
            = (r1, w1) ->
            q ∈ dirs w1 -> q ∈ dirs w ∨ ∃ k, q = done ++ take k (c :: todo)) as Hstep.
  { intros r1 w1 H1 Hq1. destruct (is_dir w (done ++ [c])).
    - minv. by left.
    - destruct (os_mkdir_dirs _ _ _ _ H1 _ Hq1) as [?| ->]; [by left|].
      right. by exists 1%nat. }
  apply bind_inv in H as [([] & w1 & Hm & H)|(e & Hm & ?)]; [|by eapply Hstep].
  destruct (IH _ _ H _ Hq) as [Hq1|[k ->]]; [by eapply Hstep|].
  right. exists (S k). by rewrite <- app_assoc.
Qed.

Lemma get_content_file_path_parsed h s dt w :
  disk_ok E w -> strptime E s = Some dt ->
  unobstructed w (content_base_dir self ++ partition dt) ->
  ∃ w', get_content_file_path E self h (PStr s) w = (Ok (content_file dt h), w')
    ∧ db w' = db w ∧ trace w' = trace w ∧ files w' = files w
    ∧ (ticks w <= ticks w')%nat
    ∧ all_levels_exist w' (content_base_dir self ++ partition dt)
    ∧ ∀ q, q ∈ dirs w' ->
        q ∈ dirs w ∨ ∃ k, q = take k (content_base_dir self ++ partition dt).
Proof.
  intros Hdisk Hparse Hfree.
  destruct (os_makedirs_succeeds E _ _ Hdisk Hfree) as [w' Hm].
  exists w'.
  assert (get_content_file_path E self h (PStr s) w = (Ok (content_file dt h), w'))
    as Hrun.
  { unfold get_content_file_path, try_except, parse_publish_time.
    rewrite Hparse. unfold bind at 1. unfold ret at 1. by erewrite bind_ok. }
  split; [done|].
  destruct (quiet_get_content_file_path _ _ _ _ _ _ _ Hrun) as [? ?].
  destruct (fs_grows_get_content_file_path _ _ _ _ _ Hrun) as (_ & ? & ?).
  do 4 (split; [done|]).
  split; [by eapply os_makedirs_levels|].
  intros q Hq. by eapply (makedirs_from_dirs [] _ _ _ _ Hm).
Qed.

(** X9: The detail step, when everything goes well: the item is well formed,
    its identity has no content file yet, the article is fetched and can be
    encoded, the date parses, the disk refuses nothing and no file or
    directory is in the way.  Then the item is counted as new, its row
    holds the path of its content file in the partition of its date (the
    year in decimal without padding, month and day on two digits, then the
    identity and [.txt]), the file holds the fetched text, the partition
    exists, and nothing else in the file system has changed. *)
Theorem detail_attached_when_all_goes_well counts item w h vt url text s dt :
  get_content_hash item = Ok h ->
  (db w !! h = None ∧ insertable item = true)
  ∨ (∃ row0, db w !! h = Some row0 ∧ content_file_path row0 = None) ->
  item !! "title" = Some (PStr vt) ->
  item !! "url" = Some url ->
  http_detail E (ticks w) url = Some text ->
  text ≠ [] -> is_Some (Utf8.encode text) ->
  item !! "focus_date" = Some (PStr s) -> strptime E s = Some dt ->
  disk_ok E w ->
  unobstructed w (content_base_dir self ++ partition dt) ->
  is_dir w (content_base_dir self ++ content_file dt h) = false ->
  content_file dt h
  = [pretty (dt_year dt); zero_pad 2 (pretty (dt_month dt));
     zero_pad 2 (pretty (dt_day dt)); h +:+ ".txt"]
  ∧ ∃ w' row,
      process_item E self true counts item w = (Ok (S counts.1, counts.2), w')
      ∧ db w' = <[h := row]> (db w)
      ∧ content_file_path row = Some (content_file dt h)
      ∧ files w' = <[content_base_dir self ++ content_file dt h := text]> (files w)
      ∧ all_levels_exist w' (content_base_dir self ++ partition dt).
Proof.
  intros Hh Hrow Htitle Hurl Hfetch Htext Henc Hfocus Hparse Hdisk Hfree Hnodir.
  split; [reflexivity|].
  set (existing := content_file_path <$> db w !! h).
  assert (negb (bool_decide (is_Some existing))
          || negb (path_truthy (existing ≫= id)) = true) as Hcond.
  { unfold existing.
    destruct Hrow as [[-> _]|(row0 & -> & Hnone)]; simpl; [done|].
    by rewrite Hnone. }
  destruct (detail_phase E self true item h existing w) as [rd w1] eqn:Hd.
  pose proof (same_db_detail_phase _ _ _ _ _ _ _ _ _ Hd) as Hdb. red in Hdb.
  unfold detail_phase in Hd. rewrite Hcond in Hd. simpl in Hd.
  unfold bind, getitem, slice_to_30, print, emit, fetch_detailed_content, tick,
    ret in Hd.
  rewrite Htitle, Hurl in Hd. simpl in Hd. rewrite Hfetch, Hfocus in Hd.
  destruct text as [|c text]; [done|]. simpl in Hd.
  match type of Hd with
  | context [get_content_file_path _ _ _ _ ?W] =>
      destruct (get_content_file_path_parsed h s dt W)
        as (wb & Hg & Hdbb & Htrb & Hfb & Htb & Hlev & Hdirs)
  end.
  { intros t Ht. apply Hdisk. simpl in Ht. lia. }
  { done. }
  { done. }
  rewrite Hg in Hd. unfold save_detailed_content, try_except, bind in Hd.
  destruct (write_text_file_succeeds E (content_base_dir self ++ content_file dt h)
              (c :: text) wb) as [wc Hw].
  { intros t Ht. apply Hdisk. simpl in Htb. lia. }
  { unfold is_dir in Hnodir |- *.
    apply bool_decide_eq_false in Hnodir. apply bool_decide_eq_false.
    intros [Hnil|Hin]; [by apply Hnodir; left|].
    destruct (Hdirs _ Hin) as [Hin'|[k Hk]]; [by apply Hnodir; right|].
    apply (f_equal length) in Hk. unfold content_file in Hk.
    rewrite length_take, !length_app in Hk. simpl in Hk. lia. }
  { unfold content_file. rewrite app_assoc, parent_snoc. by apply take_all_levels. }
  { done. }
  rewrite Hw in Hd. unfold ret, sleep, emit in Hd. simpl in Hd.
  injection Hd as <- <-.
  pose proof (write_text_file_files _ _ _ _ _ Hw) as (Hdc & _ & [[_ Hfc]|[[? ?] _]]);
    [|done].
  set (wd := {| db := db wc; dirs := dirs wc; files := files wc;
                ticks := ticks wc; trace := EvSleep :: trace wc |}).
  assert (process_item E self true counts item w
          = persist E item h existing (Some (content_file dt h)) counts wd) as Hrun.
  { rewrite (process_item_run E self _ _ _ _ _ (Ok (Some (content_file dt h))) wd Hh);
      [done|].
    fold existing. unfold detail_phase. rewrite Hcond. simpl.
    unfold bind, getitem, slice_to_30, print, emit, fetch_detailed_content, tick,
      ret.
    rewrite Htitle, Hurl. simpl. rewrite Hfetch, Hfocus. simpl.
    rewrite Hg. unfold save_detailed_content, try_except, bind.
    by rewrite Hw. }
  simpl in Hdb. rewrite Hrun.
  assert (files wd = <[content_base_dir self ++ content_file dt h := c :: text]>
                       (files w)) as Hfiles.
  { simpl. by rewrite Hfc, Hfb. }
  assert (all_levels_exist wd (content_base_dir self ++ partition dt)) as Hlev'.
  { intros k. specialize (Hlev k). unfold is_dir in Hlev |- *.
    simpl. by rewrite Hdc. }
  destruct Hrow as [[Hnone Hins]|(row0 & Hrow0 & Hnone)].
  - destruct (persist E item h existing (Some (content_file dt h)) counts wd)
      as [r w'] eqn:Hp.
    unfold existing in Hp. rewrite <- Hdb in Hp.
    apply (persist_outcome E item h _ counts wd) in Hp as (Hd' & Hf' & Ht' & Hp);
      [|by eapply get_content_hash_title].
    simpl in Hp. rewrite Hdb in Hp.
    destruct Hp as [(row & Hrow' & _)|[(row & Hrow' & _)
      |[(_ & row & Hcfp & _ & -> & _ & Hw')|(_ & ? & _)]]]; try congruence.
    exists w', row. split; [done|]. split; [done|]. split; [done|].
    split; [by rewrite Hf'|].
    intros k. specialize (Hlev' k). unfold is_dir in Hlev' |- *. by rewrite Hd'.
  - eexists _, _. split.
    + unfold existing. rewrite Hrow0. simpl. rewrite Hnone.
      unfold persist, try_except, write_row. rewrite content_file_truthy. simpl.
      unfold update_content_file_path, bind, get_world, set_db, ret, wd. simpl.
      rewrite Hdb, Hrow0. reflexivity.
    + simpl. split; [reflexivity|]. split; [reflexivity|]. by split.
Qed.

Lemma write_text_file_unencodable p text w :
  disk_ok E w -> is_dir w p = false -> is_dir w (parent p) = true ->
  Utf8.encode text = None ->
  write_text_file E p text w
  = (Raise UnicodeEncodeError,
     {| db := db w; dirs := dirs w; files := <[p := []]> (files w);
        ticks := S (ticks w); trace := trace w |}).
Proof.
  intros Hdisk Hp Hparent Henc.
  unfold write_text_file, bind, tick, get_world, set_files, raise. simpl.
  rewrite (Hdisk (ticks w)) by lia.
  unfold is_dir in Hp, Hparent |- *. simpl. rewrite Hp, Hparent. simpl.
  by rewrite Henc.
Qed.

(** X10: A text that cannot be written: when the content file can be opened but
    its text cannot be encoded, [save_detailed_content] returns [False]
    after logging the failure and leaves the file empty, whatever it held
    before. *)
Theorem unwritable_text_leaves_empty_file p text w :
  disk_ok E w ->
  is_dir w (content_base_dir self ++ p) = false ->
  is_dir w (parent (content_base_dir self ++ p)) = true ->
  Utf8.encode text = None ->
  ∃ w', save_detailed_content E self p (Some text) w = (Ok false, w')
    ∧ files w' = <[content_base_dir self ++ p := []]> (files w)
    ∧ trace w' = EvPrint (MsgSaveContentFailed UnicodeEncodeError) :: trace w
    ∧ dirs w' = dirs w ∧ db w' = db w.
Proof.
  intros Hdisk Hp Hparent Henc.
  pose proof (write_text_file_unencodable _ _ _ Hdisk Hp Hparent Henc) as Hw.
  destruct text as [|c text]; [done|].
  unfold save_detailed_content, try_except.
  erewrite bind_raise by exact Hw.
  unfold bind, print, emit, ret. simpl. by eexists.
Qed.

End Store.

(** ** Statistics *)

Section Stats.
Context (E : Env) (self : CCTVNewsCrawler).

Lemma text_leb_refl s : text_leb s s = true.
Proof.
  induction s as [|a s IH]; simpl; [done|].
  by rewrite N.eqb_refl, IH, orb_true_r.
Qed.

Lemma text_leb_total s t : text_leb s t = true ∨ text_leb t s = true.
Proof.
  revert t. induction s as [|a s IH]; intros [|b t]; simpl; auto.
  destruct (N.ltb_spec a b); [by left|].
  destruct (N.ltb_spec b a); [by right|].
  assert (a = b) as -> by lia. rewrite N.eqb_refl. simpl. apply IH.
Qed.

Lemma text_leb_trans s t u :
  text_leb s t = true -> text_leb t u = true -> text_leb s u = true.
Proof.
  revert t u. induction s as [|a s IH]; intros [|b t] [|c u]; simpl; try done.
  intros H1 H2.
  apply orb_true_iff in H1 as [H1%N.ltb_lt|[H1%N.eqb_eq H1']%andb_true_iff];
    apply orb_true_iff in H2 as [H2%N.ltb_lt|[H2%N.eqb_eq H2']%andb_true_iff].
  - apply orb_true_iff. left. apply N.ltb_lt. lia.
  - apply orb_true_iff. left. apply N.ltb_lt. lia.
  - apply orb_true_iff. left. apply N.ltb_lt. lia.
  - apply orb_true_iff. right. apply andb_true_iff.
    split; [apply N.eqb_eq; lia|by eapply IH].
Qed.

Lemma sql_aggregate_is_Some f l x : x ∈ l -> is_Some (sql_aggregate f l).
Proof.
  destruct l as [|s l]; [by inversion 1|]. intros _. simpl.
  by destruct (sql_aggregate f l); eexists.
Qed.

Lemma sql_min_spec l m :
  sql_min l = Some m -> m ∈ l ∧ ∀ x, x ∈ l -> text_leb m x = true.
Proof.
  revert m. induction l as [|s l IH]; intros m H; [done|].
  simpl in H. fold (sql_min l) in H.
  destruct (sql_min l) as [m0|] eqn:Hm0.
  - destruct (IH _ eq_refl) as [Hin Hle]. injection H as <-.
    unfold text_min. destruct (text_leb s m0) eqn:Hs.
    + split; [apply list_elem_of_here|].
      intros x [->|Hx]%elem_of_cons; [apply text_leb_refl|].
      eapply text_leb_trans; [done|by apply Hle].
    + split; [by apply list_elem_of_further|].
      intros x [->|Hx]%elem_of_cons; [|by apply Hle].
      destruct (text_leb_total m0 s); congruence.
  - injection H as <-. destruct l as [|y l].
    + split; [apply list_elem_of_here|].
      intros x [->|Hx]%elem_of_cons; [apply text_leb_refl|by inversion Hx].
    + exfalso.
      destruct (sql_aggregate_is_Some text_min (y :: l) y (list_elem_of_here _ _))
        as [? Hs].
      unfold sql_min in Hm0. congruence.
Qed.

Lemma sql_max_spec l m :
  sql_max l = Some m -> m ∈ l ∧ ∀ x, x ∈ l -> text_leb x m = true.
Proof.
  revert m. induction l as [|s l IH]; intros m H; [done|].
  simpl in H. fold (sql_max l) in H.
  destruct (sql_max l) as [m0|] eqn:Hm0.
  - destruct (IH _ eq_refl) as [Hin Hle]. injection H as <-.
    unfold text_max. destruct (text_leb s m0) eqn:Hs.
    + split; [by apply list_elem_of_further|].
      intros x [->|Hx]%elem_of_cons; [done|by apply Hle].
    + split; [apply list_elem_of_here|].
      intros x [->|Hx]%elem_of_cons; [apply text_leb_refl|].
      eapply text_leb_trans; [by apply Hle|].
      destruct (text_leb_total m0 s); congruence.
  - injection H as <-. destruct l as [|y l].
    + split; [apply list_elem_of_here|].
      intros x [->|Hx]%elem_of_cons; [apply text_leb_refl|by inversion Hx].
    + exfalso.
      destruct (sql_aggregate_is_Some text_max (y :: l) y (list_elem_of_here _ _))
        as [? Hs].
      unfold sql_max in Hm0. congruence.
Qed.

Lemma elem_of_publish_times d t :
  t ∈ publish_times d ↔ ∃ h row, d !! h = Some row ∧ publish_time row = Some t.
Proof.
  unfold publish_times. rewrite list_elem_of_omap. split.
  - intros ([h row] & Hin%elem_of_map_to_list & Hpt). eauto.
  - intros (h & row & Hrow & Hpt). exists (h, row).
    split; [by apply elem_of_map_to_list|done].
Qed.

(** X11: The statistics of one table: detailed_count is at most total_count,
    and time_range is (NULL, NULL) when no row has a publish_time, and
    otherwise holds the least and the greatest publish_time of the table,
    both of them cells of rows. *)
Theorem get_statistics_snapshot w st w' :
  get_statistics self w = (Ok st, w') ->
  w' = w
  ∧ (detailed_count st <= total_count st)%nat
  ∧ ((time_range st = (None, None)
      ∧ ∀ h row, db w !! h = Some row -> publish_time row = None)
     ∨ ∃ lo hi, time_range st = (Some lo, Some hi)
         ∧ text_leb lo hi = true
         ∧ (∃ h row, db w !! h = Some row ∧ publish_time row = Some lo)
         ∧ (∃ h row, db w !! h = Some row ∧ publish_time row = Some hi)
         ∧ ∀ h row t, db w !! h = Some row -> publish_time row = Some t ->
             text_leb lo t = true ∧ text_leb t hi = true).
Proof.
  unfold get_statistics. intros H. minv. split; [done|]. simpl. split.
  { apply map_subseteq_size, map_filter_subseteq. }
  destruct (sql_min (publish_times (db w'))) as [lo|] eqn:Hlo.
  - destruct (sql_max (publish_times (db w'))) as [hi|] eqn:Hhi.
    + right. exists lo, hi. split; [done|].
      apply sql_min_spec in Hlo as [Hlo_in Hlo].
      apply sql_max_spec in Hhi as [Hhi_in Hhi].
      split; [by apply Hlo|].
      split; [by apply elem_of_publish_times|].
      split; [by apply elem_of_publish_times|].
      intros h row t Hrow Ht.
      assert (t ∈ publish_times (db w')) by (apply elem_of_publish_times; eauto).
      split; [by apply Hlo|by apply Hhi].
    + apply sql_min_spec in Hlo as [Hlo_in _].
      destruct (sql_aggregate_is_Some text_max _ _ Hlo_in) as [? Hsome].
      unfold sql_max in Hhi. congruence.
  - left.
    assert (publish_times (db w') = []) as Hnil.
    { destruct (publish_times (db w')) as [|x l] eqn:Hl; [done|].
      destruct (sql_aggregate_is_Some text_min (x :: l) x) as [? Hsome];
        [apply list_elem_of_here|].
      unfold sql_min in Hlo. congruence. }
    rewrite Hnil. split; [done|].
    intros h row Hrow. destruct (publish_time row) as [t|] eqn:Ht; [|done].
    assert (t ∈ publish_times (db w')) as Hin by (apply elem_of_publish_times; eauto).
    rewrite Hnil in Hin. by inversion Hin.
Qed.

(** One iteration that returns either leaves the table alone and does not
    count the item as new, or counts it as new and writes one row: a new
    one, or a row that now holds a path. *)
Lemma process_item_counts fd counts item w counts' w' :
  process_item E self fd counts item w = (Ok counts', w') ->
  (db w' = db w ∧ counts'.1 = counts.1)
  ∨ (counts'.1 = S counts.1
     ∧ ∃ h row', db w' = <[h := row']> (db w)
         ∧ (db w !! h = None
            ∨ (is_Some (db w !! h) ∧ is_Some (content_file_path row')))).
Proof.
  intros H.
  apply process_item_inv in H
    as [(e & _ & ? & _)|(h & rd & w1 & Hh & Hd & Hdb & H)]; [done|].
  destruct H as [(e & _ & ? & _)|(cfp & -> & H)]; [done|].
  apply persist_outcome in H as (_ & _ & _ & H);
    [|by eapply get_content_hash_title].
  rewrite Hdb in H.
  destruct H as [(row & Hrow & Ht & _ & Hr & _ & Hw)|[(row & Hrow & Hr & ->)
    |[(Hnone & row & _ & _ & Hr & _ & Hw)|(_ & _ & ? & ? & _ & Hr & Hw & _)]]];
    simplify_eq; simpl.
  - right. split; [done|]. eexists h, _. split; [done|]. right.
    split; [by eexists|]. simpl. destruct cfp; [by eexists|done].
  - left. by split.
  - right. split; [done|]. exists h, row. split; [done|by left].
  - left. split; [congruence|done].
Qed.

Lemma statistics_insert d h row' :
  d !! h = None ∨ (is_Some (d !! h) ∧ is_Some (content_file_path row')) ->
  let st := statistics_of d in
  let st' := statistics_of (<[h := row']> d) in
  (total_count st <= total_count st' <= S (total_count st))%nat
  ∧ (detailed_count st <= detailed_count st' <= S (detailed_count st))%nat.
Proof.
  intros Hcase. simpl.
  set (P := fun kv : string * NewsRow => is_Some (content_file_path kv.2)).
  destruct Hcase as [Hnone|[Hrow Hsome]].
  - rewrite map_size_insert_None by done. split; [lia|].
    destruct (decide (P (h, row'))) as [HP|HP].
    + rewrite map_filter_insert_True by done.
      rewrite map_size_insert_None; [lia|].
      apply map_lookup_filter_None_2. by left.
    + rewrite map_filter_insert_False by done.
      rewrite delete_id by done. lia.
  - rewrite map_size_insert_Some by done. split; [lia|].
    rewrite map_filter_insert_True by done.
    destruct (filter P d !! h) eqn:Hf.
    + rewrite map_size_insert_Some by by eexists. lia.
    + rewrite map_size_insert_None by done. lia.
Qed.

Lemma process_batch_statistics fd batch counts w counts' w' :
  process_batch E self fd batch counts w = (Ok counts', w') ->
  let st := statistics_of (db w) in
  let st' := statistics_of (db w') in
  (counts.1 <= counts'.1)%nat
  ∧ (total_count st <= total_count st'
     <= total_count st + (counts'.1 - counts.1))%nat
  ∧ (detailed_count st <= detailed_count st'
     <= detailed_count st + (counts'.1 - counts.1))%nat.
Proof.
  revert counts w. induction batch as [|item batch IH]; intros counts w H; simpl in H.
  { minv. simpl. lia. }
  apply bind_inv in H as [(c1 & w1 & H1 & H)|(e & _ & ?)]; [|done].
  apply IH in H as (Hc & Ht & Hd).
  apply process_item_counts in H1
    as [[Hdb Hc1]|(Hc1 & h & row' & Hdb & Hcase)]; rewrite Hdb in *.
  - simpl in *. lia.
  - pose proof (statistics_insert _ _ _ Hcase) as [Ht1 Hd1].
    simpl in *. lia.
Qed.

(** X12: A run that returns (new_count, duplicate_count) adds at most new_count
    rows to the table and at most new_count rows with a content file, and
    takes none away: total_count and detailed_count of [get_statistics]
    grow by at most new_count and never decrease. *)
Theorem statistics_grow_by_at_most_new_count fd batch w new_count duplicate_count w' :
  save_news_to_db E self batch fd w = (Ok (new_count, duplicate_count), w') ->
  let st := statistics_of (db w) in
  let st' := statistics_of (db w') in
  (total_count st <= total_count st' <= total_count st + new_count)%nat
  ∧ (detailed_count st <= detailed_count st'
     <= detailed_count st + new_count)%nat.
Proof.
  intros H%save_news_to_db_returns.
  apply process_batch_statistics in H as (_ & Ht & Hd). simpl in *. lia.
Qed.

Lemma row_step_publish_time row row' :
  row_step row row' -> publish_time row' = publish_time row.
Proof. by intros [->|(_ & ? & ? & _ & ->)]. Qed.

(** X13: The time range only widens: after any run, the least publish_time of
    the table is at most what it was and the greatest at least what it
    was; a range that was not NULL stays not NULL. *)
Theorem time_range_only_widens fd batch w r w' :
  save_news_to_db E self batch fd w = (r, w') ->
  let st := statistics_of (db w) in
  let st' := statistics_of (db w') in
  (∀ lo, (time_range st).1 = Some lo ->
     ∃ lo', (time_range st').1 = Some lo' ∧ text_leb lo' lo = true)
  ∧ (∀ hi, (time_range st).2 = Some hi ->
       ∃ hi', (time_range st').2 = Some hi' ∧ text_leb hi hi' = true).
Proof.
  intros H. apply save_news_to_db_evolves in H as [Hev _]. simpl.
  assert (∀ t, t ∈ publish_times (db w) -> t ∈ publish_times (db w')) as Hsub.
  { intros t (h & row & Hrow & Ht)%elem_of_publish_times.
    destruct (Hev _ _ Hrow) as (row' & Hrow' & Hstep).
    apply elem_of_publish_times. exists h, row'. split; [done|].
    by rewrite (row_step_publish_time _ _ Hstep). }
  split.
  - intros lo [Hin _]%sql_min_spec. apply Hsub in Hin.
    destruct (sql_aggregate_is_Some text_min _ _ Hin) as [lo' Hlo'].
    exists lo'. split; [done|]. apply sql_min_spec in Hlo' as [_ Hle]. by apply Hle.
  - intros hi [Hin _]%sql_max_spec. apply Hsub in Hin.
    destruct (sql_aggregate_is_Some text_max _ _ Hin) as [hi' Hhi'].
    exists hi'. split; [done|]. apply sql_max_spec in Hhi' as [_ Hle]. by apply Hle.
Qed.

End Stats.

(** ** Reading the content back *)

Section ReadBack.
Context (E : Env) (self : CCTVNewsCrawler).

#[local] Instance preserves_fs_refl : Reflexive preserves_fs.
Proof. intros w Hwf. exact Hwf. Qed.
#[local] Instance preserves_fs_trans : Transitive preserves_fs.
Proof. intros x y z Hxy Hyz Hx. by apply Hyz, Hxy. Qed.

Lemma preserves_fs_tick : keeps preserves_fs tick.
Proof. intros w r w' H Hwf. minv. exact Hwf. Qed.
Lemma preserves_fs_emit ev : keeps preserves_fs (emit ev).
Proof. intros w r w' H Hwf. minv. exact Hwf. Qed.

Lemma preserves_fs_os_mkdir p : keeps preserves_fs (os_mkdir E p).
Proof.
  intros w r w' H [Hroot Hwf]. unfold os_mkdir in H. minv; simpl; try done.
  split; [done|]. simpl. intros q [->%elem_of_singleton|Hq]%elem_of_union; [|by auto].
  apply orb_false_elim in Heqb0 as [_ Hfile].
  unfold is_file in Hfile. apply bool_decide_eq_false in Hfile. simpl in Hfile.
  by apply eq_None_not_Some.
Qed.

Lemma preserves_fs_makedirs_from done todo :
  keeps preserves_fs (makedirs_from E done todo).
Proof.
  revert done. induction todo as [|c todo IH]; intros done; simpl.
  - keeps_tac.
  - pose proof (preserves_fs_os_mkdir (done ++ [c])). keeps_tac.
Qed.

Lemma preserves_fs_write_text_file p text :
  keeps preserves_fs (write_text_file E p text).
Proof.
  intros w r w' H [Hroot Hwf]. unfold write_text_file in H.
  minv; simpl; try done.
  all: match goal with
       | H : is_dir _ _ = false |- _ =>
           unfold is_dir in H; apply bool_decide_eq_false in H; simpl in H
       end.
  all: split; simpl;
    [rewrite lookup_insert_ne; [done|]; intros ->; tauto
    |intros q Hq; rewrite lookup_insert_ne; [by auto|]; intros ->; tauto].
Qed.

Lemma preserves_fs_detail_phase fd item h existing :
  keeps preserves_fs (detail_phase E self fd item h existing).
Proof.
  unfold detail_phase, fetch_detailed_content, slice_to_30, print, sleep,
    get_content_file_path, parse_publish_time, os_makedirs, save_detailed_content.
  pose proof preserves_fs_tick. pose proof preserves_fs_emit.
  pose proof preserves_fs_makedirs_from. pose proof preserves_fs_write_text_file.
  keeps_tac.
Qed.

Lemma preserves_fs_process_item fd counts item :
  keeps preserves_fs (process_item E self fd counts item).
Proof.
  intros w r w' H Hwf.
  apply process_item_inv in H
    as [(e & _ & _ & ->)|(h & rd & w1 & Hh & Hd & Hdb & H)]; [done|].
  apply preserves_fs_detail_phase in Hd. specialize (Hd Hwf).
  destruct H as [(e & _ & _ & ->)|(cfp & _ & H)]; [done|].
  apply persist_outcome in H as (Hd' & Hf' & _ & _);
    [|by eapply get_content_hash_title].
  unfold fs_wellformed. by rewrite Hd', Hf'.
Qed.

Lemma preserves_fs_process_batch fd batch counts :
  keeps preserves_fs (process_batch E self fd batch counts).
Proof.
  revert counts. induction batch as [|item batch IH]; intros counts; simpl.
  - keeps_tac.
  - pose proof (preserves_fs_process_item fd). keeps_tac.
Qed.

Lemma preserves_fs_save_news_to_db fd batch :
  keeps preserves_fs (save_news_to_db E self batch fd).
Proof.
  intros w r w' H Hwf. unfold save_news_to_db in H.
  destruct (process_batch E self fd batch (0%nat, 0%nat) w) as [[c|e] w1] eqn:Hb;
    simplify_eq; by apply preserves_fs_process_batch in Hb; apply Hb in Hwf.
Qed.

Lemma universal_newlines_id s : 13 ∉ s -> universal_newlines s = s.
Proof.
  induction s as [|c s IH]; intros Hs; simpl; [done|].
  destruct (N.eqb_spec c 13) as [->|_].
  - exfalso. apply Hs. apply list_elem_of_here.
  - rewrite IH; [done|]. intros ?. apply Hs. by apply list_elem_of_further.
Qed.

(** Reading a file that is there, on a disk that refuses nothing. *)
Lemma read_text_file_reads p text w :
  fs_wellformed w -> disk_ok E w -> files w !! p = Some text ->
  read_text_file E p w
  = (Ok (universal_newlines text),
     {| db := db w; dirs := dirs w; files := files w;
        ticks := S (S (ticks w)); trace := trace w |}).
Proof.
  intros [Hroot Hwf] Hdisk Hfile.
  unfold read_text_file, bind, tick, get_world, ret. simpl.
  rewrite (Hdisk (ticks w)) by lia.
  assert (is_dir w p = false) as Hnodir.
  { unfold is_dir. apply bool_decide_eq_false. intros [->|Hin]; [congruence|].
    rewrite (Hwf _ Hin) in Hfile. done. }
  unfold is_dir in Hnodir |- *. simpl. rewrite Hnodir, Hfile. simpl.
  by rewrite (Hdisk (S (ticks w))) by lia.
Qed.

(** X14: What the crawler attached, the viewer reads: in a consistent store on a
    well-formed file system, [read_detailed_content] of a viewer with the
    crawler's database and base directory returns, for every identity whose
    row holds a path, the text of its content file (with line ends
    normalised), which is not empty; it fails only when the operating
    system refuses the call. *)
Theorem attached_content_is_readable (viewer : Viewer.NewsViewer) w h row p :
  Viewer.db_path viewer = db_path self ->
  Viewer.content_base_dir viewer = content_base_dir self ->
  store_consistent self w -> fs_wellformed w -> disk_ok E w ->
  db w !! h = Some row -> content_file_path row = Some p ->
  ∃ text w',
    files w !! (content_base_dir self ++ p) = Some text ∧ text ≠ []
    ∧ Viewer.read_detailed_content E viewer h w
      = (Ok (Some (universal_newlines text)), w')
    ∧ db w' = db w ∧ dirs w' = dirs w ∧ files w' = files w.
Proof.
  intros _ Hbase Hcons Hwf Hdisk Hrow Hp.
  destruct (Hcons _ _ Hrow _ Hp) as [[dt ->] (text & Hfile & Hne)].
  exists text. eexists. split; [done|]. split; [done|].
  unfold Viewer.read_detailed_content, select_content_file_path.
  unfold bind at 1. unfold bind at 1. unfold get_world, ret at 1.
  rewrite Hrow.
  change (content_file_path <$> Some row) with (Some (content_file_path row)).
  rewrite Hp. cbv beta iota. rewrite content_file_truthy, Hbase.
  unfold try_except. erewrite bind_ok by by apply read_text_file_reads.
  unfold ret. simpl. by repeat split.
Qed.

(** X15: Round trip of the detail step: when an iteration has recorded a path for
    an identity that had none, the viewer reads back, from the world the
    iteration left, the text that [fetch_detailed_content] returned for the
    item's url, with its line ends normalised; a text without carriage
    return is read back unchanged. *)
Theorem read_back_what_was_fetched (viewer : Viewer.NewsViewer)
    fd counts item w r w' h row' p :
  Viewer.db_path viewer = db_path self ->
  Viewer.content_base_dir viewer = content_base_dir self ->
  fs_wellformed w ->
  get_content_hash item = Ok h ->
  (content_file_path <$> db w !! h) ≫= id = None ->
  process_item E self fd counts item w = (r, w') ->
  db w' !! h = Some row' -> content_file_path row' = Some p ->
  disk_ok E w' ->
  ∃ url text w'',
    item !! "url" = Some url
    ∧ http_detail E (ticks w) url = Some text
    ∧ Viewer.read_detailed_content E viewer h w'
      = (Ok (Some (universal_newlines text)), w'')
    ∧ (13 ∉ text -> universal_newlines text = text).
Proof.
  intros _ Hbase Hwf Hh Hnone H Hrow' Hp Hdisk.
  pose proof (preserves_fs_process_item _ _ _ _ _ _ H Hwf) as Hwf'.
  apply process_item_summary in H as (_ & _ & _ & Hdb).
  destruct Hdb as [Heq|(h' & row & Hh' & _ & Heq & Hnew)].
  { rewrite Heq in Hrow'. rewrite Hrow' in Hnone. simpl in Hnone. congruence. }
  assert (h' = h) as -> by congruence.
  rewrite Heq, lookup_insert_eq in Hrow'. simplify_eq.
  destruct (Hnew _ Hp) as (dt & text & url & -> & Hne & Hfile & Hurl & Hfetch).
  exists url, text. eexists. split; [done|]. split; [done|].
  split; [|apply universal_newlines_id].
  unfold Viewer.read_detailed_content, select_content_file_path.
  unfold bind at 1. unfold bind at 1. unfold get_world, ret at 1.
  rewrite Heq, lookup_insert_eq.
  change (content_file_path <$> Some row') with (Some (content_file_path row')).
  rewrite Hp. cbv beta iota. rewrite content_file_truthy, Hbase.
  unfold try_except. erewrite bind_ok by by apply read_text_file_reads.
  reflexivity.
Qed.

End ReadBack.

(** ** The feed *)

Section FeedProperties.
Context (E : Env) (F : Feed) (self : CCTVNewsCrawler).

Lemma upto_last_close_line a b : upto_last_close (a ++ 10 :: b) = upto_last_close a.
Proof.
  induction a as [|c a IH]; simpl; [done|].
  destruct (c =? 10); [done|]. by rewrite IH.
Qed.

Lemma re_search_braces_line a b :
  re_search_braces (a ++ 10 :: b)
  = match re_search_braces a with
    | Some m => Some m
    | None => re_search_braces b
    end.
Proof.
  induction a as [|c a IH]; simpl; [done|].
  destruct (c =? 123); [|done].
  rewrite upto_last_close_line. by destruct (upto_last_close a).
Qed.

(** X16: [parse_jsonp] reads one line: the first line of the text in which an
    opening brace is followed by a closing one decides the result, whatever
    the other lines hold; so an object that is spread over several lines is
    never handed to [json.loads] as a whole. *)
Theorem parse_jsonp_first_matching_line a b :
  parse_jsonp F (a ++ 10 :: b)
  = match re_search_braces a with
    | Some _ => parse_jsonp F a
    | None => parse_jsonp F b
    end.
Proof.
  unfold parse_jsonp. rewrite re_search_braces_line.
  by destruct (re_search_braces a).
Qed.

Lemma upto_last_close_none post : 125 ∉ post -> upto_last_close post = None.
Proof.
  induction post as [|c post IH]; intros Hpost; simpl; [done|].
  destruct (c =? 10); [done|].
  rewrite IH by (intros ?; apply Hpost; by apply list_elem_of_further).
  destruct (N.eqb_spec c 125) as [->|_]; [|done].
  exfalso. apply Hpost. apply list_elem_of_here.
Qed.

Lemma upto_last_close_body body post :
  10 ∉ body -> 125 ∉ post ->
  upto_last_close (body ++ 125 :: post) = Some (body ++ [125]).
Proof.
  intros Hbody Hpost. induction body as [|c body IH]; simpl.
  - by rewrite upto_last_close_none.
  - destruct (N.eqb_spec c 10) as [->|_].
    { exfalso. apply Hbody. apply list_elem_of_here. }
    rewrite IH; [done|]. intros ?. apply Hbody. by apply list_elem_of_further.
Qed.

Lemma re_search_braces_wrapped pre body post :
  123 ∉ pre -> 10 ∉ body -> 125 ∉ post ->
  re_search_braces (pre ++ 123 :: body ++ 125 :: post) = Some (123 :: body ++ [125]).
Proof.
  intros Hpre Hbody Hpost. induction pre as [|c pre IH]; simpl.
  - by rewrite upto_last_close_body.
  - destruct (N.eqb_spec c 123) as [->|_].
    { exfalso. apply Hpre. apply list_elem_of_here. }
    apply IH. intros ?. apply Hpre. by apply list_elem_of_further.
Qed.

(** X17: JSONP unwrapping: an object written on one line is found inside any
    wrapper that has no opening brace before it and no closing brace after
    it, such as [callback(] and [);]: the result is that of the bare
    object. *)
Theorem parse_jsonp_unwraps_callback pre body post :
  123 ∉ pre -> 10 ∉ body -> 125 ∉ post ->
  parse_jsonp F (pre ++ 123 :: body ++ 125 :: post)
  = parse_jsonp F (123 :: body ++ [125]).
Proof.
  intros Hpre Hbody Hpost. unfold parse_jsonp.
  rewrite re_search_braces_wrapped by done.
  assert (re_search_braces (123 :: body ++ [125]) = Some (123 :: body ++ [125]))
    as Hbare.
  { apply (re_search_braces_wrapped [] body []); try done; by inversion 1. }
  by rewrite Hbare.
Qed.

Lemma slice_to_10_length v p :
  slice_to_10 v = Some p -> (length (page_elements p) <= 10)%nat.
Proof.
  unfold slice_to_10. intros H. destruct v; simplify_eq; simpl;
    rewrite ?length_fmap, length_take; lia.
Qed.

(** One call of [fetch_news_page]: one tick, a page of at most ten
    elements, and no exception. *)
Lemma fetch_news_page_run page_num w :
  ∃ p,
    fetch_news_page F page_num w
    = (Ok p, {| db := db w; dirs := dirs w; files := files w;
                ticks := S (ticks w); trace := trace w |})
    ∧ (length (page_elements p) <= 10)%nat.
Proof.
  unfold fetch_news_page, bind, tick. simpl.
  destruct (requests_get F (ticks w) (api_url page_num)) as [|status text].
  { exists (PageList []). split; [done|simpl; lia]. }
  destruct (status =? 200)%Z.
  - destruct (slice_to_10 (parse_jsonp F text)) as [p|] eqn:Hslice.
    + exists p. split; [done|]. by eapply slice_to_10_length.
    + exists (PageList []). split; [done|simpl; lia].
  - exists (PageList []). split; [done|simpl; lia].
Qed.

(** X18: [fetch_news_page] never raises and never yields more than ten
    elements: it makes one request; from a response of status 200 it
    returns what [parse_jsonp] finds, cut to ten: the first ten elements of
    a list, the first ten characters of a string, and the empty list for
    anything else; for any other status, and when the request raises, it
    returns the empty list.  It leaves the table and the file system
    alone. *)
Theorem fetch_news_page_degrades page_num w :
  ∃ p,
    fetch_news_page F page_num w
    = (Ok p, {| db := db w; dirs := dirs w; files := files w;
                ticks := S (ticks w); trace := trace w |})
    ∧ (length (page_elements p) <= 10)%nat
    ∧ ((∀ text, requests_get F (ticks w) (api_url page_num) ≠ Response 200 text) ->
       p = PageList [])
    ∧ (∀ text, requests_get F (ticks w) (api_url page_num) = Response 200 text ->
         match parse_jsonp F text with
         | JArr l => p = PageList (take 10 l)
         | JStr s => p = PageText (take 10 s)
         | _ => p = PageList []
         end).
Proof.
  unfold fetch_news_page, bind, tick. simpl.
  destruct (requests_get F (ticks w) (api_url page_num)) as [|status text].
  { exists (PageList []). split; [done|]. split; [simpl; lia|]. by split. }
  destruct (Z.eqb_spec status 200) as [->|Hne].
  - destruct (slice_to_10 (parse_jsonp F text)) as [p|] eqn:Hslice.
    + exists p. split; [done|]. split; [by eapply slice_to_10_length|].
      split; [intros Hno; by destruct (Hno text)|].
      intros text' [= <-]. unfold slice_to_10 in Hslice.
      by destruct (parse_jsonp F text); simplify_eq.
    + exists (PageList []). split; [done|]. split; [simpl; lia|].
      split; [done|]. intros text' [= <-]. unfold slice_to_10 in Hslice.
      by destruct (parse_jsonp F text); simplify_eq.
  - exists (PageList []). split; [done|]. split; [simpl; lia|].
    split; [done|]. intros text' [= ? _]. done.
Qed.

(** The loop over the pages: one request and one sleep per page, at most
    ten elements per page, and nothing else. *)
Lemma collect_pages_run pages all_news w :
  ∃ news,
    collect_pages F pages all_news w
    = (Ok (all_news ++ news),
       {| db := db w; dirs := dirs w; files := files w;
          ticks := (length pages + ticks w)%nat;
          trace := replicate (length pages) EvSleep ++ trace w |})
    ∧ (length news <= 10 * length pages)%nat
    ∧ ((∀ n w0 p w1, fetch_news_page F n w0 = (Ok p, w1) -> page_truthy p = false) ->
       news = []).
Proof.
  revert all_news w. induction pages as [|n pages IH]; intros all_news w; simpl.
  { exists nil. rewrite app_nil_r. split; [by rewrite world_eta|]. by split. }
  destruct (fetch_news_page_run n w) as (p & Hp & Hlen).
  erewrite bind_ok by exact Hp.
  unfold bind at 1. unfold sleep, emit.
  match goal with
  | |- context [collect_pages F pages ?a ?w1] => destruct (IH a w1) as (news & Hrun & Hn & Hempty)
  end.
  rewrite Hrun. simpl.
  assert (replicate (length pages) EvSleep ++ EvSleep :: trace w
          = EvSleep :: replicate (length pages) EvSleep ++ trace w) as ->.
  { change (EvSleep :: trace w) with ([EvSleep] ++ trace w).
    rewrite app_assoc. change [EvSleep] with (replicate 1 EvSleep).
    rewrite <- replicate_add, Nat.add_comm. done. }
  replace (length pages + S (ticks w))%nat with (S (length pages + ticks w)) by lia.
  destruct (page_truthy p) eqn:Htruthy.
  - exists (page_elements p ++ news). rewrite app_assoc. split; [done|].
    split; [rewrite length_app; lia|].
    intros Hall. rewrite (Hall _ _ _ _ Hp) in Htruthy. done.
  - exists news. split; [done|]. split; [lia|done].
Qed.

(** X19: A run that collects nothing leaves the store alone: when every page
    comes back empty, [run_crawler] returns after one request and one sleep
    per page, without opening the table or touching a file. *)
Theorem run_crawler_without_news fd max_pages w :
  (∀ n w0 p w1, fetch_news_page F n w0 = (Ok p, w1) -> page_truthy p = false) ->
  run_crawler E F self fd max_pages w
  = (Ok NoNews,
     {| db := db w; dirs := dirs w; files := files w;
        ticks := (max_pages + S (ticks w))%nat;
        trace := replicate max_pages EvSleep ++ trace w |}).
Proof.
  intros Hall. unfold run_crawler. unfold bind at 1. unfold tick.
  destruct (collect_pages_run (seq 1 max_pages) []
              {| db := db w; dirs := dirs w; files := files w;
                 ticks := S (ticks w); trace := trace w |})
    as (news & Hrun & _ & Hempty).
  rewrite (Hempty Hall) in Hrun. erewrite bind_ok by exact Hrun.
  simpl. by rewrite length_seq.
Qed.

(** A run that finishes has saved what it collected and then read the
    statistics. *)
Lemma run_crawler_inv fd max_pages w n d stats w' :
  run_crawler E F self fd max_pages w = (Ok (Finished n d stats), w') ->
  ∃ news_list w1,
    news_list ≠ [] ∧ (length news_list <= 10 * max_pages)%nat
    ∧ db w1 = db w ∧ dirs w1 = dirs w ∧ files w1 = files w
    ∧ save_news_to_db E self news_list fd w1 = (Ok (n, d), w')
    ∧ stats = statistics_of (db w').
Proof.
  unfold run_crawler. unfold bind at 1. unfold tick. intros H.
  destruct (collect_pages_run (seq 1 max_pages) []
              {| db := db w; dirs := dirs w; files := files w;
                 ticks := S (ticks w); trace := trace w |})
    as (news & Hrun & Hlen & _).
  erewrite bind_ok in H by exact Hrun. simpl in H, Hlen.
  rewrite length_seq in H, Hlen.
  destruct news as [|v news]; [by minv|].
  destruct (as_items (v :: news)) as [news_list|] eqn:Hitems; [|by minv].
  assert (length (v :: news) = length news_list) as Hlen'.
  { unfold as_items in Hitems. by apply length_mapM in Hitems. }
  clear Hitems.
  apply bind_inv in H as [([n0 d0] & w2 & Hsave & H)|(e & _ & ?)]; [|done].
  unfold get_statistics in H. minv. simpl in *.
  match type of Hsave with
  | save_news_to_db _ _ _ _ ?W = _ => exists news_list, W
  end.
  split.
  { intros ->. discriminate Hlen'. }
  split; [lia|]. by repeat split.
Qed.

(** X20: What a finished run reports: the batch it saved is what the pages
    yielded, at most ten items per page; the counters are those of
    [save_news_to_db] and cover at most that many items; the statistics are
    those of the table the run left, whose total is at most the former
    total plus new_count. *)
Theorem run_crawler_report fd max_pages w n d stats w' :
  run_crawler E F self fd max_pages w = (Ok (Finished n d stats), w') ->
  ∃ news_list w1,
    news_list ≠ [] ∧ (length news_list <= 10 * max_pages)%nat
    ∧ db w1 = db w ∧ dirs w1 = dirs w ∧ files w1 = files w
    ∧ save_news_to_db E self news_list fd w1 = (Ok (n, d), w')
    ∧ (n + d <= length news_list)%nat
    ∧ stats = statistics_of (db w')
    ∧ (total_count stats <= total_count (statistics_of (db w)) + n)%nat.
Proof.
  intros H.
  apply run_crawler_inv in H
    as (news_list & w1 & Hne & Hlen & Hdb & Hdirs & Hfiles & Hsave & ->).
  exists news_list, w1. do 6 (split; [done|]).
  apply save_news_to_db_returns in Hsave.
  pose proof (process_batch_tally _ _ _ _ _ _ _ _ Hsave) as (evs & _ & Hc & _).
  pose proof (process_batch_statistics _ _ _ _ _ _ _ _ Hsave) as (_ & Ht & _).
  rewrite Hdb in Ht. simpl in *. split; [lia|]. split; [done|]. lia.
Qed.

End FeedProperties.

(** X21: [main] handles at most seventy items in a run: seven pages of at most
    ten. *)
Theorem main_takes_at_most_seventy E F w n d stats w' :
  main E F w = (Ok (Finished n d stats), w') -> (n + d <= 70)%nat.
Proof.
  unfold main. intros H.
  apply run_crawler_inv in H as (news_list & w1 & _ & Hlen & _ & _ & _ & Hsave & _).
  apply save_news_to_db_returns in Hsave.
  apply process_batch_tally in Hsave as (evs & _ & Hc & _).
  simpl in Hc. lia.
Qed.


(** ** Exceptions that leave a run, and cells that never change *)

Section Escapes.
Context (E : Env) (self : CCTVNewsCrawler).


(** X23: First write wins: whatever a run is given, the title, summary,
    publish_time and keywords of a row that is already in the table are
    never changed, also when the same identity arrives again with another
    date, other keywords or another url; the row changes at all only when a
    content file is attached to a row that had none. *)
Theorem metadata_first_write_wins batch fd w r w' h row :
  save_news_to_db E self batch fd w = (r, w') ->
  db w !! h = Some row ->
  ∃ row', db w' !! h = Some row'
    ∧ title row' = title row ∧ summary row' = summary row
    ∧ publish_time row' = publish_time row ∧ keywords row' = keywords row
    ∧ (row' = row
       ∨ (path_truthy (content_file_path row) = false
          ∧ path_truthy (content_file_path row') = true)).
Proof.
  intros H Hrow. apply save_news_to_db_evolves in H as [Hev _].
  destruct (Hev _ _ Hrow) as (row' & Hrow' & Hstep).
  exists row'. split; [done|].
  destruct Hstep as [->|(Hf & cfp & now & Ht & ->)]; simpl.
  - repeat split; try done. by left.
  - repeat split; try done. by right.
Qed.

End Escapes.

(** ** The text of an article *)

Section ArticleText.

Lemma stripped_solid t : stripped t = true -> nonempty t = true -> solid t.
Proof.
  unfold stripped. intros Hs Hne.
  destruct t as [|c t]; [done|]. simpl in Hs.
  destruct (last (c :: t)) as [d|] eqn:Hlast.
  - apply last_Some in Hlast as [t' Ht'].
    apply andb_prop in Hs as [Hc%negb_true_iff Hd%negb_true_iff].
    split; [by exists c, t|]. exists d, t'. by rewrite Ht'.
  - by apply last_None in Hlast.
Qed.

Lemma solid_join a b : solid a -> solid b -> solid (a ++ 10 :: b).
Proof.
  intros [(c & a' & -> & Hc) _] [_ (d & b' & -> & Hd)]. split.
  - by exists c, (a' ++ 10 :: b' ++ [d]).
  - exists d, ((c :: a') ++ 10 :: b'). split; [|done].
    by rewrite <- !app_assoc.
Qed.

Lemma solid_lines_joined ls :
  ls ≠ [] -> Forall solid ls -> solid (lines_joined ls).
Proof.
  induction ls as [|t ls IH]; intros Hne Hall; [done|].
  apply Forall_cons in Hall as [Ht Hall]. simpl.
  destruct ls as [|t' ls]; [done|].
  apply solid_join; [done|]. by apply IH.
Qed.

Lemma py_lstrip_solid s : solid s -> py_lstrip s = s.
Proof. intros [(c & s' & -> & Hc) _]. simpl. by rewrite Hc. Qed.

Lemma py_rstrip_solid s : solid s -> py_rstrip s = s.
Proof.
  intros [_ (d & s' & -> & Hd)]. unfold py_rstrip.
  rewrite reverse_snoc. simpl. rewrite Hd.
  by rewrite reverse_cons, reverse_involutive.
Qed.

Lemma py_strip_line s : solid s -> py_strip (s ++ [10]) = s.
Proof.
  intros Hs. unfold py_strip.
  assert (py_lstrip (s ++ [10]) = s ++ [10]) as ->.
  { destruct Hs as [(c & s' & -> & Hc) _]. simpl. by rewrite Hc. }
  unfold py_rstrip. rewrite reverse_snoc.
  change (py_lstrip (10 :: reverse s)) with (py_lstrip (reverse s)).
  by apply py_rstrip_solid.
Qed.

Lemma py_strip_solid s : solid s -> py_strip s = s.
Proof.
  intros Hs. unfold py_strip. rewrite py_lstrip_solid by done.
  by apply py_rstrip_solid.
Qed.

Lemma content_text_foldl acc texts :
  foldl (fun content_text text =>
           match text with
           | [] => content_text
           | _ :: _ => content_text ++ text ++ [10]
           end) acc texts
  = acc ++ concat ((fun t => t ++ [10]) <$> List.filter nonempty texts).
Proof.
  revert acc. induction texts as [|t texts IH]; intros acc; simpl.
  { by rewrite app_nil_r. }
  rewrite IH. destruct t as [|c t]; simpl; [done|].
  rewrite <- (app_assoc acc). reflexivity.
Qed.

Lemma concat_lines ls :
  ls ≠ [] -> concat ((fun t => t ++ [10]) <$> ls) = lines_joined ls ++ [10].
Proof.
  induction ls as [|t ls IH]; intros Hne; [done|].
  destruct ls as [|t' ls]; [simpl; by rewrite app_nil_r|].
  rewrite fmap_cons.
  change (concat ((t ++ [10]) :: ((fun t => t ++ [10]) <$> t' :: ls)))
    with ((t ++ [10]) ++ concat ((fun t => t ++ [10]) <$> t' :: ls)).
  rewrite IH by done.
  change (lines_joined (t :: t' :: ls)) with (t ++ 10 :: lines_joined (t' :: ls)).
  by rewrite <- !app_assoc.
Qed.

(** X24: The text that [fetch_detailed_content] assembles: the texts of the
    elements that are not empty, one per line, with no line feed at the
    end; it is empty only when every element is empty, and then the caller
    treats it as no content at all. *)
Theorem content_text_one_paragraph_per_line texts :
  Forall (fun t => stripped t = true) texts ->
  content_text texts = lines_joined (List.filter nonempty texts)
  ∧ (py_truthy (Some (content_text texts)) = false
     <-> Forall (fun t => t = []) texts)
  ∧ py_strip (content_text texts) = content_text texts.
Proof.
  intros Hall. unfold content_text. rewrite content_text_foldl.
  rewrite app_nil_l.
  pose proof (fun t => filter_In nonempty t texts) as Hfilter.
  revert Hfilter. generalize (List.filter nonempty texts). intros ls Hfilter.
  assert (Forall solid ls) as Hsolid.
  { apply Forall_forall. intros t [Hin Hne]%list_elem_of_In%Hfilter.
    apply stripped_solid; [|done]. rewrite Forall_forall in Hall.
    by apply Hall, list_elem_of_In. }
  destruct ls as [|t ls'].
  - split; [done|]. split; [|done]. split; [|done]. intros _.
    apply Forall_forall. intros t Hin%list_elem_of_In.
    destruct t as [|c t]; [done|].
    assert (In (c :: t) []) as Hin' by by apply Hfilter.
    by inversion Hin'.
  - rewrite concat_lines by done.
    assert (solid (lines_joined (t :: ls'))) as Hjoined
      by by apply solid_lines_joined.
    rewrite py_strip_line by done. split; [done|].
    split; [|by apply py_strip_solid].
    destruct Hjoined as [(c & s' & Heq & _) _]. rewrite Heq. simpl.
    split; [done|]. intros Hempty. exfalso.
    assert (In t (t :: ls')) as Hin by by left.
    apply Hfilter in Hin as [Hin%list_elem_of_In Hne].
    rewrite Forall_forall in Hempty. rewrite (Hempty _ Hin) in Hne. done.
Qed.

End ArticleText.

(** * Scenarios *)

(** With detail: the article goes to [news/2024/01/01/{hash}.txt], the row
    points to it, and the run returns (1, 0). *)
Example scenario_with_detail :
  let run := save_news_to_db env_online default_crawler [item_AB] true empty_world in
  run.1 = Ok (1%nat, 0%nat)
  ∧ db run.2 !! hash_AB = Some row_AB_detailed
  ∧ files run.2 !! ["news"; "2024"; "01"; "01"; hash_AB +:+ ".txt"]%string
    = Some (pystr_of_string "Paragraph one." ++ [10] ++ pystr_of_string "Paragraph two.").
Proof. repeat split; vm_compute; reflexivity. Qed.

(** The detail fetch fails on the first run and succeeds on the second: the
    second run counts the backfill as new and no duplicate. *)
Example scenario_backfill :
  let first := save_news_to_db env_offline default_crawler [item_AB] true empty_world in
  let second := save_news_to_db env_online default_crawler [item_AB] true first.2 in
  first.1 = Ok (1%nat, 0%nat)
  ∧ (content_file_path <$> db first.2 !! hash_AB) = Some None
  ∧ second.1 = Ok (1%nat, 0%nat)
  ∧ (content_file_path <$> db second.2 !! hash_AB)
    = Some (Some ["2024"; "01"; "01"; hash_AB +:+ ".txt"]%string).
Proof. repeat split; vm_compute; reflexivity. Qed.

(** A focus_date that does not parse: the file goes to the partition of the
    current date and the run returns. *)
Example scenario_malformed_date :
  let run := save_news_to_db env_online default_crawler
               [<["focus_date" := str "not-a-date"]> item_AB] true empty_world in
  run.1 = Ok (1%nat, 0%nat)
  ∧ (content_file_path <$> db run.2 !! hash_AB)
    = Some (Some ["2026"; "11"; "03"; hash_AB +:+ ".txt"]%string).
Proof. repeat split; vm_compute; reflexivity. Qed.

(** The directories are created but the file cannot be written: the failure
    is logged, the row is inserted without a path, and the run returns. *)
Example scenario_write_failure :
  let run := save_news_to_db env_write_error default_crawler [item_AB] true
               empty_world in
  run.1 = Ok (1%nat, 0%nat)
  ∧ (content_file_path <$> db run.2 !! hash_AB) = Some None
  ∧ files run.2 = ∅
  ∧ detail_failed (trace run.2) = true
  ∧ take 2 (trace run.2) = [EvSleep; EvPrint (MsgSaveContentFailed OSError)].
Proof. repeat split; vm_compute; reflexivity. Qed.

(** The disk refuses every call: the exception of [os.makedirs] leaves
    [save_news_to_db]. *)
Example scenario_disk_error :
  (save_news_to_db env_disk_error default_crawler [item_AB] true empty_world).1
  = Raise OSError.
Proof. vm_compute; reflexivity. Qed.

(** * The theorems at concrete inputs *)

Lemma get_content_hash_identity_witness :
  get_content_hash item_AB = Ok hash_AB
  ∧ get_content_hash item_AB_joined = get_content_hash item_AB
  ∧ String.length hash_AB = 32%nat.
Proof.
  destruct (get_content_hash_identity item_AB item_AB_joined
              (str "A") (str "B") (str "AB") (PStr []))
    as (H1 & H2 & H3); try (vm_compute; reflexivity).
  split; [vm_compute; reflexivity|]. split; [exact H2|].
  apply (H3 hash_AB). vm_compute; reflexivity.
Defined.

Lemma save_news_to_db_idempotent_witness :
  save_news_to_db env_online default_crawler [item_AB] true empty_world
  = (Ok (1%nat, 0%nat), world_with_detail)
  ∧ save_news_to_db env_online default_crawler [item_AB] true world_with_detail
    = (Ok (0%nat, 1%nat), world_with_detail).
Proof.
  assert (save_news_to_db env_online default_crawler [item_AB] true empty_world
          = (Ok (1%nat, 0%nat), world_with_detail)) as Hfirst
    by (vm_compute; reflexivity).
  split; [exact Hfirst|].
  apply (save_news_to_db_idempotent env_online default_crawler [item_AB] true
           empty_world (1%nat, 0%nat) world_with_detail Hfirst).
  vm_compute; reflexivity.
Defined.

Lemma no_refetch_once_attached_witness :
  process_item env_online default_crawler true (0%nat, 0%nat) item_AB world_with_detail
  = (Ok (0%nat, 1%nat), world_with_detail).
Proof.
  apply (no_refetch_once_attached env_online default_crawler true (0%nat, 0%nat)
           item_AB world_with_detail hash_AB row_AB_detailed
           ["2024"; "01"; "01"; hash_AB +:+ ".txt"]%string).
  - unfold stored_paths_ok. apply (bool_decide_unpack _). vm_compute. exact I.
  - vm_compute; reflexivity.
  - vm_compute; reflexivity.
  - reflexivity.
Defined.

Lemma failed_detail_records_no_path_witness :
  (let run := process_item env_offline default_crawler true (0%nat, 0%nat)
                item_AB empty_world in
   detail_failed (trace run.2) = true
   ∧ ∃ row, content_file_path row = None
       ∧ run.1 = Ok (1%nat, 0%nat)
       ∧ db run.2 = <[hash_AB := row]> (db empty_world))
  ∧ (let run := process_item env_offline default_crawler true (0%nat, 0%nat)
                  item_null_brief empty_world in
     detail_failed (trace run.2) = true
     ∧ run.1 = Ok (0%nat, 0%nat) ∧ db run.2 = db empty_world)
  ∧ (let run := process_item env_disk_error default_crawler true (0%nat, 0%nat)
                  item_AB empty_world in
     run.1 = Raise OSError ∧ db run.2 = db empty_world
     ∧ detail_failed (trace run.2) = false).
Proof.
  split; [|split].
  - intros run. split; [vm_compute; reflexivity|].
    destruct (failed_detail_records_no_path env_offline default_crawler true
                (0%nat, 0%nat) item_AB empty_world run.1 run.2 (trace run.2))
      as (Hfailed & _ & _).
    + apply surjective_pairing.
    + vm_compute; reflexivity.
    + destruct Hfailed as (h & Hh & Hrow); [vm_compute; reflexivity|].
      assert (h = hash_AB) as ->.
      { vm_compute in Hh. injection Hh as <-. reflexivity. }
      exact Hrow.
  - intros run. split; [vm_compute; reflexivity|].
    destruct (failed_detail_records_no_path env_offline default_crawler true
                (0%nat, 0%nat) item_null_brief empty_world run.1 run.2
                (trace run.2))
      as (Hfailed & _ & _).
    + apply surjective_pairing.
    + vm_compute; reflexivity.
    + destruct Hfailed as (h & Hh & Hrow); [vm_compute; reflexivity|].
      assert (h = "fd0893b1aa283e03b3b348ee3329cd09"%string) as ->.
      { vm_compute in Hh. injection Hh as <-. reflexivity. }
      exact Hrow.
  - intros run.
    destruct (failed_detail_records_no_path env_disk_error default_crawler true
                (0%nat, 0%nat) item_AB empty_world run.1 run.2 (trace run.2))
      as (_ & Hraised & Hstorage).
    + apply surjective_pairing.
    + vm_compute; reflexivity.
    + destruct (Hstorage hash_AB (pystr_of_string "A") (str "http://x/1")
                  (pystr_of_string "Paragraph one." ++ [10]
                   ++ pystr_of_string "Paragraph two.")
                  (str "2024-01-01 10:00:00") OSError run.2)
        as (Hr & _ & _ & _); try (vm_compute; reflexivity).
      { discriminate. }
      split; [exact Hr|]. exact (Hraised OSError Hr).
Defined.

Lemma content_file_path_set_once_witness :
  let run := save_news_to_db env_offline default_crawler
               [item_AB; item_AB_joined] true world_with_detail in
  stored_paths_ok (db run.2)
  ∧ (∀ p, content_file_path row_AB_detailed = Some p ->
       db run.2 !! hash_AB = Some row_AB_detailed)
  ∧ (content_file_path row_AB_detailed = None ->
     ∃ row', db run.2 !! hash_AB = Some row'
       ∧ (row' = row_AB_detailed
          ∨ ∃ p now, path_truthy (Some p) = true
              ∧ row' = with_content_file_path row_AB_detailed (Some p) now)).
Proof.
  intros run.
  apply (content_file_path_set_once env_offline default_crawler
           [item_AB; item_AB_joined] true world_with_detail run.1 run.2
           hash_AB row_AB_detailed).
  - unfold stored_paths_ok. apply (bool_decide_unpack _). vm_compute. exact I.
  - apply surjective_pairing.
  - vm_compute; reflexivity.
Defined.

Lemma get_content_file_path_partition_witness :
  (∃ w', get_content_file_path env_offline default_crawler hash_AB
           (str "2024-01-01 10:00:00") empty_world
         = (Ok ["2024"; "01"; "01"; hash_AB +:+ ".txt"]%string, w'))
  ∧ (∃ w', get_content_file_path env_offline default_crawler hash_AB
             (str "not-a-date") empty_world
           = (Ok ["2026"; "11"; "03"; hash_AB +:+ ".txt"]%string, w'))
  ∧ (∃ w', get_content_file_path env_offline default_crawler hash_AB
             PNone empty_world
           = (Ok ["2026"; "11"; "03"; hash_AB +:+ ".txt"]%string, w'))
  ∧ (∃ w', get_content_file_path env_offline default_crawler hash_AB
             (str "0099-01-01 10:00:00") empty_world
           = (Ok ["99"; "01"; "01"; hash_AB +:+ ".txt"]%string, w'))
  ∧ path_str (content_file {| dt_year := 99; dt_month := 1; dt_day := 1;
                              dt_hour := 10; dt_minute := 0; dt_second := 0 |}
                hash_AB)
    = ("99/01/01/" +:+ hash_AB +:+ ".txt")%string.
Proof.
  assert (disk_ok env_offline empty_world) as Hdisk by (intros t _; reflexivity).
  split; [|split; [|split; [|split]]]; last first.
  - destruct (get_content_file_path_partition env_offline default_crawler hash_AB
                PNone empty_world Hdisk) as (_ & _ & Hshape).
    destruct (Hshape {| dt_year := 99; dt_month := 1; dt_day := 1;
                        dt_hour := 10; dt_minute := 0; dt_second := 0 |})
      as [_ Hstr].
    rewrite Hstr. vm_compute; reflexivity.
  - destruct (get_content_file_path_partition env_offline default_crawler hash_AB
                (str "0099-01-01 10:00:00") empty_world Hdisk) as (Hparses & _ & _).
    destruct (Hparses (pystr_of_string "0099-01-01 10:00:00")
                {| dt_year := 99; dt_month := 1; dt_day := 1;
                   dt_hour := 10; dt_minute := 0; dt_second := 0 |})
      as (w' & Hrun & _); [reflexivity|vm_compute; reflexivity| |by exists w'].
    intros k. reflexivity.
  - destruct (get_content_file_path_partition env_offline default_crawler hash_AB
                PNone empty_world Hdisk) as (_ & Hfails & _).
    destruct Hfails as (w' & Hrun & _); [| |by exists w'].
    + intros s' Hs. discriminate.
    + intros k. reflexivity.
  - destruct (get_content_file_path_partition env_offline default_crawler hash_AB
                (str "not-a-date") empty_world Hdisk) as (_ & Hfails & _).
    destruct Hfails as (w' & Hrun & _); [| |by exists w'].
    + intros s' Hs. injection Hs as <-. vm_compute; reflexivity.
    + intros k. reflexivity.
  - destruct (get_content_file_path_partition env_offline default_crawler hash_AB
                (str "2024-01-01 10:00:00") empty_world Hdisk) as (Hparses & _ & _).
    destruct (Hparses (pystr_of_string "2024-01-01 10:00:00")
                {| dt_year := 2024; dt_month := 1; dt_day := 1;
                   dt_hour := 10; dt_minute := 0; dt_second := 0 |})
      as (w' & Hrun & _); [reflexivity|vm_compute; reflexivity| |by exists w'].
    intros k. reflexivity.
Defined.

Lemma content_file_written_after_path_witness :
  let located := get_content_file_path env_offline default_crawler hash_AB
                   (str "2024-01-01 10:00:00") empty_world in
  let p := ["2024"; "01"; "01"; hash_AB +:+ ".txt"]%string in
  located.1 = Ok p
  ∧ all_levels_exist located.2 ["news"; "2024"; "01"; "01"]%string
  ∧ ∃ w', save_detailed_content env_offline default_crawler p
            (Some (pystr_of_string "Paragraph one.")) located.2 = (Ok true, w')
          ∧ files w' !! ("news"%string :: p) = Some (pystr_of_string "Paragraph one.").
Proof.
  intros located p.
  assert (get_content_file_path env_offline default_crawler hash_AB
            (str "2024-01-01 10:00:00") empty_world = (Ok p, located.2)) as Hpath
    by (vm_compute; reflexivity).
  destruct (content_file_written_after_path env_offline default_crawler hash_AB
              (str "2024-01-01 10:00:00") empty_world p located.2
              (pystr_of_string "Paragraph one.") Hpath)
    as (Hlevels & saved & w' & Hsave & _ & Hfile & _ & Hsaved); [discriminate|].
  split; [vm_compute; reflexivity|]. split; [exact Hlevels|].
  assert (saved = true) as ->.
  { apply Hsaved.
    - intros t _. reflexivity.
    - vm_compute; reflexivity.
    - vm_compute. eauto. }
  exists w'. split; [exact Hsave|]. by apply Hfile.
Defined.

Lemma persist_failure_isolated_witness :
  save_news_to_db env_offline default_crawler [item_null_brief; item_AB] false empty_world
  = (Ok (1%nat, 0%nat),
     {| db := {[ hash_AB := {| title := pystr_of_string "A";
                               summary := pystr_of_string "B";
                               publish_time := Some (pystr_of_string "2024-01-01 10:00:00");
                               keywords := Some [];
                               crawl_time := a_day;
                               content_file_path := None |} ]};
        dirs := ∅; files := ∅; ticks := 0;
        trace := [EvPrint (MsgSaveNewsFailed (str "A") IntegrityError)] |}).
Proof.
  destruct (persist_failure_isolated env_offline default_crawler false []
              item_null_brief [item_AB] empty_world (0%nat, 0%nat) empty_world
              "fd0893b1aa283e03b3b348ee3329cd09" None empty_world
              IntegrityError empty_world)
    as (v_title & Htitle & _ & _ & _ & Hrun).
  - reflexivity.
  - vm_compute; reflexivity.
  - vm_compute; reflexivity.
  - vm_compute; reflexivity.
  - assert (v_title = str "A") as ->.
    { vm_compute in Htitle. injection Htitle as <-. reflexivity. }
    apply Hrun. vm_compute; reflexivity.
Defined.


(** ** The further properties at concrete inputs *)

Lemma world_with_detail_consistent : store_consistent default_crawler world_with_detail.
Proof.
  apply (process_batch_store env_online default_crawler true [item_AB]
           (0%nat, 0%nat) empty_world (Ok (1%nat, 0%nat)) world_with_detail).
  - apply map_Forall_empty.
  - vm_compute; reflexivity.
Qed.

Lemma every_item_counted_once_witness :
  let run := save_news_to_db env_offline default_crawler
               [item_AB; item_null_brief] false empty_world in
  ∃ evs, trace run.2 = evs ++ trace empty_world
    ∧ (1 + 0 + count is_save_failure evs = 2)%nat.
Proof.
  intros run.
  apply (every_item_counted_once env_offline default_crawler
           [item_AB; item_null_brief] false empty_world 1%nat 0%nat run.2).
  vm_compute; reflexivity.
Defined.

Lemma one_sleep_per_fetch_witness :
  let run := save_news_to_db env_online default_crawler
               [item_AB; item_AB_joined] true empty_world in
  ∃ evs, trace run.2 = evs ++ trace empty_world
    ∧ count is_sleep evs = count is_fetch evs
    ∧ (count is_fetch evs <= 2)%nat.
Proof.
  intros run.
  apply (one_sleep_per_fetch env_online default_crawler
           [item_AB; item_AB_joined] true empty_world (1%nat, 1%nat) run.2).
  vm_compute; reflexivity.
Defined.

Lemma store_consistent_preserved_witness :
  store_consistent default_crawler world_with_detail.
Proof.
  apply (store_consistent_preserved env_online default_crawler true [item_AB]
           empty_world (Ok (1%nat, 0%nat)) world_with_detail).
  - apply map_Forall_empty.
  - vm_compute; reflexivity.
Defined.

Lemma attached_file_never_rewritten_witness :
  let run := save_news_to_db env_online default_crawler
               [item_AB_joined; item_null_brief] true world_with_detail in
  files run.2 !! (content_base_dir default_crawler
                  ++ ["2024"; "01"; "01"; hash_AB +:+ ".txt"]%string)
  = files world_with_detail !! (content_base_dir default_crawler
                  ++ ["2024"; "01"; "01"; hash_AB +:+ ".txt"]%string).
Proof.
  intros run.
  apply (attached_file_never_rewritten env_online default_crawler true
           [item_AB_joined; item_null_brief] world_with_detail run.1 run.2
           hash_AB row_AB_detailed).
  - exact world_with_detail_consistent.
  - apply surjective_pairing.
  - vm_compute; reflexivity.
  - reflexivity.
Defined.

Lemma recorded_file_holds_fetched_text_witness :
  let run := process_item env_online default_crawler true (0%nat, 0%nat) item_AB
               empty_world in
  ∃ dt text url,
    ["2024"; "01"; "01"; hash_AB +:+ ".txt"]%string = content_file dt hash_AB
    ∧ text ≠ []
    ∧ files run.2 !! (content_base_dir default_crawler
                      ++ ["2024"; "01"; "01"; hash_AB +:+ ".txt"]%string) = Some text
    ∧ item_AB !! "url" = Some url
    ∧ http_detail env_online (ticks empty_world) url = Some text.
Proof.
  intros run.
  apply (recorded_file_holds_fetched_text env_online default_crawler true
           (0%nat, 0%nat) item_AB empty_world run.1 run.2 hash_AB row_AB_detailed).
  - vm_compute; reflexivity.
  - reflexivity.
  - apply surjective_pairing.
  - vm_compute; reflexivity.
  - reflexivity.
Defined.

Lemma without_detail_only_the_table_witness :
  let run := save_news_to_db env_online default_crawler
               [item_AB; item_null_brief] false world_with_detail in
  dirs run.2 = dirs world_with_detail ∧ files run.2 = files world_with_detail
  ∧ ticks run.2 = ticks world_with_detail
  ∧ ∃ evs, trace run.2 = evs ++ trace world_with_detail
      ∧ forallb is_save_failure evs = true.
Proof.
  intros run.
  apply (without_detail_only_the_table env_online default_crawler
           [item_AB; item_null_brief] world_with_detail run.1 run.2).
  apply surjective_pairing.
Defined.

Lemma save_news_to_db_removes_nothing_witness :
  let run := save_news_to_db env_online default_crawler
               [<["title" := str "C"]> item_AB; item_no_title] true
               world_with_detail in
  run.1 = Raise (KeyError "title")
  ∧ dirs world_with_detail ⊆ dirs run.2
  ∧ (ticks world_with_detail <= ticks run.2)%nat
  ∧ (∀ q, is_Some (files world_with_detail !! q) -> is_Some (files run.2 !! q))
  ∧ (∀ h, is_Some (db world_with_detail !! h) -> is_Some (db run.2 !! h))
  ∧ (∀ e, run.1 = Raise e ->
       db run.2 = db world_with_detail
       ∧ ∃ w1, process_batch env_online default_crawler true
                 [<["title" := str "C"]> item_AB; item_no_title] (0%nat, 0%nat)
                 world_with_detail = (Raise e, w1)
               ∧ files run.2 = files w1 ∧ dirs run.2 = dirs w1).
Proof.
  intros run. split; [vm_compute; reflexivity|].
  apply (save_news_to_db_removes_nothing env_online default_crawler true
           [<["title" := str "C"]> item_AB; item_no_title] world_with_detail
           run.1 run.2).
  apply surjective_pairing.
Defined.

Lemma same_identity_later_in_run_witness :
  ∃ n d w1,
    save_news_to_db env_offline default_crawler [item_AB] false empty_world
    = (Ok (n, d), w1)
    ∧ save_news_to_db env_offline default_crawler ([item_AB] ++ [item_AB_joined])
        false empty_world
      = (Ok (n, (d + length [item_AB_joined])%nat), w1).
Proof.
  apply (same_identity_later_in_run env_offline default_crawler [item_AB]
           [item_AB_joined] empty_world).
  - constructor; [vm_compute; reflexivity|constructor].
  - constructor; [|constructor]. exists item_AB.
    split; [apply list_elem_of_here|vm_compute; reflexivity].
Defined.

Lemma detail_attached_when_all_goes_well_witness :
  (content_file a_day_of_item_AB hash_AB
   = ["2024"; "01"; "01"; hash_AB +:+ ".txt"]%string
   ∧ ∃ w' row,
       process_item env_online default_crawler true (0%nat, 0%nat) item_AB empty_world
       = (Ok (1%nat, 0%nat), w')
       ∧ db w' = <[hash_AB := row]> (db empty_world)
       ∧ content_file_path row = Some (content_file (a_day_of_item_AB) hash_AB)
       ∧ files w'
         = <[content_base_dir default_crawler ++ content_file a_day_of_item_AB hash_AB
             := pystr_of_string "Paragraph one." ++ [10]
                ++ pystr_of_string "Paragraph two."]> (files empty_world)
       ∧ all_levels_exist w'
           (content_base_dir default_crawler ++ partition a_day_of_item_AB))
  ∧ ∃ w' row,
      process_item env_online default_crawler true (0%nat, 0%nat)
        (<["focus_date" := str "0099-01-01 10:00:00"]> item_AB) empty_world
      = (Ok (1%nat, 0%nat), w')
      ∧ db w' = <[hash_AB := row]> (db empty_world)
      ∧ content_file_path row = Some ["99"; "01"; "01"; hash_AB +:+ ".txt"]%string
      ∧ files w' !! ["news"; "99"; "01"; "01"; hash_AB +:+ ".txt"]%string
        = Some (pystr_of_string "Paragraph one." ++ [10]
                ++ pystr_of_string "Paragraph two.").
Proof.
  split.
  - apply (detail_attached_when_all_goes_well env_online default_crawler
             (0%nat, 0%nat) item_AB empty_world hash_AB (pystr_of_string "A")
             (str "http://x/1")
             (pystr_of_string "Paragraph one." ++ [10] ++ pystr_of_string "Paragraph two.")
             (pystr_of_string "2024-01-01 10:00:00") a_day_of_item_AB).
    + vm_compute; reflexivity.
    + left. split; vm_compute; reflexivity.
    + vm_compute; reflexivity.
    + vm_compute; reflexivity.
    + reflexivity.
    + discriminate.
    + eexists. vm_compute. reflexivity.
    + vm_compute; reflexivity.
    + vm_compute; reflexivity.
    + intros t _. reflexivity.
    + intros k. apply lookup_empty.
    + vm_compute; reflexivity.
  - destruct (detail_attached_when_all_goes_well env_online default_crawler
                (0%nat, 0%nat)
                (<["focus_date" := str "0099-01-01 10:00:00"]> item_AB)
                empty_world hash_AB (pystr_of_string "A") (str "http://x/1")
                (pystr_of_string "Paragraph one." ++ [10]
                 ++ pystr_of_string "Paragraph two.")
                (pystr_of_string "0099-01-01 10:00:00")
                {| dt_year := 99; dt_month := 1; dt_day := 1;
                   dt_hour := 10; dt_minute := 0; dt_second := 0 |})
      as (_ & w' & row & Hrun & Hdb & Hcell & Hfiles & _).
    + vm_compute; reflexivity.
    + left. split; vm_compute; reflexivity.
    + vm_compute; reflexivity.
    + vm_compute; reflexivity.
    + reflexivity.
    + discriminate.
    + eexists. vm_compute. reflexivity.
    + vm_compute; reflexivity.
    + vm_compute; reflexivity.
    + intros t _. reflexivity.
    + intros k. apply lookup_empty.
    + vm_compute; reflexivity.
    + exists w', row. split; [exact Hrun|]. split; [exact Hdb|].
      split; [exact Hcell|]. rewrite Hfiles. apply lookup_insert_eq.
Defined.

Lemma unwritable_text_leaves_empty_file_witness :
  ∃ w', save_detailed_content env_online default_crawler
          ["2024"; "01"; "01"; hash_AB +:+ ".txt"]%string (Some [0xD800])
          world_with_detail = (Ok false, w')
    ∧ files w' = <[content_base_dir default_crawler
                   ++ ["2024"; "01"; "01"; hash_AB +:+ ".txt"]%string := []]>
                   (files world_with_detail)
    ∧ trace w' = EvPrint (MsgSaveContentFailed UnicodeEncodeError)
                 :: trace world_with_detail
    ∧ dirs w' = dirs world_with_detail ∧ db w' = db world_with_detail.
Proof.
  apply (unwritable_text_leaves_empty_file env_online default_crawler
           ["2024"; "01"; "01"; hash_AB +:+ ".txt"]%string [0xD800] world_with_detail).
  - intros t _. reflexivity.
  - vm_compute; reflexivity.
  - vm_compute; reflexivity.
  - vm_compute; reflexivity.
Defined.

Lemma world_with_detail_wellformed : fs_wellformed world_with_detail.
Proof.
  apply (preserves_fs_save_news_to_db env_online default_crawler true [item_AB]
           empty_world (Ok (1%nat, 0%nat)) world_with_detail).
  - vm_compute; reflexivity.
  - split; [apply lookup_empty|]. intros p Hp. apply lookup_empty.
Qed.

Lemma get_statistics_snapshot_witness :
  let st := {| total_count := 1; detailed_count := 1;
               time_range := (Some (pystr_of_string "2024-01-01 10:00:00"),
                              Some (pystr_of_string "2024-01-01 10:00:00")) |} in
  (detailed_count st <= total_count st)%nat
  ∧ ∃ lo hi, time_range st = (Some lo, Some hi) ∧ text_leb lo hi = true.
Proof.
  intros st.
  destruct (get_statistics_snapshot default_crawler world_with_detail st
              world_with_detail) as (_ & Hle & [[Hnone _]|(lo & hi & Hr & Hlh & _)]).
  - vm_compute; reflexivity.
  - discriminate Hnone.
  - split; [exact Hle|]. by exists lo, hi.
Defined.

Lemma statistics_grow_by_at_most_new_count_witness :
  let run := save_news_to_db env_offline default_crawler
               [item_AB; <["title" := str "C"]> item_AB] true world_with_detail in
  let st := statistics_of (db world_with_detail) in
  let st' := statistics_of (db run.2) in
  run.1 = Ok (1%nat, 1%nat)
  ∧ (total_count st <= total_count st' <= total_count st + 1)%nat
  ∧ (detailed_count st <= detailed_count st' <= detailed_count st + 1)%nat.
Proof.
  intros run st st'. split; [vm_compute; reflexivity|].
  apply (statistics_grow_by_at_most_new_count env_offline default_crawler true
           [item_AB; <["title" := str "C"]> item_AB] world_with_detail 1%nat 1%nat
           run.2).
  vm_compute; reflexivity.
Defined.

Lemma time_range_only_widens_witness :
  let run := save_news_to_db env_offline default_crawler
               [<["focus_date" := str "2023-12-31 23:59:59"]>
                  (<["title" := str "C"]> item_AB)] false world_with_detail in
  let st := statistics_of (db world_with_detail) in
  let st' := statistics_of (db run.2) in
  (time_range st').1 = Some (pystr_of_string "2023-12-31 23:59:59")
  ∧ (∀ lo, (time_range st).1 = Some lo ->
       ∃ lo', (time_range st').1 = Some lo' ∧ text_leb lo' lo = true)
  ∧ (∀ hi, (time_range st).2 = Some hi ->
       ∃ hi', (time_range st').2 = Some hi' ∧ text_leb hi hi' = true).
Proof.
  intros run st st'. split; [vm_compute; reflexivity|].
  apply (time_range_only_widens env_offline default_crawler false
           [<["focus_date" := str "2023-12-31 23:59:59"]>
              (<["title" := str "C"]> item_AB)] world_with_detail run.1 run.2).
  apply surjective_pairing.
Defined.

Lemma attached_content_is_readable_witness :
  ∃ text w',
    files world_with_detail
      !! (content_base_dir default_crawler
          ++ ["2024"; "01"; "01"; hash_AB +:+ ".txt"]%string) = Some text
    ∧ text ≠ []
    ∧ Viewer.read_detailed_content env_online viewer_of_default_crawler hash_AB
        world_with_detail
      = (Ok (Some (universal_newlines text)), w')
    ∧ db w' = db world_with_detail ∧ dirs w' = dirs world_with_detail
    ∧ files w' = files world_with_detail.
Proof.
  apply (attached_content_is_readable env_online default_crawler
           viewer_of_default_crawler world_with_detail hash_AB row_AB_detailed).
  - reflexivity.
  - reflexivity.
  - exact world_with_detail_consistent.
  - exact world_with_detail_wellformed.
  - intros t _. reflexivity.
  - vm_compute; reflexivity.
  - reflexivity.
Defined.

Lemma read_back_what_was_fetched_witness :
  let run := process_item env_online default_crawler true (0%nat, 0%nat) item_AB
               empty_world in
  ∃ url text w'',
    item_AB !! "url" = Some url
    ∧ http_detail env_online (ticks empty_world) url = Some text
    ∧ Viewer.read_detailed_content env_online viewer_of_default_crawler hash_AB run.2
      = (Ok (Some (universal_newlines text)), w'')
    ∧ (13 ∉ text -> universal_newlines text = text).
Proof.
  intros run.
  apply (read_back_what_was_fetched env_online default_crawler
           viewer_of_default_crawler true (0%nat, 0%nat) item_AB empty_world
           run.1 run.2 hash_AB row_AB_detailed
           ["2024"; "01"; "01"; hash_AB +:+ ".txt"]%string).
  - reflexivity.
  - reflexivity.
  - split; [apply lookup_empty|]. intros p Hp. apply lookup_empty.
  - vm_compute; reflexivity.
  - reflexivity.
  - apply surjective_pairing.
  - vm_compute; reflexivity.
  - reflexivity.
  - intros t _. reflexivity.
Defined.

Lemma parse_jsonp_unwraps_callback_witness :
  parse_jsonp feed_one_page
    (pystr_of_string "cb(" ++ page_object_text ++ pystr_of_string ");")
  = parse_jsonp feed_one_page page_object_text.
Proof.
  pose proof (parse_jsonp_unwraps_callback feed_one_page (pystr_of_string "cb(")
                (removelast (tail page_object_text)) (pystr_of_string ");")) as H.
  etransitivity; [|etransitivity; [apply H|]].
  - vm_compute; reflexivity.
  - apply (bool_decide_unpack _). vm_compute. exact I.
  - apply (bool_decide_unpack _). vm_compute. exact I.
  - apply (bool_decide_unpack _). vm_compute. exact I.
  - vm_compute; reflexivity.
Defined.

Lemma run_crawler_without_news_witness :
  run_crawler env_online feed_down default_crawler true 3 world_with_detail
  = (Ok NoNews,
     {| db := db world_with_detail; dirs := dirs world_with_detail;
        files := files world_with_detail;
        ticks := (3 + S (ticks world_with_detail))%nat;
        trace := replicate 3 EvSleep ++ trace world_with_detail |}).
Proof.
  apply (run_crawler_without_news env_online feed_down default_crawler true 3
           world_with_detail).
  intros n w0 p w1 H. vm_compute in H. injection H as <- _. reflexivity.
Defined.

Lemma run_crawler_report_witness :
  let run := run_crawler env_online feed_one_page default_crawler true 2
               empty_world in
  ∃ news_list w1,
    news_list ≠ [] ∧ (length news_list <= 10 * 2)%nat
    ∧ db w1 = db empty_world ∧ dirs w1 = dirs empty_world
    ∧ files w1 = files empty_world
    ∧ save_news_to_db env_online default_crawler news_list true w1
      = (Ok (1%nat, 0%nat), run.2)
    ∧ (1 + 0 <= length news_list)%nat
    ∧ statistics_of (db run.2) = statistics_of (db run.2)
    ∧ (total_count (statistics_of (db run.2))
       <= total_count (statistics_of (db empty_world)) + 1)%nat.
Proof.
  intros run.
  apply (run_crawler_report env_online feed_one_page default_crawler true 2
           empty_world 1%nat 0%nat (statistics_of (db run.2)) run.2).
  vm_compute; reflexivity.
Defined.

Lemma main_takes_at_most_seventy_witness :
  let run := main env_online feed_one_page empty_world in
  run.1 = Ok (Finished 1 0 (statistics_of (db run.2))) ∧ (1 + 0 <= 70)%nat.
Proof.
  intros run.
  assert (run.1 = Ok (Finished 1 0 (statistics_of (db run.2)))) as Hrun
    by (vm_compute; reflexivity).
  split; [exact Hrun|].
  apply (main_takes_at_most_seventy env_online feed_one_page empty_world 1%nat
           0%nat (statistics_of (db run.2)) run.2).
  rewrite <- Hrun. apply surjective_pairing.
Defined.


Lemma metadata_first_write_wins_witness :
  let run := save_news_to_db env_offline default_crawler [item_AB_joined] false
               world_with_detail in
  ∃ row', db run.2 !! hash_AB = Some row'
    ∧ title row' = title row_AB_detailed ∧ summary row' = summary row_AB_detailed
    ∧ publish_time row' = publish_time row_AB_detailed
    ∧ keywords row' = keywords row_AB_detailed
    ∧ (row' = row_AB_detailed
       ∨ (path_truthy (content_file_path row_AB_detailed) = false
          ∧ path_truthy (content_file_path row') = true)).
Proof.
  intros run.
  apply (metadata_first_write_wins env_offline default_crawler [item_AB_joined]
           false world_with_detail run.1 run.2 hash_AB row_AB_detailed).
  - apply surjective_pairing.
  - vm_compute; reflexivity.
Defined.

Lemma content_text_one_paragraph_per_line_witness :
  let texts := [pystr_of_string "Paragraph one."; [];
                pystr_of_string "Paragraph two."] in
  content_text texts
  = pystr_of_string "Paragraph one." ++ [10] ++ pystr_of_string "Paragraph two."
  ∧ (py_truthy (Some (content_text texts)) = false
     <-> Forall (fun t => t = []) texts)
  ∧ py_strip (content_text texts) = content_text texts.
Proof.
  intros texts.
  apply (content_text_one_paragraph_per_line texts).
  repeat constructor; vm_compute; reflexivity.
Defined.
